(** * md2pdf: the Markdown renderer hooks, the page locator and the PDF
    outline synthesizer of the two converter scripts.

    Two near-duplicate scripts are embedded side by side:
    - [Server]  is [src/server/md2pdf-converter.js];
    - [Part002] is [src/unnamed/part_002].

    JavaScript numbers that carry pixel offsets and page heights are finite
    doubles; they are embedded as the rationals they denote ([Q]).  The
    quotient by the literal 841.89 of src/unnamed/part_002 is rounded as
    the division of doubles rounds it ([roundDouble]); the quotient by 900
    of the server script is taken exactly, which leaves its floor as it is
    (lemma [floor_of_double_quotient]).  Array indices and the results of
    [Math.floor] are embedded as [Z].  Strings are embedded as
    [string]: the texts are ASCII texts, and only the ASCII behaviour of
    [toLowerCase] and of the regular expression classes is modelled.

    The libraries the scripts call (marked, puppeteer and the browser,
    pdf-lib, fs) are not part of the repository; each is embedded by the
    behaviour of the calls the scripts make, stated where it is defined. *)

From Stdlib Require Import ZArith QArith Qround Qpower Lia Lqa Ascii String.
From stdpp Require Import gmap strings list pretty.

Set Warnings "-register-all".

Local Open Scope Z_scope.

(** ** JavaScript string helpers *)

(** The double-quote character, for the attribute delimiters of the
    generated HTML. *)
Definition dquote : ascii := ascii_of_nat 34.
Definition dq : string := String dquote "".

(** [\w] of a JavaScript regular expression without the [u] flag:
    [A-Za-z0-9_]. *)
Definition isWordChar (c : ascii) : bool :=
  let n := nat_of_ascii c in
  ((48 <=? n) && (n <=? 57) || (65 <=? n) && (n <=? 90)
   || (97 <=? n) && (n <=? 122) || (n =? 95))%nat.

Definition lowerChar (c : ascii) : ascii :=
  let n := nat_of_ascii c in
  if ((65 <=? n) && (n <=? 90))%nat then ascii_of_nat (n + 32) else c.

(** [s.toLowerCase()] on ASCII text. *)
Fixpoint toLowerCase (s : string) : string :=
  match s with
  | EmptyString => EmptyString
  | String c r => String (lowerChar c) (toLowerCase r)
  end.

(** [s.replace(/[^\w]+/g, '-')]: every maximal run of non-word characters
    becomes one dash.  [inRun] records that the previous character already
    belonged to the run being replaced. *)
Fixpoint replaceNonWordRuns (inRun : bool) (s : string) : string :=
  match s with
  | EmptyString => EmptyString
  | String c r =>
      if isWordChar c then String c (replaceNonWordRuns false r)
      else if inRun then replaceNonWordRuns true r
           else String "-" (replaceNonWordRuns true r)
  end.

(** [s.replace(/[...]/g, f)] for a regular expression that is one character
    class: a single left-to-right scan; a matching character is replaced by
    what the callback returns for it and the scan resumes after the match,
    so replacement text is never scanned again. *)
Fixpoint replaceClass (cls : ascii -> bool) (f : ascii -> string) (s : string)
  : string :=
  match s with
  | EmptyString => EmptyString
  | String c r =>
      if cls c then f c +:+ replaceClass cls f r
      else String c (replaceClass cls f r)
  end.

(** [x || dflt] on a possibly undefined string: [undefined] and the empty
    string are falsy. *)
Definition orDefault (x : option string) (dflt : string) : string :=
  match x with
  | Some EmptyString | None => dflt
  | Some s => s
  end.

(** ** The heading side channel *)

(** One element of the module-level array [headings]:
    [{ level, text: raw, id }]. *)
Record Heading := mkHeading {
  hd_level : nat;
  hd_text : string;
  hd_id : string
}.

(** [raw.toLowerCase().replace(/[^\w]+/g, '-')] *)
Definition anchorId (raw : string) : string :=
  replaceNonWordRuns false (toLowerCase raw).

(** ** The Markdown parser's walk over the token list

    [marked] is a dependency of the scripts and not part of them.  What is
    embedded here is the part of [marked.parse] the overrides interact
    with: the parser visits the block tokens in document order, descends
    into the children of container tokens, and calls the renderer method of
    each token, concatenating the results.  For a heading token it calls
    (marked 4 to 12, Parser.parse, case [heading])
    [renderer.heading(parseInline(tokens), depth,
    unescape(parseInline(tokens, textRenderer)))]: the first argument is
    the inline content rendered as HTML, the third the same inline content
    rendered by marked's TextRenderer, whose methods return the text of a
    token without its markup, passed through the helper [unescape]. *)

Definition nl : string := String (ascii_of_nat 10) "".

(** *** The helpers [escape] and [unescape] of marked *)

(** [\d] and [[0-9A-Fa-f]]. *)
Definition isDigit (c : ascii) : bool :=
  let n := nat_of_ascii c in
  ((48 <=? n) && (n <=? 57))%nat.

Definition isHexDigit (c : ascii) : bool :=
  let n := nat_of_ascii c in
  ((48 <=? n) && (n <=? 57) || (65 <=? n) && (n <=? 70)
   || (97 <=? n) && (n <=? 102))%nat.

(** The length of the longest prefix of [s] made of characters of the
    class: what a greedy repetition of the class takes. *)
Fixpoint runLength (cls : ascii -> bool) (s : string) : nat :=
  match s with
  | EmptyString => O
  | String c r => if cls c then S (runLength cls r) else O
  end.

Definition semicolonAt (k : nat) (s : string) : bool :=
  match String.get k s with
  | Some c => Ascii.eqb c ";"
  | None => false
  end.

(** The lookahead of [escapeReplaceNoEncode],
    [(#\d{1,7}|#[Xx][a-fA-F0-9]{1,6}|\w+);], on the text [r] that follows
    an ampersand: whether the ampersand starts a character reference. *)
Definition entityAhead (r : string) : bool :=
  match r with
  | String "#" r1 =>
      (let k := runLength isDigit r1 in
       (1 <=? k)%nat && (k <=? 7)%nat && semicolonAt k r1)
      || match r1 with
         | String x r2 =>
             (Ascii.eqb x "x" || Ascii.eqb x "X")
             && (let k := runLength isHexDigit r2 in
                 (1 <=? k)%nat && (k <=? 6)%nat && semicolonAt k r2)
         | EmptyString => false
         end
  | _ =>
      let k := runLength isWordChar r in
      (1 <=? k)%nat && semicolonAt k r
  end.

(** The object literal [escapeReplacements] and [getEscapeReplacement]. *)
Definition escapeReplacements : list (ascii * string) :=
  [ ("&"%char, "&amp;"); ("<"%char, "&lt;"); (">"%char, "&gt;");
    (dquote, "&quot;"); ("'"%char, "&#39;") ].

Definition getEscapeReplacement (ch : ascii) : string :=
  match List.find (fun kv => Ascii.eqb (fst kv) ch) escapeReplacements with
  | Some kv => snd kv
  | None => "undefined"
  end.

(** [escape(html, encode)]: with [encode], every ampersand, less-than,
    greater-than, double quote and apostrophe is replaced; without, an
    ampersand that starts a character reference is kept (the negative
    lookahead of [escapeReplaceNoEncode]).  One pass from the left; a
    replacement is not scanned again. *)
Fixpoint escape (html : string) (encode : bool) : string :=
  match html with
  | EmptyString => EmptyString
  | String ch r =>
      if Ascii.eqb ch "<" || Ascii.eqb ch ">" || Ascii.eqb ch dquote
         || Ascii.eqb ch "'"
         || Ascii.eqb ch "&" && (encode || negb (entityAhead r))
      then getEscapeReplacement ch +:+ escape r encode
      else String ch (escape r encode)
  end.

(** A match of [unescapeTest],
    [/&(#(?:\d+)|(?:#x[0-9A-Fa-f]+)|(?:\w+));?/ig], at an ampersand, by the
    text [r] that follows the ampersand: the group [n] and the number of
    characters of [r] the match takes.  The alternatives are tried in
    order, each repetition is greedy, and the semicolon is taken when it
    is there. *)
Definition matchReference (r : string) : option (string * nat) :=
  let upTo k := if semicolonAt k r then S k else k in
  match r with
  | String "#" r1 =>
      let k := runLength isDigit r1 in
      if (1 <=? k)%nat then Some (substring 0 (S k) r, upTo (S k))
      else
        match r1 with
        | String x r2 =>
            let j := runLength isHexDigit r2 in
            if (Ascii.eqb x "x" || Ascii.eqb x "X") && (1 <=? j)%nat
            then Some (substring 0 (S (S j)) r, upTo (S (S j)))
            else None
        | EmptyString => None
        end
  | _ =>
      let k := runLength isWordChar r in
      if (1 <=? k)%nat then Some (substring 0 k r, upTo k) else None
  end.

(** What [html.replace(unescapeTest, ...)] cuts [html] into: the
    characters outside the matches and, for each match, its group.
    [skip] counts the characters of the current match that are still to
    be passed. *)
Fixpoint unescapeMatches (skip : nat) (html : string) : list (ascii + string) :=
  match html with
  | EmptyString => []
  | String c r =>
      match skip with
      | S k => unescapeMatches k r
      | O =>
          if Ascii.eqb c "&" then
            match matchReference r with
            | Some (n, len) => inr n :: unescapeMatches len r
            | None => inl c :: unescapeMatches 0 r
            end
          else inl c :: unescapeMatches 0 r
      end
  end.

(** The value of a digit in base 16, and [parseInt(digits, base)] on a
    text of digits. *)
Definition digitValue (c : ascii) : N :=
  let n := N_of_ascii c in
  (if isDigit c then n - 48
   else if (97 <=? n) then n - 87 else n - 55)%N.

Definition parseInt (digits : string) (base : N) : N :=
  fold_left (fun value c => (value * base + digitValue c)%N)
    (list_ascii_of_string digits) 0%N.

(** The character code a numeric reference denotes, for a group [n] in
    lower case: [parseInt(n.substring(2), 16)] after [#x],
    [+n.substring(1)] after [#]; a named reference denotes none. *)
Definition charCode (n : string) : option N :=
  match n with
  | String "#" (String "x" hex) => Some (parseInt hex 16)
  | String "#" dec => Some (parseInt dec 10)
  | _ => None
  end.

(** [String.fromCharCode(code)], for a code below 256; the characters of
    the codes above are outside the embedded texts. *)
Definition fromCharCode (code : N) : string :=
  String (ascii_of_N code) EmptyString.

(** The callback of [unescape]: [colon] gives a colon, a numeric
    reference its character, any other named reference the empty
    string. *)
Definition unescapeReplacement (n : string) : string :=
  let n := toLowerCase n in
  if String.eqb n "colon" then ":"
  else match charCode n with
       | Some code => fromCharCode code
       | None => EmptyString
       end.

(** [unescape(html)] *)
Definition unescape (html : string) : string :=
  foldr (fun piece out =>
           match piece with
           | inl c => String c out
           | inr n => unescapeReplacement n +:+ out
           end) EmptyString (unescapeMatches 0 html).


(** *** Heading tokens and their inline tokens *)

(** The inline tokens of a heading, as the inline lexer makes them.
    - [InText raw]: a text token, or the token of a backslash escape, for
      the characters [raw] of the source; the tokenizer sets its [text]
      to [escape(raw)].
    - [InCodespan code]: a code span around [code]; its [text] is
      [escape(code, true)].
    - [InStrong], [InEm], [InDel]: the tokens with inline children.
    - [InLink before after tokens]: a link, with the markup the default
      renderer's [link] puts around the rendered children.
    - [InImage html text]: an image, with the HTML the default renderer's
      [image] gives and the token's [text].
    - [InHtml text]: a token whose [text] both renderers return as it
      is: inline HTML, text inside raw HTML, and the token of an
      extension (the KaTeX extension), whose own renderer is used
      whichever renderer the parser was given.
    - [InBr]: a line break. *)
Inductive Inline :=
| InText (raw : string)
| InStrong (tokens : list Inline)
| InEm (tokens : list Inline)
| InCodespan (code : string)
| InDel (tokens : list Inline)
| InLink (before after : string) (tokens : list Inline)
| InImage (html text : string)
| InHtml (text : string)
| InBr.

(** [parseInline(tokens)] with the default renderer: each inline token
    inside its HTML element. *)
Fixpoint inlineHtml (t : Inline) : string :=
  let all := fix all (ts : list Inline) : string :=
               match ts with
               | [] => EmptyString
               | t :: r => inlineHtml t +:+ all r
               end in
  match t with
  | InText raw => escape raw false
  | InStrong ts => "<strong>" +:+ all ts +:+ "</strong>"
  | InEm ts => "<em>" +:+ all ts +:+ "</em>"
  | InCodespan code => "<code>" +:+ escape code true +:+ "</code>"
  | InDel ts => "<del>" +:+ all ts +:+ "</del>"
  | InLink before after ts => before +:+ all ts +:+ after
  | InImage html _ => html
  | InHtml text => text
  | InBr => "<br>"
  end.

(** [parseInline(tokens, textRenderer)]: the methods of the TextRenderer
    return the text they are given, and nothing for a line break. *)
Fixpoint inlineText (t : Inline) : string :=
  let all := fix all (ts : list Inline) : string :=
               match ts with
               | [] => EmptyString
               | t :: r => inlineText t +:+ all r
               end in
  match t with
  | InText raw => escape raw false
  | InStrong ts => all ts
  | InEm ts => all ts
  | InCodespan code => escape code true
  | InDel ts => all ts
  | InLink _ _ ts => all ts
  | InImage _ text => text
  | InHtml text => text
  | InBr => EmptyString
  end.

Definition parseInline (tokens : list Inline) : string :=
  foldr (fun t s => inlineHtml t +:+ s) EmptyString tokens.

Definition parseInlineText (tokens : list Inline) : string :=
  foldr (fun t s => inlineText t +:+ s) EmptyString tokens.

(** A heading token: [{ type: 'heading', depth, text, tokens }]. *)
Record HeadingToken := mkHeadingToken {
  ht_depth : nat;             (* token.depth: the number of # *)
  ht_text : string;           (* token.text: the heading's Markdown source text *)
  ht_tokens : list Inline     (* token.tokens *)
}.

(** The first and the third argument the parser passes to
    [renderer.heading]. *)
Definition ht_html (h : HeadingToken) : string := parseInline (ht_tokens h).

Definition ht_plain (h : HeadingToken) : string :=
  unescape (parseInlineText (ht_tokens h)).

(** The heading token of depth [depth] whose source text is [text] and
    whose inline tokens are [tokens]. *)
Definition headingToken (depth : nat) (text : string) (tokens : list Inline)
  : HeadingToken :=
  mkHeadingToken depth text tokens.

(** [TokContainer]: a token with block children (a blockquote, a list, a
    list item), with the markup its renderer method puts around the parsed
    children.  [TokOther]: a token without block children whose renderer
    method the scripts do not override, with the HTML that method gives. *)
Inductive Token :=
| TokHeading (h : HeadingToken)
| TokCode (text : string) (lang : option string)
| TokContainer (before after : string) (tokens : list Token)
| TokOther (html : string).

(** The two methods the scripts override on [new marked.Renderer()]. *)
Record Renderer := mkRenderer {
  r_heading : string -> nat -> string -> list Heading -> string * list Heading;
  r_code : string -> option string -> string
}.

(** [Parser.parse(tokens)], threading the shared [headings] array. *)
Fixpoint parseToken (R : Renderer) (t : Token) (hs : list Heading)
  : string * list Heading :=
  match t with
  | TokHeading h => r_heading R (ht_html h) (ht_depth h) (ht_plain h) hs
  | TokCode c l => (r_code R c l, hs)
  | TokContainer before after ts =>
      let '(body, hs') :=
        (fix parseAll (ts : list Token) (hs : list Heading) :=
           match ts with
           | [] => (EmptyString, hs)
           | t :: r =>
               let '(o1, h1) := parseToken R t hs in
               let '(o2, h2) := parseAll r h1 in
               (o1 +:+ o2, h2)
           end) ts hs in
      (before +:+ body +:+ after, hs')
  | TokOther html => (html, hs)
  end.

Fixpoint parse (R : Renderer) (ts : list Token) (hs : list Heading)
  : string * list Heading :=
  match ts with
  | [] => (EmptyString, hs)
  | t :: r =>
      let '(o1, h1) := parseToken R t hs in
      let '(o2, h2) := parse R r h1 in
      (o1 +:+ o2, h2)
  end.

(** The heading tokens of a document in document order (pre-order). *)
Fixpoint headingTokensOf (t : Token) : list HeadingToken :=
  match t with
  | TokHeading h => [h]
  | TokContainer _ _ ts =>
      (fix all (ts : list Token) :=
         match ts with
         | [] => []
         | t :: r => headingTokensOf t ++ all r
         end) ts
  | _ => []
  end.

Fixpoint headingTokens (ts : list Token) : list HeadingToken :=
  match ts with
  | [] => []
  | t :: r => headingTokensOf t ++ headingTokens r
  end.

(** ** Failure *)

(** The exceptions a conversion can end with. *)
Inductive Error :=
| TypeError        (* a property read on [undefined] *)
| TimeoutError     (* puppeteer: a wait ran past its timeout *)
| ENOENT           (* fs.readFileSync on a missing file *)
| LaunchError      (* puppeteer.launch rejected *)
| NavigationError. (* page.setContent rejected *)

Inductive Result (A : Type) :=
| Ok (a : A)
| Throw (e : Error).
Arguments Ok {A} a.
Arguments Throw {A} e.

Definition bindR {A B} (r : Result A) (k : A -> Result B) : Result B :=
  match r with
  | Ok a => k a
  | Throw e => Throw e
  end.

Notation "'let*' x ':=' r 'in' k" := (bindR r (fun x => k))
  (at level 10, x pattern, r at level 100, k at level 200).

(** Reading a property of [o], which throws when [o] is [undefined]. *)
Definition defined {A} (o : option A) : Result A :=
  match o with
  | Some a => Ok a
  | None => Throw TypeError
  end.

(** [arr[i]] for a number [i] that holds an integer: [undefined] outside
    the array, in particular at negative indices. *)
Definition jsAt {A} (arr : list A) (i : Z) : option A :=
  if i <? 0 then None else arr !! Z.to_nat i.

(** ** The PDF object graph, as pdf-lib exposes it

    pdf-lib is a dependency.  A [PDFContext] numbers indirect objects:
    [nextRef] increments [largestObjectNumber] and returns a reference to
    it, [assign] stores an object under a reference.  [context.obj] turns
    a JavaScript literal into a PDF object: a string into a name
    ([PDFName.of]), a number into a number, [null] into the null object,
    an array into an array, an object literal into a dictionary that
    skips the keys whose value is [undefined]; a PDF object is returned
    as it is. *)

(** [PDFString]: a string object (literal or hexadecimal), by its text.
    [PDFDate]: the date string [PDFString.fromDate(new Date())] of the
    moment of the call; the moment itself is not modelled. *)
Inductive PDFObject :=
| PDFNull
| PDFName (s : string)
| PDFNumber (x : Q)
| PDFRef (objectNumber : nat)
| PDFArray (items : list PDFObject)
| PDFDict (entries : gmap string PDFObject)
| PDFString (s : string)
| PDFDate.

Record PDFPage := mkPage {
  pg_ref : nat;         (* page.ref *)
  pg_height : Q;        (* page.getHeight() *)
  pg_content : string   (* the page's content stream *)
}.

(** A [PDFDocument]: its context (the number of the largest object, the
    indirect objects other than those of the page tree, and the
    reference [trailerInfo.Info] to the information dictionary, when the
    trailer has one), its catalog dictionary and the page array
    [getPages()] returns.  A PDF buffer is identified with the object
    graph that is parsed from its bytes and serialized into them; the
    buffers are not encrypted. *)
Record PDFDocument := mkDoc {
  largestObjectNumber : nat;
  indirectObjects : gmap nat PDFObject;
  catalog : gmap string PDFObject;
  pages : list PDFPage;
  trailerInfo : option nat
}.

Definition nextRef (d : PDFDocument) : nat * PDFDocument :=
  let n := S (largestObjectNumber d) in
  (n, mkDoc n (indirectObjects d) (catalog d) (pages d) (trailerInfo d)).

Definition assign (ref : nat) (o : PDFObject) (d : PDFDocument) : PDFDocument :=
  mkDoc (Nat.max ref (largestObjectNumber d))
        (<[ref := o]> (indirectObjects d)) (catalog d) (pages d)
        (trailerInfo d).

Definition catalogSet (k : string) (o : PDFObject) (d : PDFDocument)
  : PDFDocument :=
  mkDoc (largestObjectNumber d) (indirectObjects d)
        (<[k := o]> (catalog d)) (pages d) (trailerInfo d).

(** [context.register(object)]: [nextRef] and [assign]. *)
Definition register (o : PDFObject) (d : PDFDocument) : nat * PDFDocument :=
  let '(ref, d) := nextRef d in
  (ref, assign ref o d).

(** [dict.set(key, value)] on the dictionary stored under [ref]: the
    dictionary is changed in place. *)
Definition dictSet (ref : nat) (key : string) (value : PDFObject)
    (d : PDFDocument) : PDFDocument :=
  match indirectObjects d !! ref with
  | Some (PDFDict entries) =>
      mkDoc (largestObjectNumber d)
            (<[ref := PDFDict (<[key := value]> entries)]> (indirectObjects d))
            (catalog d) (pages d) (trailerInfo d)
  | _ => d
  end.

(** [getInfoDict()]: the dictionary the trailer's [Info] refers to, or
    else a new empty dictionary, registered and entered in the
    trailer. *)
Definition getInfoDict (d : PDFDocument) : nat * PDFDocument :=
  let existingInfo :=
    match trailerInfo d with
    | Some ref =>
        match indirectObjects d !! ref with
        | Some (PDFDict _) => Some ref
        | _ => None
        end
    | None => None
    end in
  match existingInfo with
  | Some ref => (ref, d)
  | None =>
      let '(ref, d) := register (PDFDict ∅) d in
      (ref, mkDoc (largestObjectNumber d) (indirectObjects d) (catalog d)
              (pages d) (Some ref))
  end.

(** [setProducer], [setCreator], [setModificationDate] and
    [setCreationDate]: each sets one key of [getInfoDict()]. *)
Definition infoSet (key : string) (value : PDFObject) (d : PDFDocument)
  : PDFDocument :=
  let '(info, d) := getInfoDict d in
  dictSet info key value d.

(** [info.get(PDFName.of(key))] is not [undefined]. *)
Definition infoHas (info : nat) (key : string) (d : PDFDocument) : bool :=
  match indirectObjects d !! info with
  | Some (PDFDict entries) => bool_decide (is_Some (entries !! key))
  | _ => false
  end.

Definition pdfLib : string := "pdf-lib (https://github.com/Hopding/pdf-lib)".

(** [updateInfoDict()], which the constructor of [PDFDocument] runs
    when [load] is called without the option [updateMetadata: false]. *)
Definition updateInfoDict (d : PDFDocument) : PDFDocument :=
  let '(info, d) := getInfoDict d in
  let d := infoSet "Producer" (PDFString pdfLib) d in
  let d := infoSet "ModDate" PDFDate d in
  let d := if infoHas info "Creator" d then d
           else infoSet "Creator" (PDFString pdfLib) d in
  if infoHas info "CreationDate" d then d
  else infoSet "CreationDate" PDFDate d.

(** [PDFDocument.load(pdfBuffer)] *)
Definition load (pdfBuffer : PDFDocument) : PDFDocument :=
  updateInfoDict pdfBuffer.

(** [addPage()] without argument: a blank A4 page (595.28 by 841.89
    points), registered under a new reference and appended to the page
    tree. *)
Definition addPage (d : PDFDocument) : PDFDocument :=
  let '(ref, d) := nextRef d in
  mkDoc (largestObjectNumber d) (indirectObjects d) (catalog d)
        (pages d ++ [mkPage ref (84189 # 100) EmptyString]) (trailerInfo d).

(** [pdfDoc.save()]: a document without pages gets a default page;
    the scripts embed no font or image and fill no form. *)
Definition save (d : PDFDocument) : PDFDocument :=
  if (length (pages d) =? 0)%nat then addPage d else d.

(** [decodeName] of [PDFName.of]: [name.replace(/#([\dABCDEF]{2})/g, ...)]
    puts the character of the code in the place of a number sign followed
    by two hexadecimal digits (the letters in upper case). *)
Definition isUpperHexDigit (c : ascii) : bool :=
  let n := nat_of_ascii c in
  ((48 <=? n) && (n <=? 57) || (65 <=? n) && (n <=? 70))%nat.

Fixpoint decodeName (name : string) : string :=
  match name with
  | EmptyString => EmptyString
  | String c r =>
      match r with
      | String a (String b rest) =>
          if Ascii.eqb c "#" && isUpperHexDigit a && isUpperHexDigit b
          then String (ascii_of_N (16 * digitValue a + digitValue b))
                 (decodeName rest)
          else String c (decodeName r)
      | _ => String c (decodeName r)
      end
  end.

(** [context.obj(name)] for a string: [PDFName.of(name)], the name whose
    value is the decoded text.  The literals of the scripts ([Outlines],
    [XYZ] and the keys) hold no number sign and are written as they
    are. *)
Definition PDFName_of (name : string) : PDFObject := PDFName (decodeName name).

(** [context.obj] of an object literal: [dict.set] for the keys in order,
    a key whose value is [undefined] left out. *)
Definition objDict (fields : list (string * option PDFObject))
  : gmap string PDFObject :=
  foldl (fun dict kv =>
           match snd kv with
           | Some v => <[fst kv := v]> dict
           | None => dict
           end) ∅ fields.

(** [bookmarks.map(() => context.nextRef())], for [n] bookmarks. *)
Fixpoint nextRefs (n : nat) (d : PDFDocument) : list nat * PDFDocument :=
  match n with
  | O => ([], d)
  | S k =>
      let '(r, d1) := nextRef d in
      let '(rs, d2) := nextRefs k d1 in
      (r :: rs, d2)
  end.

(** [for (let i = start; ...; i++) body], with [n] iterations left. *)
Fixpoint forLoop (n i : nat) (body : nat -> PDFDocument -> Result PDFDocument)
    (d : PDFDocument) : Result PDFDocument :=
  match n with
  | O => Ok d
  | S k => let* d' := body i d in forLoop k (S i) body d'
  end.

(** One element of [bookmarkData]: [{ title, level, top }]. *)
Record Bookmark := mkBookmark {
  bm_title : string;
  bm_level : nat;
  bm_top : Q
}.

(** What a path of the file system holds. *)
Inductive File :=
| FText (s : string)
| FPdf (d : PDFDocument).

Section Outline.

(** The index expression inside [pages[...]], which is where the two
    scripts differ. *)
Variable pageIdx : Q -> list PDFPage -> Z.

(** The body of the [for] loop of [addBookmarksToPdf]. *)
Definition itemBody (pages : list PDFPage) (pageHeight : Q)
    (outlineRef : nat) (itemRefs : list nat) (bookmarks : list Bookmark)
    (i : nat) (d : PDFDocument) : Result PDFDocument :=
  let* bookmark := defined (bookmarks !! i) in
  let* page := defined (jsAt pages (pageIdx (bm_top bookmark) pages)) in
  let itemDict :=
    [ ("Title", Some (PDFName_of (bm_title bookmark)));
      ("Parent", Some (PDFRef outlineRef));
      ("Dest", Some (PDFArray [PDFRef (pg_ref page); PDFName "XYZ"; PDFNull;
                               PDFNumber pageHeight; PDFNull]));
      ("Prev", if (0 <? i)%nat then PDFRef <$> itemRefs !! (i - 1)%nat
               else None);
      ("Next", if (i <? length bookmarks - 1)%nat
               then PDFRef <$> itemRefs !! (i + 1)%nat else None) ] in
  let* ref := defined (itemRefs !! i) in
  Ok (assign ref (PDFDict (objDict itemDict)) d).

(** [addBookmarksToPdf] between [PDFDocument.load] and [pdfDoc.save()],
    on the loaded document. *)
Definition addBookmarks (pdfDoc : PDFDocument) (bookmarks : list Bookmark)
  : Result PDFDocument :=
  let pages := pages pdfDoc in
  if (length bookmarks =? 0)%nat then Ok pdfDoc
  else
    let* page0 := defined (pages !! 0%nat) in
    let pageHeight := pg_height page0 in
    let '(outlineRef, d1) := nextRef pdfDoc in
    let outlineDict : gmap string PDFObject :=
      objDict [("Type", Some (PDFName "Outlines"))] in
    let '(itemRefs, d2) := nextRefs (length bookmarks) d1 in
    let* d3 := forLoop (length bookmarks) 0
                 (itemBody pages pageHeight outlineRef itemRefs bookmarks) d2 in
    let* first := defined (itemRefs !! 0%nat) in
    let outlineDict := <["First" := PDFRef first]> outlineDict in
    let* last := defined (itemRefs !! (length itemRefs - 1)%nat) in
    let outlineDict := <["Last" := PDFRef last]> outlineDict in
    let outlineDict :=
      <["Count" := PDFNumber (inject_Z (Z.of_nat (length bookmarks)))]>
        outlineDict in
    let d4 := assign outlineRef (PDFDict outlineDict) d3 in
    Ok (catalogSet "Outlines" (PDFRef outlineRef) d4).

(** [addBookmarksToPdf(pdfBuffer, outputPath, bookmarks)]: the file
    system after [fs.writeFileSync(outputPath, await pdfDoc.save())]. *)
Definition addBookmarksToPdfWith (pdfBuffer : PDFDocument)
    (outputPath : string) (bookmarks : list Bookmark)
    (fs : gmap string File) : Result (gmap string File) :=
  let pdfDoc := load pdfBuffer in
  let* pdfDoc := addBookmarks pdfDoc bookmarks in
  let pdfBytes := save pdfDoc in
  Ok (<[outputPath := FPdf pdfBytes]> fs).

End Outline.

(** ** The rendering engine, as the scripts drive it

    puppeteer and the browser are dependencies.  One run of a page is
    described by what the script observes of it. *)

(** An element that carries an [id] attribute, with the document-relative
    offset the script measures for it:
    [window.scrollY + element.getBoundingClientRect().top]. *)
Record Element := mkElement {
  el_id : string;
  el_top : Q
}.

Record PageRun := mkPageRun {
  pr_loaded : bool;         (* page.setContent(html, ...) resolves *)
  pr_ready : nat -> bool;   (* the awaited in-page condition, at millisecond
                               [t] of the wait *)
  pr_dom : list Element;    (* the elements with an id, in tree order *)
  pr_pdf : PDFDocument      (* the buffer page.pdf(...) resolves to *)
}.

Record Puppeteer := mkPuppeteer {
  pp_launch : bool;                (* puppeteer.launch resolves *)
  pp_page : string -> PageRun      (* the page run for a given HTML *)
}.

(** [page.waitForSelector] and [page.waitForFunction] with [{ timeout }]:
    the condition is polled until it holds; once [timeout] milliseconds
    have passed without it the promise rejects with a [TimeoutError].
    [budget] is the time left, [t] the time elapsed. *)
Fixpoint poll (cond : nat -> bool) (t budget : nat) : Result unit :=
  if cond t then Ok tt
  else match budget with
       | O => Throw TimeoutError
       | S b => poll cond (S t) b
       end.

Definition waitFor (cond : nat -> bool) (timeout : N) : Result unit :=
  poll cond 0 (N.to_nat timeout).

(** [document.getElementById(id)]: the first element in tree order whose
    id is [id]; an empty id names no element. *)
Definition getElementById (dom : list Element) (id : string) : option Element :=
  if String.eqb id "" then None
  else List.find (fun e => String.eqb (el_id e) id) dom.

(** The loop [for (const heading of headings)] that fills [bookmarkData]. *)
Fixpoint collectBookmarks (dom : list Element) (headings : list Heading)
    (bookmarkData : list Bookmark) : list Bookmark :=
  match headings with
  | [] => bookmarkData
  | heading :: rest =>
      match getElementById dom (hd_id heading) with
      | Some position =>
          collectBookmarks dom rest
            (bookmarkData ++
               [mkBookmark (hd_text heading) (hd_level heading) (el_top position)])
      | None => collectBookmarks dom rest bookmarkData
      end
  end.

(** The state of the Node process that outlives one call of [mdToPdf]: the
    module-level array [headings] and the file system. *)
Record Process := mkProcess {
  headings : list Heading;
  files : gmap string File
}.

(** [headings.length = 0] *)
Definition resetHeadings (p : Process) : Process := mkProcess [] (files p).

Definition setHeadings (hs : list Heading) (p : Process) : Process :=
  mkProcess hs (files p).

Definition setFiles (fs : gmap string File) (p : Process) : Process :=
  mkProcess (headings p) fs.

Section Conversion.

(** Dependencies of [mdToPdf] that are left abstract: marked's lexer,
    [path.basename], the text read from a path that holds a PDF, and the
    HTML template the script interpolates the title and the rendered
    body into. *)
Variable lexer : string -> list Token.
Variable basename : string -> string -> string.
Variable pdfText : PDFDocument -> string.
Variable template : string -> string -> string.

(** Where the two scripts differ. *)
Variable renderer : Renderer.
Variable timeout : N.
Variable addBookmarksToPdf :
  PDFDocument -> string -> list Bookmark -> gmap string File ->
  Result (gmap string File).

Variable browser : Puppeteer.

(** [fs.readFileSync(inputFile, "utf-8")] *)
Definition readFileSync (fs : gmap string File) (path : string)
  : Result string :=
  match fs !! path with
  | Some (FText s) => Ok s
  | Some (FPdf d) => Ok (pdfText d)
  | None => Throw ENOENT
  end.

(** [mdToPdf] after [marked.parse]: from the browser launch to the write
    of the output file.  [p] already holds the captured headings. *)
Definition renderAndWrite (html outputFile : string) (p : Process)
  : Result unit * Process :=
  if negb (pp_launch browser) then (Throw LaunchError, p)
  else
    let page := pp_page browser html in
    if negb (pr_loaded page) then (Throw NavigationError, p)
    else
      match waitFor (pr_ready page) timeout with
      | Throw e => (Throw e, p)
      | Ok _ =>
          let bookmarkData := collectBookmarks (pr_dom page) (headings p) [] in
          let pdfBuffer := pr_pdf page in
          if (0 <? length bookmarkData)%nat then
            match addBookmarksToPdf pdfBuffer outputFile bookmarkData (files p) with
            | Ok fs => (Ok tt, setFiles fs p)
            | Throw e => (Throw e, p)
            end
          else (Ok tt, setFiles (<[outputFile := FPdf pdfBuffer]> (files p)) p)
      end.

(** [mdToPdf(inputFile, outputFile, title)] *)
Definition mdToPdfWith (inputFile outputFile : string) (title : option string)
    (p : Process) : Result unit * Process :=
  match readFileSync (files p) inputFile with
  | Throw e => (Throw e, p)
  | Ok markdown =>
      let p := resetHeadings p in
      let '(htmlContent, hs) := parse renderer (lexer markdown) (headings p) in
      let p := setHeadings hs p in
      let documentTitle := orDefault title (basename inputFile ".md") in
      let html := template documentTitle htmlContent in
      renderAndWrite html outputFile p
  end.

End Conversion.

(** ** JavaScript numbers: the division of doubles

    [x / y] on two doubles is the double nearest to the exact quotient,
    the one with the even significand of two at the same distance (IEEE
    754 binary64: 53 significant bits; exponents from -1022 on, below
    which the spacing stays at that of the least binade).  The quotient of
    an offset by a page height is far below the largest double: overflow
    is not modelled. *)

(** The integer nearest to [q], the even one of two at the same
    distance. *)
Definition roundHalfEven (q : Q) : Z :=
  let f := Qfloor q in
  match (q - inject_Z f ?= 1 # 2)%Q with
  | Lt => f
  | Gt => f + 1
  | Eq => if Z.even f then f else f + 1
  end.

(** For [0 < x], the exponent [e] of its binade: [2^e <= x < 2^(e+1)]. *)
Definition binade (x : Q) : Z :=
  let e := Z.log2 (Qnum x) - Z.log2 (Zpos (Qden x)) in
  if Qle_bool (2 ^ e) x then e else e - 1.

(** The spacing of the doubles around [x], for [0 < x]. *)
Definition ulp (x : Q) : Q := (2 ^ (Z.max (binade x) (-1022) - 52))%Q.

(** The double nearest to [x], for [0 < x]. *)
Definition roundPositive (x : Q) : Q :=
  (inject_Z (roundHalfEven (x / ulp x)) * ulp x)%Q.

(** The double nearest to [x]. *)
Definition roundDouble (x : Q) : Q :=
  match (x ?= 0)%Q with
  | Eq => 0%Q
  | Gt => roundPositive x
  | Lt => (- roundPositive (- x))%Q
  end.

(** [x] is the value of a double. *)
Definition isDouble (x : Q) : Prop := (roundDouble x == x)%Q.

(** ** The two scripts *)

Module Server.

(** [renderer.heading] of src/server/md2pdf-converter.js, lines 18-22.
    The push onto the shared array is the second component. *)
Definition heading (text : string) (level : nat) (raw : string)
    (headings : list Heading) : string * list Heading :=
  let id := anchorId raw in
  ("<h" +:+ pretty level +:+ " id=" +:+ dq +:+ id +:+ dq +:+ ">" +:+ text
     +:+ "</h" +:+ pretty level +:+ ">",
   headings ++ [mkHeading level raw id]).

(** [renderer.code], lines 25-29: the code is interpolated as it is. *)
Definition code (code : string) (language : option string) : string :=
  let lang := orDefault language "plaintext" in
  let validLang := toLowerCase lang in
  "<pre><code class=" +:+ dq +:+ "language-" +:+ validLang +:+ dq +:+ ">"
    +:+ code +:+ "</code></pre>".


Definition renderer : Renderer := mkRenderer heading code.

(** [Math.floor(bookmark.top / 900)], line 57.  The quotient is the exact
    one: for an offset that is 0 or a double of a magnitude from 2^-1000
    to 2^53, its floor is the floor of the quotient of the doubles (lemma
    [floor_of_double_quotient]); other offsets are outside the model. *)
Definition pageNum (top : Q) : Z := Qfloor (top / 900).

(** The index in [pages[Math.min(pageNum, pages.length - 1)]], line 58. *)
Definition pageIdx (top : Q) (pages : list PDFPage) : Z :=
  Z.min (pageNum top) (Z.of_nat (length pages) - 1).

(** [addBookmarksToPdf], lines 33-91. *)
Definition addBookmarksToPdf := addBookmarksToPdfWith pageIdx.

(** [page.waitForSelector('body.render-complete', { timeout: 30000 })],
    line 425. *)
Definition timeout : N := 30000.

(** [mdToPdf], lines 93-483. *)
Definition mdToPdf lexer basename pdfText template browser :=
  mdToPdfWith lexer basename pdfText template renderer timeout
    addBookmarksToPdf browser.

End Server.

Module Part002.

(** [renderer.heading] of src/unnamed/part_002, lines 19-24. *)
Definition heading (text : string) (level : nat) (raw : string)
    (headings : list Heading) : string * list Heading :=
  let id := anchorId raw in
  ("<h" +:+ pretty level +:+ " id=" +:+ dq +:+ id +:+ dq
     +:+ " class=" +:+ dq +:+ "section-heading level-" +:+ pretty level
     +:+ dq +:+ ">" +:+ text +:+ "</h" +:+ pretty level +:+ ">",
   headings ++ [mkHeading level raw id]).

(** The object literal [map] of [renderer.code], lines 31-37, in the
    order its keys are written. *)
Definition map : list (ascii * string) :=
  [ ("&"%char, "&amp;"); ("<"%char, "&lt;"); (">"%char, "&gt;");
    (dquote, "&quot;"); ("'"%char, "&#39;") ].

(** [map[char]]; a missing key reads [undefined], which [replace] would
    insert as the text [undefined]. *)
Definition mapAt (char : ascii) : string :=
  match List.find (fun kv => Ascii.eqb (fst kv) char) map with
  | Some kv => snd kv
  | None => "undefined"
  end.

(** The character class of the regular expression: ampersand, less-than,
    greater-than, double quote, apostrophe. *)
Definition sensitive (c : ascii) : bool :=
  Ascii.eqb c "&" || Ascii.eqb c "<" || Ascii.eqb c ">"
  || Ascii.eqb c dquote || Ascii.eqb c "'".

(** [code.replace(/[...]/g, (char) => map[char])], line 40. *)
Definition escapeCode (code : string) : string :=
  replaceClass sensitive mapAt code.

(** [renderer.code], lines 26-43. *)
Definition code (code : string) (language : option string) : string :=
  let lang := orDefault language "plaintext" in
  let validLang := toLowerCase lang in
  let escapedCode := escapeCode code in
  "<pre><code class=" +:+ dq +:+ "language-" +:+ validLang +:+ dq +:+ ">"
    +:+ escapedCode +:+ "</code></pre>".


Definition renderer : Renderer := mkRenderer heading code.

(** [Math.floor(bookmark.top / 841.89)], line 228: the literal denotes the
    double nearest to 841.89, and the quotient of the two doubles is
    rounded to a double before its floor is taken. *)
Definition pageNum (top : Q) : Z :=
  Qfloor (roundDouble (top / roundDouble (84189 # 100))).

(** [Math.min(Math.max(0, pageNum), pages.length - 1)], line 230. *)
Definition targetPageIdx (top : Q) (pages : list PDFPage) : Z :=
  Z.min (Z.max 0 (pageNum top)) (Z.of_nat (length pages) - 1).

(** [addBookmarksToPdf], lines 211-253. *)
Definition addBookmarksToPdf := addBookmarksToPdfWith targetPageIdx.

(** [page.waitForFunction(..., { timeout: 60000 })], line 342. *)
Definition timeout : N := 60000.

(** [mdToPdf], lines 256-395. *)
Definition mdToPdf lexer basename pdfText template browser :=
  mdToPdfWith lexer basename pdfText template renderer timeout
    addBookmarksToPdf browser.

End Part002.

(** ** Reference definitions the code is compared with *)

(** The entity the HTML escape of one character is expected to be. *)
Definition escapeChar (c : ascii) : string :=
  if Ascii.eqb c "&" then "&amp;"
  else if Ascii.eqb c "<" then "&lt;"
  else if Ascii.eqb c ">" then "&gt;"
  else if Ascii.eqb c dquote then "&quot;"
  else if Ascii.eqb c "'" then "&#39;"
  else String c "".

(** Character-by-character escape: the reference for the single pass. *)
Fixpoint escapeHtml (s : string) : string :=
  match s with
  | EmptyString => EmptyString
  | String c r => escapeChar c +:+ escapeHtml r
  end.

(** [stripPrefix p s] is what follows [p] in [s], when [s] starts with [p]. *)
Fixpoint stripPrefix (p s : string) : option string :=
  match p, s with
  | EmptyString, _ => Some s
  | String a p', String b s' => if Ascii.eqb a b then stripPrefix p' s' else None
  | String _ _, EmptyString => None
  end.

(** Decoding of the five entities, one pass from the left: what a browser
    does with the text of the [code] element. *)
Fixpoint decodeEntities (fuel : nat) (s : string) : string :=
  match fuel with
  | O => s
  | S fuel' =>
      match s with
      | EmptyString => EmptyString
      | String c r =>
          match stripPrefix "&amp;" s, stripPrefix "&lt;" s,
                stripPrefix "&gt;" s, stripPrefix "&quot;" s,
                stripPrefix "&#39;" s with
          | Some t, _, _, _, _ => String "&" (decodeEntities fuel' t)
          | _, Some t, _, _, _ => String "<" (decodeEntities fuel' t)
          | _, _, Some t, _, _ => String ">" (decodeEntities fuel' t)
          | _, _, _, Some t, _ => String dquote (decodeEntities fuel' t)
          | _, _, _, _, Some t => String "'" (decodeEntities fuel' t)
          | _, _, _, _, _ => String c (decodeEntities fuel' r)
          end
      end
  end.


(** [x] brought into the range from [lo] to [hi]. *)
Definition clamp (lo hi x : Z) : Z :=
  if x <? lo then lo else if hi <? x then hi else x.

(** The locator as the specification words it:
    [floor(verticalOffsetPx / pageHeightPx)] clamped to
    [0 .. pageCount - 1]. *)
Definition locateSpec (verticalOffsetPx pageHeightPx : Q) (pageCount : nat) : Z :=
  clamp 0 (Z.of_nat pageCount - 1) (Qfloor (verticalOffsetPx / pageHeightPx)).

(** An A4 page, 841.89 points high. *)
Definition a4Page (ref : nat) : PDFPage := mkPage ref (84189 # 100) "".

(** A document of one A4 page, as the browser prints it: objects up to
    number 10, the page under reference 4, the information dictionary
    under reference 2, no outline. *)
Definition onePageDoc : PDFDocument :=
  mkDoc 10
    {[2%nat := PDFDict {["Creator" := PDFString "Chromium";
                         "Producer" := PDFString "Skia/PDF m120";
                         "CreationDate" := PDFString "D:20240101000000+00'00'";
                         "ModDate" := PDFString "D:20240101000000+00'00'"]}]}
    {["Type" := PDFName "Catalog"]} [a4Page 4] (Some 2%nat).

(** ** Reading an outline back from the object graph *)

(** The dictionary stored under a reference. *)
Definition dictAt (d : PDFDocument) (ref : nat) : option (gmap string PDFObject) :=
  match indirectObjects d !! ref with
  | Some (PDFDict e) => Some e
  | _ => None
  end.

(** The value of [key] in the dictionary stored under [ref]. *)
Definition entry (d : PDFDocument) (ref : nat) (key : string) : option PDFObject :=
  match dictAt d ref with
  | Some e => e !! key
  | None => None
  end.

(** The sibling chain a viewer walks: from [ref] along the [Next] links,
    for at most [fuel] nodes. *)
Fixpoint chain (d : PDFDocument) (fuel : nat) (ref : nat) : list nat :=
  match fuel with
  | O => []
  | S fuel' =>
      ref :: match entry d ref "Next" with
             | Some (PDFRef next) => chain d fuel' next
             | _ => []
             end
  end.

(** [d] carries the flat outline whose root is stored under [root], whose
    nodes are stored under [nodes], in this order, and whose titles are
    [titles]. *)
Record IsOutline (d : PDFDocument) (root : nat) (nodes : list nat)
    (titles : list string) : Prop := mkIsOutline {
  ol_catalog : catalog d !! "Outlines" = Some (PDFRef root);
  ol_type : entry d root "Type" = Some (PDFName "Outlines");
  ol_count : entry d root "Count"
             = Some (PDFNumber (inject_Z (Z.of_nat (length nodes))));
  ol_first : entry d root "First" = PDFRef <$> nodes !! 0%nat;
  ol_last : entry d root "Last" = PDFRef <$> nodes !! (length nodes - 1)%nat;
  ol_parent : forall i r, nodes !! i = Some r ->
              entry d r "Parent" = Some (PDFRef root);
  ol_prev : forall i r, nodes !! i = Some r ->
            entry d r "Prev" = match i with
                               | O => None
                               | S j => PDFRef <$> nodes !! j
                               end;
  ol_next : forall i r, nodes !! i = Some r ->
            entry d r "Next" = PDFRef <$> nodes !! S i;
  ol_title : forall i r, nodes !! i = Some r ->
             entry d r "Title" = PDFName <$> titles !! i;
  ol_distinct : NoDup (root :: nodes)
}.

(** ** What loading does to a document *)

(** The information dictionary of [d]: the dictionary the trailer's
    [Info] refers to. *)
Definition infoDict (d : PDFDocument) : option (gmap string PDFObject) :=
  match trailerInfo d with
  | Some ref => dictAt d ref
  | None => None
  end.

Definition infoEntries (d : PDFDocument) : gmap string PDFObject :=
  match infoDict d with
  | Some entries => entries
  | None => ∅
  end.

(** The information dictionary as [PDFDocument.load] leaves it:
    [Producer] and [ModDate] are overwritten, [Creator] and
    [CreationDate] are set when they are missing. *)
Definition loadedInfo (entries : gmap string PDFObject)
  : gmap string PDFObject :=
  let e := <["ModDate" := PDFDate]> (<["Producer" := (PDFString pdfLib)]> entries) in
  let e := match entries !! "Creator" with
           | Some _ => e
           | None => <["Creator" := (PDFString pdfLib)]> e
           end in
  match entries !! "CreationDate" with
  | Some _ => e
  | None => <["CreationDate" := PDFDate]> e
  end.

(** [d'] is the document of the buffer [d] with the flat outline
    attached, as pdf-lib writes it: the outline of [IsOutline] under
    references that are new; the pages of [d]; the catalog of [d] with
    the [Outlines] key; the information dictionary as loading leaves it;
    and every other object as it is in [d]. *)
Record Attached (d d' : PDFDocument) (root : nat) (nodes : list nat)
    (titles : list string) : Prop := mkAttached {
  at_outline : IsOutline d' root nodes titles;
  at_pages : pages d' = pages d;
  at_catalog : catalog d' = <["Outlines" := PDFRef root]> (catalog d);
  at_new : Forall (fun r => (largestObjectNumber d < r)%nat) (root :: nodes);
  at_info : exists info,
              trailerInfo d' = Some info /\ (info ∉ root :: nodes)
              /\ dictAt d' info = Some (loadedInfo (infoEntries d));
  at_frame : forall k, k ∉ root :: nodes -> trailerInfo d' <> Some k ->
               indirectObjects d' !! k = indirectObjects d !! k
}.

(** [d] with the dictionary [entries] stored under [ref] as its
    information dictionary. *)
Definition withInfo (ref : nat) (entries : gmap string PDFObject)
    (d : PDFDocument) : PDFDocument :=
  mkDoc (largestObjectNumber d)
        (<[ref := PDFDict entries]> (indirectObjects d))
        (catalog d) (pages d) (Some ref).

(** The invariant [assign] keeps in a context, which a parsed document
    has: no object is numbered above [largestObjectNumber]. *)
Definition wellNumbered (d : PDFDocument) : Prop :=
  map_Forall (fun k _ => (k <= largestObjectNumber d)%nat) (indirectObjects d).

(** The record [renderer.heading] pushes for a heading token. *)
Definition captured (h : HeadingToken) : Heading :=
  mkHeading (ht_depth h) (ht_plain h) (anchorId (ht_plain h)).

(** The bookmark a heading gives, when its anchor is found. *)
Definition bookmarkOf (dom : list Element) (h : Heading) : option Bookmark :=
  match getElementById dom (hd_id h) with
  | Some position => Some (mkBookmark (hd_text h) (hd_level h) (el_top position))
  | None => None
  end.

(** ** Reading a title against the source text *)

(** [s] without its characters of the class. *)
Fixpoint without (cls : ascii -> bool) (s : string) : string :=
  match s with
  | EmptyString => EmptyString
  | String c r => if cls c then without cls r else String c (without cls r)
  end.


Definition hasChar (c : ascii) (s : string) : bool :=
  existsb (Ascii.eqb c) (list_ascii_of_string s).

(** ** A small environment for the examples *)

(** The token marked gives for the one-line document [# **Bold** title]:
    a heading of depth 1 whose inline content is a strong span followed
    by text. *)
Definition boldHeading : HeadingToken :=
  headingToken 1 "**Bold** title" [InStrong [InText "Bold"]; InText " title"].

Definition notesSource : string := "# Notes" +:+ nl +:+ nl +:+ "## Notes".

Definition notesTokens : list Token :=
  [TokHeading (headingToken 1 "Notes" [InText "Notes"]);
   TokHeading (headingToken 2 "Notes" [InText "Notes"])].

Definition sampleLexer (markdown : string) : list Token :=
  if String.eqb markdown "# **Bold** title" then [TokHeading boldHeading]
  else if String.eqb markdown notesSource then notesTokens
  else [TokOther ("<p>" +:+ markdown +:+ "</p>")].

Definition sampleBasename (path ext : string) : string := path.
Definition samplePdfText (d : PDFDocument) : string := "%PDF".
Definition sampleTemplate (documentTitle htmlContent : string) : string :=
  "<title>" +:+ documentTitle +:+ "</title><article>" +:+ htmlContent
    +:+ "</article>".

(** A page whose render-complete condition never becomes true. *)
Definition hungBrowser : Puppeteer :=
  mkPuppeteer true (fun _ => mkPageRun true (fun _ => false) [] onePageDoc).

(** A process with two Markdown files and no captured heading. *)
Definition sampleProcess : Process :=
  mkProcess [] {["bold.md" := FText "# **Bold** title";
                 "notes.md" := FText notesSource]}.

(** A page that is ready five milliseconds into the wait, with the two
    heading elements of [notesSource] at the offsets 100 and 900, printed
    on one A4 page. *)
Definition readyBrowser : Puppeteer :=
  mkPuppeteer true
    (fun _ => mkPageRun true (fun t => (5 <=? t)%nat)
                [mkElement "notes" 100; mkElement "notes" 900] onePageDoc).


(** ** File names: src/server/server.js, src/client/src/file-handler.js
    and the App class of src/unnamed/part_001 *)

(** [\s] of a JavaScript regular expression, which is also the white
    space that [trim] strips; on ASCII text: tab, line feed, vertical tab,
    form feed, carriage return and space. *)
Definition isSpace (c : ascii) : bool :=
  let n := nat_of_ascii c in
  ((9 <=? n) && (n <=? 13) || (n =? 32))%nat.

(** The class of the first [replace] of [sanitizeFilename]: less-than,
    greater-than, colon, double quote, slash, backslash, bar, question
    mark, star. *)
Definition reserved (c : ascii) : bool :=
  Ascii.eqb c "<" || Ascii.eqb c ">" || Ascii.eqb c ":" || Ascii.eqb c dquote
  || Ascii.eqb c "/" || Ascii.eqb c "\" || Ascii.eqb c "|" || Ascii.eqb c "?"
  || Ascii.eqb c "*".

Definition isDot (c : ascii) : bool := Ascii.eqb c ".".

(** [s.replace(/[...]+/g, r)] for a class of characters and a replacement
    of one character: every maximal run of characters of the class
    becomes one [r]; replacement text is not scanned again.  [inRun]
    records that the previous character belonged to the run being
    replaced. *)
Fixpoint replaceRuns (cls : ascii -> bool) (r : ascii) (inRun : bool)
    (s : string) : string :=
  match s with
  | EmptyString => EmptyString
  | String c rest =>
      if cls c then
        if inRun then replaceRuns cls r true rest
        else String r (replaceRuns cls r true rest)
      else String c (replaceRuns cls r false rest)
  end.

(** [s.trimStart()], [s.trimEnd()] and [s.trim()]. *)
Fixpoint trimStart (s : string) : string :=
  match s with
  | EmptyString => EmptyString
  | String c rest => if isSpace c then trimStart rest else s
  end.

Fixpoint trimEnd (s : string) : string :=
  match s with
  | EmptyString => EmptyString
  | String c rest =>
      match trimEnd rest with
      | EmptyString => if isSpace c then EmptyString else String c EmptyString
      | kept => String c kept
      end
  end.

Definition trim (s : string) : string := trimEnd (trimStart s).

(** [sanitizeFilename], src/server/server.js, lines 279-286. *)
Definition sanitizeFilename (filename : string) : string :=
  trim
    (substring 0 255
       (replaceRuns isDot "." false
          (replaceRuns isSpace "_" false
             (replaceClass reserved (fun _ => "_") filename)))).

(** The text before [trim] in [sanitizeFilename]. *)
Definition sanitizedCore (filename : string) : string :=
  substring 0 255
    (replaceRuns isDot "." false
       (replaceRuns isSpace "_" false
          (replaceClass reserved (fun _ => "_") filename))).

(** What a sanitized name is free of: no reserved character, no white
    space, no two dots in a row, at most 255 characters. *)
Fixpoint noDotDot (s : string) : bool :=
  match s with
  | String "." (String "." _) => false
  | String _ rest => noDotDot rest
  | EmptyString => true
  end.

Definition startsWithDot (s : string) : bool :=
  match s with
  | String c _ => isDot c
  | EmptyString => false
  end.

Definition plainChar (c : ascii) : bool := negb (reserved c) && negb (isSpace c).

Definition isSanitized (s : string) : bool :=
  forallb plainChar (list_ascii_of_string s) && noDotDot s
  && (String.length s <=? 255)%nat.

(** [s.endsWith(suffix)] *)
Definition endsWith (suffix s : string) : bool :=
  (String.length suffix <=? String.length s)%nat
  && String.eqb
       (substring (String.length s - String.length suffix)
          (String.length suffix) s) suffix.

(** Equality of two texts under the [i] flag of a regular expression
    without the [u] flag: ASCII letters match in either case, and no
    character outside ASCII matches an ASCII letter. *)
Definition eqbIgnoreCase (a b : string) : bool :=
  String.eqb (toLowerCase a) (toLowerCase b).

(** A regular expression of the shape [/\.(a|b)$/i], given by its
    alternatives.  [matchesHere alts rest] is a match that starts at the
    current position: the rest of the text is a dot followed by one of
    the alternatives. *)
Definition matchesHere (alts : list string) (rest : string) : bool :=
  existsb (fun alt => eqbIgnoreCase rest ("." +:+ alt)) alts.

(** [regex.test(s)]: the positions are tried from left to right. *)
Fixpoint test (alts : list string) (s : string) : bool :=
  matchesHere alts s
  || match s with
     | EmptyString => false
     | String _ rest => test alts rest
     end.

(** [s.replace(regex, '')]: the leftmost match is removed; as a match
    ends at the end of the text, nothing is left after it. *)
Fixpoint removeMatch (alts : list string) (s : string) : string :=
  if matchesHere alts s then EmptyString
  else match s with
       | EmptyString => EmptyString
       | String c rest => String c (removeMatch alts rest)
       end.

(** ** The command line of the converter scripts

    The statements that follow [mdToPdf] in both scripts
    (src/server/md2pdf-converter.js, lines 485-495; src/unnamed/part_002,
    lines 397-409).  [argv] is [process.argv], whose first two elements
    are the path of node and of the script; the result is the exit code
    of the process and its final state.  A process whose promise resolves
    ends with code 0 once nothing is left to run. *)

Section CommandLine.

Variable basename : string -> string -> string.
Variable mdToPdf :
  string -> string -> option string -> Process -> Result unit * Process.

Definition main (argv : list string) (p : Process) : Z * Process :=
  let inputFile := argv !! 2%nat in
  let outputFile := argv !! 3%nat in
  let title := argv !! 4%nat in
  match inputFile with
  | None | Some EmptyString => (1, p)          (* process.exit(1) *)
  | Some inputFile =>
      let finalOutputFile :=
        orDefault outputFile (basename inputFile ".md" +:+ ".pdf") in
      match mdToPdf inputFile finalOutputFile title p with
      | (Ok _, p') => (0, p')
      | (Throw _, p') => (1, p')               (* .catch: process.exit(1) *)
      end
  end.

End CommandLine.

(** ** The web server: src/server/server.js *)

(** [fs.existsSync(path)] *)
Definition existsSync (fs : gmap string File) (path : string) : bool :=
  bool_decide (is_Some (fs !! path)).

(** [cleanupFiles(files)], lines 288-297.  An element of [files] can be
    [undefined] (the variable [zipFile] before it is assigned).  The
    [forEach] tests every element against the file system as it is when
    [cleanupFiles] is called and starts an asynchronous [unlink] for those
    that pass; an [unlink] that fails (a path listed twice) is logged and
    has no other effect.  The result is the file system once the unlinks
    are done. *)
Definition cleanupFiles (files : list (option string)) (fs : gmap string File)
  : gmap string File :=
  let pending :=
    omap (fun file : option string =>
            match file with
            | Some file =>
                if negb (String.eqb file "") && existsSync fs file
                then Some file else None
            | None => None
            end) files in
  foldl (fun fs file => delete file fs) fs pending.

(** One element of [req.files], as multer fills it. *)
Record Upload := mkUpload {
  up_originalname : string;
  up_mimetype : string;     (* empty when the part carries no type *)
  up_path : string
}.

(** An element of [outputFiles]: [{ path, name }]. *)
Record OutputFile := mkOutputFile {
  out_path : string;
  out_name : string
}.

(** What becomes of the child process that [runMdToPdf] spawns: it runs
    the converter script with a browser of its own; or it is ended by the
    signal of the 60 s spawn timeout, which closes it with code [null]; or
    it cannot be started. *)
Inductive Child :=
| Runs (browser : Puppeteer)
| Killed
| NotStarted.

(** The exceptions of the conversion loop. *)
Inductive Rejection :=
| ExitedWith (code : option Z)   (* md-to-pdf process exited with code ... *)
| FailedToStart                  (* Failed to start md-to-pdf process *)
| GenerationFailed (originalname : string).   (* PDF generation failed for ... *)

(** What one turn of the conversion loop observes of its environment:
    [Date.now()] and the child process. *)
Record Turn := mkTurn {
  now : N;
  child : Child
}.

Record Request := mkRequest {
  req_files : option (list Upload);     (* req.files *)
  req_outputName : option string        (* req.body.outputName *)
}.

(** The response of the convert route.  A download is a file streamed to
    the client under a content type and a file name; [onClose] is the
    list that the handler of the response's [close] event passes to
    [cleanupFiles].  For several files the archive of the entries is
    written to [zipFile] before it is streamed.  [Uncaught]: no response;
    the handler of the archive's [close] event has thrown, which no
    [try] encloses, after the archive was written to [zipFile]. *)
Inductive Reply :=
| Json (status : nat) (code : string)
| Pdf (filename : string) (file : string) (onClose : list (option string))
| Zip (zipName : string) (zipFile : string) (entries : list OutputFile)
    (onClose : list (option string))
| Uncaught (zipFile : string) (entries : list OutputFile).

(** The test [res.setHeader] makes on a header value (Node's
    [checkInvalidHeaderChar]): a character other than the tab, the
    characters from the space to the tilde and the characters from code
    128 up is invalid, and [setHeader] throws. *)
Definition validHeaderChar (c : ascii) : bool :=
  let n := nat_of_ascii c in
  ((n =? 9) || (32 <=? n) && (n <=? 126) || (128 <=? n))%nat.

Definition checkInvalidHeaderChar (value : string) : bool :=
  negb (forallb validHeaderChar (list_ascii_of_string value)).

(** The value of the [Content-Disposition] header. *)
Definition contentDisposition (filename : string) : string :=
  "attachment; filename=" +:+ dq +:+ filename +:+ dq.

Definition OUTPUT_DIR : string := "outputs".
Definition ALLOWED_EXTENSIONS : list string := [".md"; ".markdown"].
Definition ALLOWED_MIMETYPES : list string :=
  ["text/markdown"; "text/x-markdown"; "text/plain"].

Section ServerApp.

(** The dependencies of the converter script the child runs, and of the
    route: [path.parse(p).name] and [path.join(a, b)]. *)
Variable lexer : string -> list Token.
Variable basename : string -> string -> string.
Variable pdfText : PDFDocument -> string.
Variable template : string -> string -> string.
Variable parseName : string -> string.
Variable join : string -> string -> string.

(** [runMdToPdf(inputFile, outputFile, title)], lines 245-277: the promise
    resolves when the child closes with code 0 and rejects otherwise.  The
    child is a process of its own, whose array [headings] starts empty,
    on the file system of the server; it runs in the directory of
    server.js, which is taken to be the working directory of the server
    too, so that the relative paths of both name the same files.  A child
    that is killed or does not start leaves the file system as it is (the
    write of the output file is the last statement of a conversion). *)
Definition runMdToPdf (child : Child) (inputFile outputFile title : string)
    (fs : gmap string File) : option Rejection * gmap string File :=
  match child with
  | NotStarted => (Some FailedToStart, fs)
  | Killed => (Some (ExitedWith None), fs)
  | Runs browser =>
      let '(code, p) :=
        main basename (Server.mdToPdf lexer basename pdfText template browser)
          ["node"; "md2pdf-converter.js"; inputFile; outputFile; title]
          (mkProcess [] fs) in
      if code =? 0 then (None, files p)
      else (Some (ExitedWith (Some code)), files p)
  end.

(** The loop [for (const file of req.files)] of the convert route, lines
    89-107, at its turn number [i]; [inputFiles] and [outputFiles] are
    the two arrays declared before the [try], which the [catch] still
    reads after an exception. *)
Fixpoint convertAll (env : nat -> Turn) (i : nat) (files : list Upload)
    (inputFiles : list string) (outputFiles : list OutputFile)
    (fs : gmap string File)
  : option Rejection * (list string * list OutputFile) * gmap string File :=
  match files with
  | [] => (None, (inputFiles, outputFiles), fs)
  | file :: rest =>
      let inputFile := up_path file in
      let originalName := parseName (up_originalname file) in
      let outputName := sanitizeFilename (originalName +:+ ".pdf") in
      let outputFile :=
        join OUTPUT_DIR (pretty (now (env i)) +:+ "-" +:+ outputName) in
      match runMdToPdf (child (env i)) inputFile outputFile originalName fs with
      | (Some e, fs) => (Some e, (inputFiles, outputFiles), fs)
      | (None, fs) =>
          if negb (existsSync fs outputFile)
          then (Some (GenerationFailed (up_originalname file)),
                (inputFiles, outputFiles), fs)
          else convertAll env (S i) rest (inputFiles ++ [inputFile])
                 (outputFiles ++ [mkOutputFile outputFile outputName]) fs
      end
  end.

(** The handler of [POST /api/convert], lines 75-188, for streams and an
    archiver that do their work without error: the response, and the
    file system when the handler returns, the archive at [zipFile]
    aside.  [res.setHeader] throws on a file name that holds an invalid
    character: for one file inside the [try], so that the [catch]
    answers; for several files inside the handler of the archive's
    [close] event. *)
Definition convertRoute (req : Request) (env : nat -> Turn)
    (fs : gmap string File) : Reply * gmap string File :=
  match req_files req with
  | None | Some [] => (Json 400 "NO_FILE", fs)
  | Some files =>
      let '(error, (inputFiles, outputFiles), fs) :=
        convertAll env 0 files [] [] fs in
      let catch :=
        (Json 500 "CONVERSION_FAILED",
         cleanupFiles ((Some <$> inputFiles)
                         ++ (Some <$> (out_path <$> outputFiles)) ++ [None])
           fs) in
      match error with
      | Some _ => catch
      | None =>
          match outputFiles with
          | [singleFile] =>
              let outputName :=
                orDefault (req_outputName req) (out_name singleFile) in
              if checkInvalidHeaderChar (contentDisposition outputName)
              then catch
              else
                (Pdf outputName (out_path singleFile)
                   ((Some <$> inputFiles) ++ [Some (out_path singleFile)]),
                 fs)
          | _ =>
              let zipName :=
                orDefault (req_outputName req) "converted_files.zip" in
              let zipFile :=
                join OUTPUT_DIR
                  (pretty (now (env (length files))) +:+ "-"
                     +:+ sanitizeFilename zipName) in
              if checkInvalidHeaderChar (contentDisposition zipName)
              then (Uncaught zipFile outputFiles, fs)
              else
                (Zip zipName zipFile outputFiles
                   ((Some <$> inputFiles)
                      ++ (Some <$> (out_path <$> outputFiles))
                      ++ [Some zipFile]),
                 fs)
          end
      end
  end.


End ServerApp.

(** ** The upload filter of the web server

    [path.extname] belongs to Node.  It is embedded by its algorithm for
    POSIX paths (lib/path.js, [posix.extname]): one scan of the path
    from its end, which finds the last dot of the last segment and notes
    whether anything other than dots precedes it in the segment. *)
Record ExtScan := mkExtScan {
  startDot : Z;
  startPart : Z;
  endPos : Z;               (* the variable end *)
  matchedSlash : bool;
  preDotState : Z
}.

(** One turn of the loop, at index [i] with the character [code]; the
    second component is [false] when the turn leaves the loop. *)
Definition extnameTurn (i : Z) (code : ascii) (st : ExtScan) : ExtScan * bool :=
  if Ascii.eqb code "/" then
    if negb (matchedSlash st) then
      (mkExtScan (startDot st) (i + 1) (endPos st) (matchedSlash st)
         (preDotState st), false)
    else (st, true)
  else
    let st :=
      if endPos st =? -1
      then mkExtScan (startDot st) (startPart st) (i + 1) false (preDotState st)
      else st in
    if Ascii.eqb code "." then
      if startDot st =? -1 then
        (mkExtScan i (startPart st) (endPos st) (matchedSlash st)
           (preDotState st), true)
      else if negb (preDotState st =? 1) then
        (mkExtScan (startDot st) (startPart st) (endPos st) (matchedSlash st) 1,
         true)
      else (st, true)
    else if negb (startDot st =? -1) then
      (mkExtScan (startDot st) (startPart st) (endPos st) (matchedSlash st)
         (-1), true)
    else (st, true).

(** The loop [for (let i = path.length - 1; i >= 0; --i)] over the
    characters still to visit, last one first. *)
Fixpoint extnameLoop (codes : list ascii) (i : Z) (st : ExtScan) : ExtScan :=
  match codes with
  | [] => st
  | code :: rest =>
      let '(st, continue) := extnameTurn i code st in
      if continue then extnameLoop rest (i - 1) st else st
  end.

Definition extname (path : string) : string :=
  let codes := list_ascii_of_string path in
  let st :=
    extnameLoop (rev codes) (Z.of_nat (length codes) - 1)
      (mkExtScan (-1) 0 (-1) true 0) in
  if (startDot st =? -1) || (endPos st =? -1) || (preDotState st =? 0)
     || ((preDotState st =? 1) && (startDot st =? endPos st - 1)
         && (startDot st =? startPart st + 1))
  then EmptyString
  else substring (Z.to_nat (startDot st))
         (Z.to_nat (endPos st) - Z.to_nat (startDot st)) path.

(** [fileFilter], src/server/server.js, lines 53-63: [true] when the
    callback is given [(null, true)], [false] when it is given the error
    [Only Markdown files (.md, .markdown) are allowed!]. *)
Definition fileFilter (file : Upload) : bool :=
  let ext := toLowerCase (extname (up_originalname file)) in
  let isValidExt := bool_decide (ext ∈ ALLOWED_EXTENSIONS) in
  let isValidMime :=
    bool_decide (up_mimetype file ∈ ALLOWED_MIMETYPES)
    || String.eqb (up_mimetype file) "" in
  isValidExt || isValidMime.

(** ** The browser client

    [FileHandler] is src/client/src/file-handler.js, [UIController] is
    src/unnamed/part_000 and [App] is src/unnamed/part_001. *)

(** A [File] of the browser, as far as the client reads it. *)
Record BrowserFile := mkBrowserFile {
  bf_name : string;
  bf_size : N
}.

Module FileHandler.

(** [static VALID_EXTENSIONS = /\.(md|markdown)$/i], by its alternatives. *)
Definition VALID_EXTENSIONS : list string := ["md"; "markdown"].

Definition MAX_MB : N := 50.

(** [file && file.name && VALID_EXTENSIONS.test(file.name)], as the truth
    value a caller tests, for a file object. *)
Definition isValidExtension (file : BrowserFile) : bool :=
  negb (String.eqb (bf_name file) "") && test VALID_EXTENSIONS (bf_name file).

Definition isValidSize (file : BrowserFile) : bool :=
  (bf_size file <=? MAX_MB * 1024 * 1024)%N.


Definition defaultOutputName (name : string) : string :=
  let base := removeMatch VALID_EXTENSIONS name in
  base +:+ ".pdf".

End FileHandler.

(** One entry of the list that [showFileInfo] renders: [{ name, size,
    index }]; [index] is the number written into the [data-index]
    attribute of the entry's remove button, which [parseInt] reads
    back. *)
Record FileItem := mkFileItem {
  fi_name : string;
  fi_size : string;
  fi_index : nat
}.

(** Which of the classes [status-success] and [status-error] the status
    message carries. *)
Inductive StatusClass := NoStatusClass | StatusSuccess | StatusError.

(** The state of the elements the controller writes to. *)
Record FilePanel := mkFilePanel {
  panelHidden : bool;           (* fileInfo has the class hidden *)
  panelItems : list FileItem    (* what fileList.innerHTML was rendered from *)
}.

Record ConvertButton := mkConvertButton {
  btnDisabled : bool;
  btnProcessing : bool;         (* convertBtn has the class processing *)
  spinnerHidden : bool;
  btnText : string              (* convertText.textContent *)
}.

Record ProgressBar := mkProgressBar {
  barHidden : bool;
  barWidth : Q                  (* progressFill.style.width, in percent *)
}.

Record StatusMessage := mkStatusMessage {
  statusText : string;
  statusClass : StatusClass;
  statusHidden : bool
}.

Record UI := mkUI {
  fileInfo : FilePanel;
  convertBtn : ConvertButton;
  progress : ProgressBar;
  statusMessage : StatusMessage;
  fileInputValue : string;      (* fileInput.value *)
  outputNameValue : string;     (* outputName.value *)
  dragover : bool               (* dropZone has the class dragover *)
}.

(** [Math.min(a, b)] on numbers. *)
Definition mathMin (a b : Q) : Q := if Qle_bool a b then a else b.

Module UIController.

Definition withFileInfo (f : FilePanel) (ui : UI) : UI :=
  mkUI f (convertBtn ui) (progress ui) (statusMessage ui) (fileInputValue ui)
    (outputNameValue ui) (dragover ui).

Definition withConvertBtn (b : ConvertButton) (ui : UI) : UI :=
  mkUI (fileInfo ui) b (progress ui) (statusMessage ui) (fileInputValue ui)
    (outputNameValue ui) (dragover ui).

Definition withProgress (p : ProgressBar) (ui : UI) : UI :=
  mkUI (fileInfo ui) (convertBtn ui) p (statusMessage ui) (fileInputValue ui)
    (outputNameValue ui) (dragover ui).

Definition withStatus (s : StatusMessage) (ui : UI) : UI :=
  mkUI (fileInfo ui) (convertBtn ui) (progress ui) s (fileInputValue ui)
    (outputNameValue ui) (dragover ui).

Definition withFileInputValue (v : string) (ui : UI) : UI :=
  mkUI (fileInfo ui) (convertBtn ui) (progress ui) (statusMessage ui) v
    (outputNameValue ui) (dragover ui).

Definition withOutputNameValue (v : string) (ui : UI) : UI :=
  mkUI (fileInfo ui) (convertBtn ui) (progress ui) (statusMessage ui)
    (fileInputValue ui) v (dragover ui).

Definition withDragover (over : bool) (ui : UI) : UI :=
  mkUI (fileInfo ui) (convertBtn ui) (progress ui) (statusMessage ui)
    (fileInputValue ui) (outputNameValue ui) over.

Definition showFileInfo (files : list FileItem) (ui : UI) : UI :=
  withFileInfo (mkFilePanel false files) ui.

Definition hideFileInfo (ui : UI) : UI :=
  withFileInfo (mkFilePanel true (panelItems (fileInfo ui))) ui.

Definition enableConvertBtn (ui : UI) : UI :=
  let b := convertBtn ui in
  withConvertBtn
    (mkConvertButton false (btnProcessing b) (spinnerHidden b) "Convert to PDF")
    ui.

Definition disableConvertBtn (ui : UI) : UI :=
  let b := convertBtn ui in
  withConvertBtn
    (mkConvertButton true (btnProcessing b) (spinnerHidden b) (btnText b)) ui.

Definition setProcessingState (ui : UI) : UI :=
  let ui := disableConvertBtn ui in
  withConvertBtn
    (mkConvertButton (btnDisabled (convertBtn ui)) true false "Converting...")
    ui.

Definition resetConvertBtn (ui : UI) : UI :=
  let ui := enableConvertBtn ui in
  withConvertBtn
    (mkConvertButton (btnDisabled (convertBtn ui)) false true "Convert to PDF")
    ui.

(** [Math.min(p, 100)] percent. *)
Definition updateProgress (p : Q) (ui : UI) : UI :=
  withProgress (mkProgressBar (barHidden (progress ui)) (mathMin p 100)) ui.

Definition showProgress (ui : UI) : UI :=
  updateProgress 0
    (withProgress (mkProgressBar false (barWidth (progress ui))) ui).

Definition hideProgress (ui : UI) : UI :=
  updateProgress 0
    (withProgress (mkProgressBar true (barWidth (progress ui))) ui).

Definition showStatus (msg type : string) (ui : UI) : UI :=
  withStatus
    (mkStatusMessage msg
       (if String.eqb type "success" then StatusSuccess
        else if String.eqb type "error" then StatusError
        else NoStatusClass)
       false)
    ui.

Definition hideStatus (ui : UI) : UI :=
  withStatus (mkStatusMessage (statusText (statusMessage ui)) NoStatusClass true)
    ui.

End UIController.

(** [arr.splice(index, 1)] on the array, for an [index] that is an
    integer or, as [None], [undefined] or [NaN] (both count as 0): a
    negative index counts from the end, an index past the end removes
    nothing. *)
Definition spliceOne {A} (index : option Z) (arr : list A) : list A :=
  let len := Z.of_nat (length arr) in
  let relativeStart := match index with Some i => i | None => 0 end in
  let actualStart :=
    if relativeStart <? 0 then Z.max (len + relativeStart) 0
    else Z.min relativeStart len in
  take (Z.to_nat actualStart) arr ++ drop (S (Z.to_nat actualStart)) arr.

(** The state of the [App] object: the controller's elements, the array
    [selectedFiles], the handle in [progressInterval] ([null] as [None]),
    and the timers of the page: the intervals [simulateProgress] started
    that are not cleared, each with the value of its variable
    [progress], and the next handle [setInterval] returns. *)
Record App := mkApp {
  ui : UI;
  selectedFiles : list BrowserFile;
  progressInterval : option nat;
  intervals : gmap nat Q;
  nextHandle : nat
}.

Definition withUI (u : UI) (app : App) : App :=
  mkApp u (selectedFiles app) (progressInterval app) (intervals app)
    (nextHandle app).

Section AppMethods.

(** [FileHandler.formatSize] computes with [Math.log] and [toFixed] on
    doubles; it is left abstract. *)
Variable formatSize : N -> string.

(** [this.selectedFiles.map((file, index) => ({ name, size, index }))] *)
Definition fileItems (files : list BrowserFile) : list FileItem :=
  imap (fun index file =>
          mkFileItem (bf_name file) (formatSize (bf_size file)) index) files.

(** The callback of [filter] in [handleFiles], with the status messages
    it shows on the way. *)
Fixpoint filterValid (files : list BrowserFile) (u : UI)
  : list BrowserFile * UI :=
  match files with
  | [] => ([], u)
  | file :: rest =>
      if negb (FileHandler.isValidExtension file) then
        filterValid rest
          (UIController.showStatus ("Invalid file type: " +:+ bf_name file)
             "error" u)
      else if negb (FileHandler.isValidSize file) then
        filterValid rest
          (UIController.showStatus ("File too large: " +:+ bf_name file)
             "error" u)
      else
        let '(valid, u) := filterValid rest u in (file :: valid, u)
  end.

(** [handleFiles(files)], part_001 lines 58-90. *)
Definition handleFiles (files : list BrowserFile) (app : App) : App :=
  let '(validFiles, u) := filterValid files (ui app) in
  if (length validFiles =? 0)%nat then withUI u app
  else
    let selected := selectedFiles app ++ validFiles in
    let u := UIController.withFileInputValue "" u in
    let u := UIController.showFileInfo (fileItems selected) u in
    let u :=
      if (0 <? length selected)%nat
      then UIController.hideStatus (UIController.enableConvertBtn u)
      else u in
    mkApp u selected (progressInterval app) (intervals app) (nextHandle app).

(** [handleRemoveFile(index)], lines 92-110. *)
Definition handleRemoveFile (index : option Z) (app : App) : App :=
  let selected := spliceOne index (selectedFiles app) in
  let u := ui app in
  let u :=
    if (0 <? length selected)%nat then
      UIController.enableConvertBtn
        (UIController.showFileInfo (fileItems selected) u)
    else
      UIController.withOutputNameValue ""
        (UIController.withFileInputValue ""
           (UIController.resetConvertBtn (UIController.hideFileInfo u))) in
  mkApp u selected (progressInterval app) (intervals app) (nextHandle app).

(** The listener of clicks inside the file list, lines 28-34, for a click
    on the remove button of the entry at position [k] of the list. *)
Definition clickRemove (k : nat) (app : App) : App :=
  match panelItems (fileInfo (ui app)) !! k with
  | Some item => handleRemoveFile (Some (Z.of_nat (fi_index item))) app
  | None => app
  end.

(** [stopProgress()]: [clearInterval] of the stored handle, which does
    nothing for [null]. *)
Definition stopProgress (app : App) : App :=
  mkApp (ui app) (selectedFiles app) None
    (match progressInterval app with
     | Some handle => delete handle (intervals app)
     | None => intervals app
     end)
    (nextHandle app).

Definition completeProgress (app : App) : App :=
  let app := stopProgress app in
  withUI (UIController.updateProgress 100 (ui app)) app.

Definition reset (app : App) : App :=
  let app := stopProgress app in
  let u := ui app in
  let u := UIController.hideFileInfo u in
  let u := UIController.hideProgress u in
  let u := UIController.hideStatus u in
  let u := UIController.resetConvertBtn u in
  let u := UIController.withFileInputValue "" u in
  let u := UIController.withOutputNameValue "" u in
  mkApp u [] (progressInterval app) (intervals app) (nextHandle app).

(** [simulateProgress()], lines 158-165: a new interval whose variable
    [progress] starts at 0; its handle is stored. *)
Definition simulateProgress (app : App) : App :=
  let handle := nextHandle app in
  mkApp (ui app) (selectedFiles app) (Some handle)
    (<[handle := 0%Q]> (intervals app)) (S handle).

(** One run of the callback of the interval [handle], with the value
    [random] that [Math.random()] returns. *)
Definition progressTick (handle : nat) (random : Q) (app : App) : App :=
  match intervals app !! handle with
  | None => app
  | Some progress =>
      let progress := (progress + (random * (20 - 5) + 5))%Q in
      if Qlt_le_dec 80 progress then
        let app :=
          stopProgress
            (mkApp (ui app) (selectedFiles app) (progressInterval app)
               (<[handle := 80%Q]> (intervals app)) (nextHandle app)) in
        withUI (UIController.updateProgress 80 (ui app)) app
      else
        mkApp (UIController.updateProgress progress (ui app))
          (selectedFiles app) (progressInterval app)
          (<[handle := progress]> (intervals app)) (nextHandle app)
  end.

(** The name under which [handleConvert] requests and downloads the
    result, lines 115-132; there is none without a selected file. *)
Definition outputNameOf (app : App) : option string :=
  let typed := trim (outputNameValue (ui app)) in
  match selectedFiles app with
  | [] => None
  | [file] =>
      let baseName := removeMatch ["md"; "markdown"] (bf_name file) in
      let outputName := orDefault (Some typed) (baseName +:+ ".pdf") in
      Some (if negb (endsWith ".pdf" outputName)
            then removeMatch ["zip"; "pdf"] outputName +:+ ".pdf"
            else outputName)
  | _ =>
      let outputName := orDefault (Some typed) "converted_files.zip" in
      Some (if negb (endsWith ".zip" outputName)
            then removeMatch ["zip"; "pdf"] outputName +:+ ".zip"
            else outputName)
  end.

(** [handleConvert()] up to the request, lines 112-137. *)
Definition handleConvert (app : App) : App :=
  match outputNameOf app with
  | None =>
      withUI (UIController.showStatus "No files selected" "error" (ui app)) app
  | Some _ =>
      let app := withUI (UIController.setProcessingState (ui app)) app in
      let app := withUI (UIController.showProgress (ui app)) app in
      let app := simulateProgress app in
      withUI (UIController.hideStatus (ui app)) app
  end.

(** What follows the request: the [try] after [convert] resolved, and
    the [catch] with the message of the error. *)
Definition convertResolved (app : App) : App :=
  let app := completeProgress app in
  withUI (UIController.showStatus "Conversion completed!" "success" (ui app))
    app.

Definition convertRejected (message : string) (app : App) : App :=
  let u := UIController.showStatus ("Conversion failed: " +:+ message) "error"
             (ui app) in
  withUI (UIController.resetConvertBtn u) app.

(** [handleDrag(e, over)], [handleDrop(e)] and [handleFileInput(e)]. *)
Definition handleDrag (over : bool) (app : App) : App :=
  withUI (UIController.withDragover over (ui app)) app.

Definition handleDrop (files : list BrowserFile) (app : App) : App :=
  let app := handleDrag false app in
  if (0 <? length files)%nat then handleFiles files app else app.

Definition handleFileInput (files : list BrowserFile) (app : App) : App :=
  if (0 <? length files)%nat then handleFiles files app else app.

(** What the listeners and timers of the application react to. *)
Inductive Event :=
| DragOver | DragLeave
| Drop (files : list BrowserFile)
| FileInput (files : list BrowserFile)
| ClickRemove (k : nat)              (* the remove button of entry k *)
| ClickRemoveFileBtn                 (* the element removeFileBtn *)
| ClickConvert                       (* the button convertBtn *)
| Tick (handle : nat) (random : Q)   (* an interval of simulateProgress *)
| ConvertResolved
| ConvertRejected (message : string)
| HideProgressTimer                  (* 2 s after a conversion ended *)
| ResetTimer                         (* 10 s after a conversion succeeded *)
| TypeOutputName (value : string).   (* the user edits the output name *)

(** A disabled button receives no click. *)
Definition step (e : Event) (app : App) : App :=
  match e with
  | DragOver => handleDrag true app
  | DragLeave => handleDrag false app
  | Drop files => handleDrop files app
  | FileInput files => handleFileInput files app
  | ClickRemove k => clickRemove k app
  | ClickRemoveFileBtn => handleRemoveFile None app
  | ClickConvert =>
      if btnDisabled (convertBtn (ui app)) then app else handleConvert app
  | Tick handle random => progressTick handle random app
  | ConvertResolved => convertResolved app
  | ConvertRejected message => convertRejected message app
  | HideProgressTimer => withUI (UIController.hideProgress (ui app)) app
  | ResetTimer => reset app
  | TypeOutputName value =>
      withUI (UIController.withOutputNameValue value (ui app)) app
  end.

(** The state after [init()], which ends with [reset()], and a sequence
    of events, from the state [app] the constructors leave. *)
Definition run (events : list Event) (app : App) : App :=
  foldl (fun app e => step e app) (reset app) events.


(** The callbacks of the interval [handle] for a sequence of values of
    [Math.random()]. *)
Definition ticks (handle : nat) (randoms : list Q) (app : App) : App :=
  foldl (fun app random => progressTick handle random app) app randoms.

End AppMethods.

(** ** An environment for the examples of the web server *)

(** [path.parse(p).name] and [path.join(a, b)] on the names of the
    examples. *)
Definition sampleParseName (p : string) : string :=
  removeMatch ["md"; "markdown"] p.

Definition sampleJoin (a b : string) : string := a +:+ "/" +:+ b.

(** Two uploads on the disk of the server. *)
Definition uploadA : Upload :=
  mkUpload "notes.md" "text/markdown" "uploads/markdowns-1-1.md".

Definition uploadB : Upload :=
  mkUpload "bold.md" "text/markdown" "uploads/markdowns-1-2.md".

Definition serverDisk : gmap string File :=
  {["uploads/markdowns-1-1.md" := FText notesSource;
    "uploads/markdowns-1-2.md" := FText "# **Bold** title";
    "md2pdf-converter.js" := FText "import fs"]}.

(** Every child converts its file. *)
Definition goodTurns (i : nat) : Turn :=
  mkTurn (1700000000000 + N.of_nat i) (Runs readyBrowser).

(** The second child is ended by the spawn timeout. *)
Definition secondKilled (i : nat) : Turn :=
  mkTurn (1700000000000 + N.of_nat i)
    (match i with 1%nat => Killed | _ => Runs readyBrowser end).

(** A page whose first heading element lies above the origin of the
    document, at the offset -20. *)
Definition shiftedBrowser : Puppeteer :=
  mkPuppeteer true
    (fun _ => mkPageRun true (fun t => (5 <=? t)%nat)
                [mkElement "notes" (-20)] onePageDoc).

(** ** An environment for the examples of the client *)

(** The page as it is loaded: nothing hidden yet, no file selected, no
    timer. *)
Definition loadedPage : App :=
  mkApp
    (mkUI (mkFilePanel false []) (mkConvertButton false false false "Convert")
       (mkProgressBar false 0) (mkStatusMessage "" NoStatusClass false)
       "" "" false)
    [] None ∅ 1.

Definition sampleFormatSize (bytes : N) : string := pretty bytes +:+ " Bytes".

(** Seventeen values of [Math.random()]. *)
Definition seventeenDraws : list Q :=
  [1 # 2; 0 # 1; 1 # 4; 3 # 4; 1 # 10; 0 # 1; 0 # 1; 9 # 10; 1 # 3; 0 # 1;
   1 # 2; 0 # 1; 0 # 1; 1 # 5; 0 # 1; 0 # 1; 0 # 1].

(** ** The definitions on the scenarios of the specification *)

Example anchorId_examples :
  anchorId "Title" = "title" /\ anchorId "Sub" = "sub"
  /\ anchorId "Hello, World!" = "hello-world-"
  /\ anchorId "Notes" = anchorId "NOTES".
Proof. repeat split. Qed.

Example escapeCode_example :
  Part002.escapeCode "if (a<b && c>'x')"
  = "if (a&lt;b &amp;&amp; c&gt;&#39;x&#39;)".
Proof. reflexivity. Qed.

(** The heading [# Title] at the top of the page and the heading [## Sub]
    below one page height: page 0 and page 1, in both scripts. *)
Example locate_title_and_sub :
  let pages := [a4Page 1; a4Page 2] in
  Server.pageIdx 0 pages = 0 /\ Server.pageIdx 950 pages = 1
  /\ Part002.targetPageIdx 0 pages = 0 /\ Part002.targetPageIdx 950 pages = 1.
Proof. repeat split. Qed.

(** An offset far below the last page selects the last page. *)
Example locate_far_below :
  Server.pageIdx 1000000 [a4Page 1; a4Page 2] = 1
  /\ Part002.targetPageIdx 1000000 [a4Page 1; a4Page 2] = 1.
Proof. repeat split. Qed.

(** The HTML and the text rendering of the heading [# **Bold** title],
    and of a heading with a code span. *)
Example boldHeading_renderings :
  ht_html boldHeading = "<strong>Bold</strong> title"
  /\ ht_plain boldHeading = "Bold title"
  /\ ht_plain (headingToken 2 "Use `npm` *now*"
                 [InText "Use "; InCodespan "npm"; InText " ";
                  InEm [InText "now"]])
     = "Use npm now".
Proof. repeat split. Qed.

(** The title of a heading loses the characters that the escaping of
    marked replaces, and a numeric character reference is decoded: the
    titles of [# A & B], [# a < b] and [# x &#65; y]. *)
Example escaped_heading_titles :
  ht_html (headingToken 1 "A & B" [InText "A & B"]) = "A &amp; B"
  /\ ht_plain (headingToken 1 "A & B" [InText "A & B"]) = "A  B"
  /\ ht_plain (headingToken 1 "a < b" [InText "a < b"]) = "a  b"
  /\ ht_plain (headingToken 1 "x &#65; y" [InText "x &#65; y"]) = "x A y".
Proof. repeat split. Qed.

(** A number sign followed by two upper-case hexadecimal digits is a
    character code in the name that holds a title. *)
Example decodeName_examples :
  decodeName "Bug #42" = "Bug B" /\ decodeName "Issue #7" = "Issue #7"
  /\ decodeName "C# basics" = "C# basics".
Proof. repeat split. Qed.

(** The literal 841.89 and the decimal 0.1 as doubles; the quotient of
    the double 841.89 by itself is 1. *)
Example roundDouble_examples :
  roundDouble (84189 # 100) = (7405342754466693 # 8796093022208)%Q
  /\ (roundDouble (1 # 10) == 3602879701896397 # 36028797018963968)%Q
  /\ Part002.pageNum (roundDouble (84189 # 100)) = 1
  /\ Qfloor (roundDouble (84189 # 100) / (84189 # 100)) = 0.
Proof. repeat split. Qed.

(** ** The code renderer (C2) *)

Lemma sensitive_cases c :
  Part002.sensitive c = true ->
  c = "&"%char \/ c = "<"%char \/ c = ">"%char \/ c = dquote \/ c = "'"%char.
Proof.
  unfold Part002.sensitive. rewrite !orb_true_iff, !Ascii.eqb_eq. tauto.
Qed.

Lemma sensitive_false c :
  Part002.sensitive c = false ->
  c <> "&"%char /\ c <> "<"%char /\ c <> ">"%char /\ c <> dquote /\ c <> "'"%char.
Proof.
  unfold Part002.sensitive. rewrite !orb_false_iff, !Ascii.eqb_neq. tauto.
Qed.

Lemma mapAt_escapeChar c :
  Part002.sensitive c = true -> Part002.mapAt c = escapeChar c.
Proof.
  intros H. destruct (sensitive_cases c H) as [-> | [-> | [-> | [-> | ->]]]];
    reflexivity.
Qed.

Lemma escapeChar_plain c :
  Part002.sensitive c = false -> escapeChar c = String c "".
Proof.
  intros H. destruct (sensitive_false c H) as (H1 & H2 & H3 & H4 & H5).
  unfold escapeChar.
  rewrite <- Ascii.eqb_neq in H1, H2, H3, H4, H5.
  now rewrite H1, H2, H3, H4, H5.
Qed.

(** The scan of [replace] coincides with the character-by-character
    escape: every occurrence of the five characters is replaced by its
    entity, every other character is kept, and no replacement is escaped
    again. *)
Lemma escapeCode_escapeHtml code : Part002.escapeCode code = escapeHtml code.
Proof.
  unfold Part002.escapeCode.
  induction code as [| c r IH]; simpl; [reflexivity |].
  destruct (Part002.sensitive c) eqn:E.
  - now rewrite IH, mapAt_escapeChar.
  - now rewrite IH, escapeChar_plain.
Qed.

Lemma length_escapeChar c : (1 <= String.length (escapeChar c))%nat.
Proof.
  unfold escapeChar.
  repeat match goal with |- context [if ?b then _ else _] => destruct b end;
    simpl; lia.
Qed.

Lemma append_cons c (a b : string) : String c a +:+ b = String c (a +:+ b).
Proof. reflexivity. Qed.

Lemma length_append (a b : string) :
  String.length (a +:+ b) = (String.length a + String.length b)%nat.
Proof.
  induction a as [| c a IH]; [reflexivity |].
  rewrite append_cons. cbn [String.length]. now rewrite IH.
Qed.

Lemma decode_step fuel c r :
  decodeEntities (S fuel) (escapeChar c +:+ r) = String c (decodeEntities fuel r).
Proof.
  destruct (Part002.sensitive c) eqn:E.
  - destruct (sensitive_cases c E) as [-> | [-> | [-> | [-> | ->]]]];
      reflexivity.
  - rewrite (escapeChar_plain c E).
    destruct (sensitive_false c E) as (H1 & _).
    change (String c "" +:+ r) with (String c r).
    assert (Hamp : Ascii.eqb "&" c = false)
      by (apply Ascii.eqb_neq; intros Hc; now apply H1).
    cbn [decodeEntities stripPrefix]. now rewrite Hamp.
Qed.

Lemma decode_more_fuel s : forall fuel,
  (String.length s <= fuel)%nat ->
  decodeEntities fuel (escapeHtml s) = s.
Proof.
  induction s as [| c r IH]; intros fuel Hf.
  - destruct fuel; reflexivity.
  - destruct fuel as [| fuel]; [simpl in Hf; lia |].
    cbn [escapeHtml]. rewrite decode_step, IH; [reflexivity |].
    simpl in Hf. lia.
Qed.

(** Decoding the entities of the escaped code gives the code back: the
    escape loses nothing and escapes nothing twice. *)
Lemma decode_escapeCode code :
  decodeEntities (String.length (Part002.escapeCode code))
    (Part002.escapeCode code) = code.
Proof.
  rewrite escapeCode_escapeHtml. apply decode_more_fuel.
  induction code as [| c r IH]; simpl; [lia |].
  rewrite length_append. pose proof (length_escapeChar c). lia.
Qed.

(** No markup delimiter survives in the escaped code. *)
Lemma escapeCode_no_delimiter code c :
  In c (list_ascii_of_string (Part002.escapeCode code)) ->
  c <> "<"%char /\ c <> ">"%char /\ c <> dquote /\ c <> "'"%char.
Proof.
  rewrite escapeCode_escapeHtml.
  induction code as [| a r IH]; simpl; [tauto |].
  destruct (Part002.sensitive a) eqn:E.
  - destruct (sensitive_cases a E) as [-> | [-> | [-> | [-> | ->]]]];
      cbn; intros H;
      repeat (destruct H as [<- | H]; [repeat split; discriminate |]);
      auto.
  - rewrite (escapeChar_plain a E). cbn. intros [<- | H]; [| auto].
    destruct (sensitive_false a E) as (_ & ? & ? & ? & ?). tauto.
Qed.

(** The escaped code is what [Part002.code] embeds. *)
Lemma part002_code_embeds code language :
  Part002.code code language =
  "<pre><code class=" +:+ dq +:+ "language-"
    +:+ toLowerCase (orDefault language "plaintext") +:+ dq +:+ ">"
    +:+ escapeHtml code +:+ "</code></pre>".
Proof. unfold Part002.code. now rewrite escapeCode_escapeHtml. Qed.

(** C2, evaluated on the script of the server: for the fenced code [a<b]
    the renderer of src/server/md2pdf-converter.js embeds the code with
    its [<] as it is, where the specification (and the other script) has [a&lt;b]. *)
Theorem server_code_not_escaped :
  Server.code "a<b" None =
    "<pre><code class=" +:+ dq +:+ "language-plaintext" +:+ dq +:+ ">"
      +:+ "a<b" +:+ "</code></pre>"
  /\ Part002.code "a<b" None =
    "<pre><code class=" +:+ dq +:+ "language-plaintext" +:+ dq +:+ ">"
      +:+ "a&lt;b" +:+ "</code></pre>"
  /\ Server.code "a<b" None <> Part002.code "a<b" None.
Proof. repeat split. discriminate. Qed.

(** ** The division of doubles

    Rounding to the nearest double is monotone, and the floor of the
    quotient of a double by 900 is the floor of the exact quotient. *)

(** Rounding to the nearest integer. *)

Lemma roundHalfEven_bounds (q : Q) :
  Qfloor q <= roundHalfEven q <= Qfloor q + 1.
Proof.
  unfold roundHalfEven.
  destruct (q - inject_Z (Qfloor q) ?= 1 # 2)%Q; [destruct (Z.even _) | |]; lia.
Qed.

Lemma roundHalfEven_inject_Z (n : Z) : roundHalfEven (inject_Z n) = n.
Proof.
  unfold roundHalfEven. rewrite Qfloor_Z.
  assert (H : (inject_Z n - inject_Z n < 1 # 2)%Q) by lra.
  now rewrite (proj1 (Qlt_alt _ _) H).
Qed.

Lemma roundHalfEven_mono (q q' : Q) :
  (q <= q')%Q -> roundHalfEven q <= roundHalfEven q'.
Proof.
  intros Hle.
  pose proof (Qfloor_resp_le _ _ Hle) as Hf.
  pose proof (roundHalfEven_bounds q) as Hb.
  pose proof (roundHalfEven_bounds q') as Hb'.
  destruct (Z.eq_dec (Qfloor q) (Qfloor q')) as [Heq | Hne]; [| lia].
  unfold roundHalfEven in *. rewrite <- Heq in *.
  destruct (q - inject_Z (Qfloor q) ?= 1 # 2)%Q eqn:Hc;
    destruct (q' - inject_Z (Qfloor q) ?= 1 # 2)%Q eqn:Hc';
    try (destruct (Z.even (Qfloor q)); lia); try lia.
  - apply (proj2 (Qeq_alt _ _)) in Hc. apply (proj2 (Qlt_alt _ _)) in Hc'. lra.
  - apply (proj2 (Qgt_alt _ _)) in Hc. apply (proj2 (Qeq_alt _ _)) in Hc'. lra.
  - apply (proj2 (Qgt_alt _ _)) in Hc. apply (proj2 (Qlt_alt _ _)) in Hc'. lra.
Qed.

Lemma roundHalfEven_le (q : Q) (n : Z) :
  (q <= inject_Z n)%Q -> roundHalfEven q <= n.
Proof.
  intros H. rewrite <- (roundHalfEven_inject_Z n). now apply roundHalfEven_mono.
Qed.

Lemma roundHalfEven_ge (q : Q) (n : Z) :
  (inject_Z n <= q)%Q -> n <= roundHalfEven q.
Proof.
  intros H. rewrite <- (roundHalfEven_inject_Z n). now apply roundHalfEven_mono.
Qed.

(** Powers of two. *)
Lemma pow2_pos (e : Z) : (0 < 2 ^ e)%Q.
Proof. apply Qpower_0_lt. reflexivity. Qed.

Lemma pow2_succ (e : Z) : (2 ^ (e + 1) == 2 * 2 ^ e)%Q.
Proof. rewrite Qpower_plus by discriminate. rewrite Qpower_1_r. ring. Qed.

Lemma pow2_le (a b : Z) : a <= b -> (2 ^ a <= 2 ^ b)%Q.
Proof. intros H. apply Qpower_le_compat_l; [exact H | discriminate]. Qed.

Lemma pow2_inject (n : Z) : 0 <= n -> (2 ^ n == inject_Z (2 ^ n))%Q.
Proof. intros H. now rewrite Zpower_Qpower. Qed.

(** The binade of a positive rational. *)
Lemma binade_spec (x : Q) :
  (0 < x)%Q -> (2 ^ binade x <= x)%Q /\ (x < 2 ^ (binade x + 1))%Q.
Proof.
  intros Hx. destruct x as [n d]. unfold binade. cbn [Qnum Qden].
  assert (Hn : 0 < n) by (unfold Qlt in Hx; cbn in Hx; lia).
  set (a := Z.log2 n). set (b := Z.log2 (Z.pos d)).
  destruct (Z.log2_spec n Hn) as [Ha1 Ha2]. fold a in Ha1, Ha2.
  destruct (Z.log2_spec (Z.pos d) eq_refl) as [Hb1 Hb2]. fold b in Hb1, Hb2.
  assert (Ha0 : 0 <= a) by apply Z.log2_nonneg.
  assert (Hb0 : 0 <= b) by apply Z.log2_nonneg.
  assert (Hq : (n # d == inject_Z n / inject_Z (Z.pos d))%Q)
    by (rewrite Qmake_Qdiv; reflexivity).
  assert (Hd : (0 < inject_Z (Z.pos d))%Q) by reflexivity.
  assert (HA1 : (2 ^ a <= inject_Z n)%Q)
    by (rewrite pow2_inject by exact Ha0; rewrite <- Zle_Qle; exact Ha1).
  assert (HA2 : (inject_Z n < 2 * 2 ^ a)%Q).
  { rewrite <- pow2_succ, pow2_inject by lia. rewrite <- Zlt_Qlt.
    now rewrite <- Z.add_1_r in Ha2. }
  assert (HB1 : (2 ^ b <= inject_Z (Z.pos d))%Q)
    by (rewrite pow2_inject by exact Hb0; rewrite <- Zle_Qle; exact Hb1).
  assert (HB2 : (inject_Z (Z.pos d) < 2 * 2 ^ b)%Q).
  { rewrite <- pow2_succ, pow2_inject by lia. rewrite <- Zlt_Qlt.
    now rewrite <- Z.add_1_r in Hb2. }
  assert (Hab : (2 ^ a == 2 ^ (a - b) * 2 ^ b)%Q).
  { rewrite <- Qpower_plus by discriminate.
    now replace (a - b + b) with a by lia. }
  pose proof (pow2_pos (a - b)) as Hp. pose proof (pow2_pos b) as Hpb.
  assert (Hlow : (2 ^ (a - b - 1) <= n # d)%Q).
  { rewrite Hq. apply Qle_shift_div_l; [exact Hd |].
    assert (E : (2 ^ (a - b) == 2 * 2 ^ (a - b - 1))%Q).
    { rewrite <- pow2_succ. now replace (a - b - 1 + 1) with (a - b) by lia. }
    pose proof (pow2_pos (a - b - 1)) as Hp1.
    apply Qle_trans with (2 ^ (a - b - 1) * (2 * 2 ^ b))%Q.
    - apply Qmult_le_l; [exact Hp1 | lra].
    - setoid_replace (2 ^ (a - b - 1) * (2 * 2 ^ b))%Q with (2 ^ a)%Q
        using relation Qeq; [exact HA1 |].
      rewrite Hab, E. ring. }
  assert (Hhigh : (n # d < 2 ^ (a - b + 1))%Q).
  { rewrite Hq. apply Qlt_shift_div_r; [exact Hd |].
    rewrite pow2_succ.
    apply Qlt_le_trans with (2 * 2 ^ a)%Q; [exact HA2 |].
    rewrite Hab.
    setoid_replace (2 * (2 ^ (a - b) * 2 ^ b))%Q
      with (2 * 2 ^ (a - b) * 2 ^ b)%Q using relation Qeq by ring.
    apply Qmult_le_l; [lra | exact HB1]. }
  destruct (Qle_bool (2 ^ (a - b)) (n # d)) eqn:Hc.
  - apply Qle_bool_iff in Hc. split; [exact Hc | exact Hhigh].
  - split; [exact Hlow |].
    replace (a - b - 1 + 1) with (a - b) by lia.
    apply Qnot_le_lt. intros H. apply Qle_bool_iff in H. congruence.
Qed.

Lemma binade_mono (x y : Q) :
  (0 < x)%Q -> (x <= y)%Q -> binade x <= binade y.
Proof.
  intros Hx Hxy.
  destruct (binade_spec x Hx) as [Hx1 _].
  destruct (binade_spec y) as [_ Hy2]; [lra |].
  assert (H : (2 ^ binade x < 2 ^ (binade y + 1))%Q) by lra.
  apply Qpower_lt_compat_l_inv in H; [lia | reflexivity].
Qed.

Lemma pow2_split (e k : Z) : (2 ^ e == 2 ^ k * 2 ^ (e - k))%Q.
Proof.
  rewrite <- Qpower_plus by discriminate.
  now replace (k + (e - k)) with e by lia.
Qed.

(** Rounding to the nearest double keeps the order: inside one binade
    as the rounding to an integer does, and across binades because a
    power of two is a double. *)
Lemma roundPositive_nonneg (x : Q) : (0 < x)%Q -> (0 <= roundPositive x)%Q.
Proof.
  intros Hx. unfold roundPositive, ulp.
  set (u := (2 ^ (Z.max (binade x) (-1022) - 52))%Q).
  assert (Hu : (0 < u)%Q) by apply pow2_pos.
  apply Qmult_le_0_compat; [| lra].
  change 0%Q with (inject_Z 0). rewrite <- Zle_Qle.
  apply roundHalfEven_ge. change (inject_Z 0) with 0%Q.
  apply Qle_shift_div_l; [exact Hu | lra].
Qed.

Lemma roundPositive_le_pow2 (x : Q) (e : Z) :
  (0 < x)%Q -> Z.max (binade x) (-1022) <= e ->
  (roundPositive x <= 2 ^ (e + 1))%Q.
Proof.
  intros Hx He. unfold roundPositive, ulp.
  set (ex := Z.max (binade x) (-1022)) in *.
  set (u := (2 ^ (ex - 52))%Q).
  assert (Hu : (0 < u)%Q) by apply pow2_pos.
  destruct (binade_spec x Hx) as [_ Hx2].
  assert (Hs : (2 ^ (ex + 1) == inject_Z (2 ^ 53) * u)%Q).
  { unfold u. rewrite <- pow2_inject by lia.
    rewrite (pow2_split (ex + 1) 53).
    now replace (ex + 1 - 53) with (ex - 52) by lia. }
  apply Qle_trans with (2 ^ (ex + 1))%Q; [| apply pow2_le; lia].
  rewrite Hs. apply Qmult_le_compat_r; [| lra].
  rewrite <- Zle_Qle. apply roundHalfEven_le.
  apply Qle_shift_div_r; [exact Hu |]. rewrite <- Hs.
  apply Qlt_le_weak, Qlt_le_trans with (2 ^ (binade x + 1))%Q; [exact Hx2 |].
  apply pow2_le. unfold ex. lia.
Qed.

Lemma roundPositive_ge_pow2 (x : Q) :
  (0 < x)%Q -> -1022 <= binade x -> (2 ^ binade x <= roundPositive x)%Q.
Proof.
  intros Hx He. unfold roundPositive, ulp.
  replace (Z.max (binade x) (-1022)) with (binade x) by lia.
  set (u := (2 ^ (binade x - 52))%Q).
  assert (Hu : (0 < u)%Q) by apply pow2_pos.
  destruct (binade_spec x Hx) as [Hx1 _].
  assert (Hs : (2 ^ binade x == inject_Z (2 ^ 52) * u)%Q).
  { unfold u. rewrite <- pow2_inject by lia. apply pow2_split. }
  rewrite Hs. apply Qmult_le_compat_r; [| lra].
  rewrite <- Zle_Qle. apply roundHalfEven_ge.
  apply Qle_shift_div_l; [exact Hu |]. now rewrite <- Hs.
Qed.

Lemma roundPositive_mono (x y : Q) :
  (0 < x)%Q -> (x <= y)%Q -> (roundPositive x <= roundPositive y)%Q.
Proof.
  intros Hx Hxy.
  assert (Hy : (0 < y)%Q) by lra.
  pose proof (binade_mono x y Hx Hxy) as Hb.
  destruct (Z.eq_dec (Z.max (binade x) (-1022)) (Z.max (binade y) (-1022)))
    as [Heq | Hne].
  - unfold roundPositive, ulp. rewrite Heq.
    set (u := (2 ^ (Z.max (binade y) (-1022) - 52))%Q).
    assert (Hu : (0 < u)%Q) by apply pow2_pos.
    apply Qmult_le_compat_r; [| lra].
    rewrite <- Zle_Qle. apply roundHalfEven_mono.
    apply Qmult_le_compat_r; [exact Hxy |].
    apply Qlt_le_weak, Qinv_lt_0_compat, Hu.
  - apply Qle_trans with (2 ^ binade y)%Q.
    + replace (binade y) with (binade y - 1 + 1) by lia.
      apply roundPositive_le_pow2; [exact Hx | lia].
    + apply roundPositive_ge_pow2; [exact Hy | lia].
Qed.

Lemma roundDouble_mono (x y : Q) :
  (x <= y)%Q -> (roundDouble x <= roundDouble y)%Q.
Proof.
  intros Hxy. unfold roundDouble.
  destruct (x ?= 0)%Q eqn:Hx; destruct (y ?= 0)%Q eqn:Hy;
    try apply (proj2 (Qeq_alt _ _)) in Hx;
    try apply (proj2 (Qlt_alt _ _)) in Hx;
    try apply (proj2 (Qgt_alt _ _)) in Hx;
    try apply (proj2 (Qeq_alt _ _)) in Hy;
    try apply (proj2 (Qlt_alt _ _)) in Hy;
    try apply (proj2 (Qgt_alt _ _)) in Hy; try lra.
  - apply roundPositive_nonneg; lra.
  - assert (H := roundPositive_nonneg (- x)). lra.
  - assert (H := roundPositive_mono (- y) (- x)). lra.
  - assert (H := roundPositive_nonneg (- x)).
    assert (H' := roundPositive_nonneg y). lra.
  - apply roundPositive_mono; lra.
Qed.

(** The rounding functions give equal results on equal rationals. *)
Lemma roundHalfEven_comp (x y : Q) :
  (x == y)%Q -> roundHalfEven x = roundHalfEven y.
Proof.
  intros H. unfold roundHalfEven.
  rewrite (Qfloor_comp _ _ H).
  assert (E : (x - inject_Z (Qfloor y) == y - inject_Z (Qfloor y))%Q)
    by (rewrite H; reflexivity).
  now rewrite (Qcompare_comp _ _ E _ _ (Qeq_refl (1 # 2))).
Qed.

Lemma binade_unique (x : Q) (e : Z) :
  (2 ^ e <= x)%Q -> (x < 2 ^ (e + 1))%Q -> binade x = e.
Proof.
  intros H1 H2.
  assert (Hx : (0 < x)%Q) by (pose proof (pow2_pos e); lra).
  destruct (binade_spec x Hx) as [B1 B2].
  assert (A : (2 ^ e < 2 ^ (binade x + 1))%Q) by lra.
  assert (B : (2 ^ binade x < 2 ^ (e + 1))%Q) by lra.
  apply Qpower_lt_compat_l_inv in A; [| reflexivity].
  apply Qpower_lt_compat_l_inv in B; [| reflexivity]. lia.
Qed.

Lemma binade_comp (x y : Q) : (0 < x)%Q -> (x == y)%Q -> binade x = binade y.
Proof.
  intros Hx H. symmetry. destruct (binade_spec x Hx) as [B1 B2].
  apply binade_unique; rewrite <- H; assumption.
Qed.

Lemma roundPositive_comp (x y : Q) :
  (0 < x)%Q -> (x == y)%Q -> (roundPositive x == roundPositive y)%Q.
Proof.
  intros Hx H. unfold roundPositive, ulp. rewrite (binade_comp x y Hx H).
  set (u := (2 ^ _)%Q).
  assert (E : (x / u == y / u)%Q) by (rewrite H; reflexivity).
  now rewrite (roundHalfEven_comp _ _ E).
Qed.

(** The result of a rounding is at most half a spacing away. *)
Lemma roundHalfEven_error (y : Q) :
  (- (1 # 2) <= inject_Z (roundHalfEven y) - y <= 1 # 2)%Q.
Proof.
  pose proof (Qfloor_le y) as H1. pose proof (Qlt_floor y) as H2.
  rewrite inject_Z_plus in H2. change (inject_Z 1) with 1%Q in H2.
  unfold roundHalfEven.
  destruct (y - inject_Z (Qfloor y) ?= 1 # 2)%Q eqn:Hc.
  - apply (proj2 (Qeq_alt _ _)) in Hc.
    destruct (Z.even (Qfloor y));
      [| rewrite inject_Z_plus; change (inject_Z 1) with 1%Q]; lra.
  - apply (proj2 (Qlt_alt _ _)) in Hc. lra.
  - apply (proj2 (Qgt_alt _ _)) in Hc.
    rewrite inject_Z_plus; change (inject_Z 1) with 1%Q. lra.
Qed.

Lemma ulp_pos x : (0 < ulp x)%Q.
Proof. apply pow2_pos. Qed.

Lemma roundPositive_error (x : Q) :
  (- ((1 # 2) * ulp x) <= roundPositive x - x <= (1 # 2) * ulp x)%Q.
Proof.
  pose proof (ulp_pos x) as Hu.
  pose proof (roundHalfEven_error (x / ulp x)) as [H1 H2].
  change (roundPositive x)
    with (inject_Z (roundHalfEven (x / ulp x)) * ulp x)%Q.
  set (u := ulp x) in *.
  set (r := inject_Z (roundHalfEven (x / u))) in *.
  assert (A : (r * u - x == (r - x / u) * u)%Q) by (field; lra).
  rewrite A. split.
  - setoid_replace (- ((1 # 2) * u))%Q with ((- (1 # 2)) * u)%Q
      using relation Qeq by ring.
    apply Qmult_le_compat_r; lra.
  - apply Qmult_le_compat_r; lra.
Qed.

(** When the spacing of the doubles around [x] is at most one, every
    integer is a multiple of it. *)
Lemma ulp_divides (x : Q) (K : Z) :
  Z.max (binade x) (-1022) <= 52 ->
  exists k : Z, (inject_Z K == inject_Z k * ulp x)%Q.
Proof.
  intros He. set (e := Z.max (binade x) (-1022)) in *.
  exists (K * 2 ^ (52 - e)).
  unfold ulp. fold e.
  rewrite inject_Z_mult, <- pow2_inject by lia.
  rewrite <- Qmult_assoc, <- Qpower_plus by discriminate.
  replace (52 - e + (e - 52)) with 0 by lia. rewrite Qpower_0_r. ring.
Qed.

(** Rounding does not cross an integer, then. *)
Lemma roundPositive_grid (x : Q) (K : Z) :
  Z.max (binade x) (-1022) <= 52 ->
  ((inject_Z K <= x)%Q -> (inject_Z K <= roundPositive x)%Q)
  /\ ((x <= inject_Z K)%Q -> (roundPositive x <= inject_Z K)%Q).
Proof.
  intros He. destruct (ulp_divides x K He) as [k Hk].
  pose proof (ulp_pos x) as Hu.
  change (roundPositive x)
    with (inject_Z (roundHalfEven (x / ulp x)) * ulp x)%Q.
  rewrite Hk. split; intros H.
  - apply Qmult_le_compat_r; [| lra]. rewrite <- Zle_Qle.
    apply roundHalfEven_ge. apply Qle_shift_div_l; [exact Hu | exact H].
  - apply Qmult_le_compat_r; [| lra]. rewrite <- Zle_Qle.
    apply roundHalfEven_le. apply Qle_shift_div_r; [exact Hu | exact H].
Qed.

Lemma pow2_lt_inv (a b : Z) : (2 ^ a < 2 ^ b)%Q -> a < b.
Proof.
  intros H. apply Qpower_lt_compat_l_inv in H; [exact H | reflexivity].
Qed.

Lemma pow2_shift (e k : Z) : (2 ^ (e + k) == 2 ^ k * 2 ^ e)%Q.
Proof. rewrite Qpower_plus by discriminate. ring. Qed.

(** The quotient [p] of a positive double [a] by 900. *)
Section QuotientBy900.

Variables a p : Q.
Hypothesis a_double : (roundPositive a == a)%Q.
Hypothesis a_low : (2 ^ (-1000) <= a)%Q.
Hypothesis a_high : (a < 2 ^ 53)%Q.
Hypothesis p_quotient : (p == a / 900)%Q.

Lemma dividend_pos : (0 < a)%Q.
Proof. pose proof (pow2_pos (-1000)). lra. Qed.

Lemma quotient_pos : (0 < p)%Q.
Proof.
  pose proof dividend_pos. rewrite p_quotient. apply Qlt_shift_div_l; lra.
Qed.

Lemma binade_dividend : -1000 <= binade a <= 52.
Proof.
  destruct (binade_spec a dividend_pos) as [H1 H2]. split.
  - assert (H : (2 ^ (-1000) < 2 ^ (binade a + 1))%Q) by lra.
    apply pow2_lt_inv in H. lia.
  - assert (H : (2 ^ binade a < 2 ^ 53)%Q) by lra.
    apply pow2_lt_inv in H. lia.
Qed.

Lemma binade_quotient : -1022 <= binade p <= binade a - 9.
Proof.
  destruct (binade_spec a dividend_pos) as [A1 A2].
  destruct (binade_spec p quotient_pos) as [P1 P2].
  assert (E : (a == 900 * p)%Q) by (rewrite p_quotient; field).
  split.
  - pose proof (pow2_shift (binade p + 1) 10) as S.
    change (2 ^ 10)%Q with 1024%Q in S.
    assert (H : (2 ^ (-1000) < 2 ^ (binade p + 1 + 10))%Q) by lra.
    apply pow2_lt_inv in H. lia.
  - pose proof (pow2_shift (binade p) 9) as S.
    change (2 ^ 9)%Q with 512%Q in S.
    assert (H : (2 ^ (binade p + 9) < 2 ^ (binade a + 1))%Q) by lra.
    apply pow2_lt_inv in H. lia.
Qed.

Lemma ulp_quotient : (512 * ulp p <= ulp a)%Q.
Proof.
  pose proof binade_dividend as Ba. pose proof binade_quotient as Bp. unfold ulp.
  replace (Z.max (binade a) (-1022)) with (binade a) by lia.
  replace (Z.max (binade p) (-1022)) with (binade p) by lia.
  pose proof (pow2_shift (binade p - 52) 9) as S.
  change (2 ^ 9)%Q with 512%Q in S.
  assert (L : (2 ^ (binade p - 52 + 9) <= 2 ^ (binade a - 52))%Q)
    by (apply pow2_le; lia).
  revert S L. generalize (2 ^ (binade p - 52 + 9))%Q (2 ^ (binade p - 52))%Q
    (2 ^ (binade a - 52))%Q.
  intros x y z S L. lra.
Qed.

(** A double that is not [900 * K] is at least one spacing away from
    it. *)
Lemma dividend_gap (K : Z) :
  ((a < 900 * inject_Z K)%Q -> (a + ulp a <= 900 * inject_Z K)%Q)
  /\ ((900 * inject_Z K < a)%Q -> (900 * inject_Z K + ulp a <= a)%Q).
Proof.
  pose proof binade_dividend as Ba. pose proof (ulp_pos a) as Hu.
  destruct (ulp_divides a (900 * K)) as [k Hk]; [lia |].
  rewrite inject_Z_mult in Hk. change (inject_Z 900) with 900%Q in Hk.
  assert (Hm : (a == inject_Z (roundHalfEven (a / ulp a)) * ulp a)%Q)
    by (symmetry; exact a_double).
  set (m := roundHalfEven (a / ulp a)) in *.
  split; intros H.
  - assert (Hlt : m < k).
    { rewrite Zlt_Qlt. apply Qmult_lt_r with (ulp a); [exact Hu |]. lra. }
    assert (Hle : (inject_Z (m + 1) <= inject_Z k)%Q)
      by (rewrite <- Zle_Qle; lia).
    rewrite inject_Z_plus in Hle. change (inject_Z 1) with 1%Q in Hle.
    assert (Hle' : ((inject_Z m + 1) * ulp a <= inject_Z k * ulp a)%Q)
      by (apply Qmult_le_compat_r; lra).
    lra.
  - assert (Hlt : k < m).
    { rewrite Zlt_Qlt. apply Qmult_lt_r with (ulp a); [exact Hu |]. lra. }
    assert (Hle : (inject_Z (k + 1) <= inject_Z m)%Q)
      by (rewrite <- Zle_Qle; lia).
    rewrite inject_Z_plus in Hle. change (inject_Z 1) with 1%Q in Hle.
    assert (Hle' : ((inject_Z k + 1) * ulp a <= inject_Z m * ulp a)%Q)
      by (apply Qmult_le_compat_r; lra).
    lra.
Qed.

(** Rounding the quotient of a double by 900 does not cross an
    integer. *)
Lemma quotient_keeps_side (K : Z) :
  ((inject_Z K <= p)%Q -> (inject_Z K <= roundPositive p)%Q)
  /\ ((p <= inject_Z K)%Q -> (roundPositive p <= inject_Z K)%Q)
  /\ ((p < inject_Z K)%Q -> (roundPositive p < inject_Z K)%Q)
  /\ ((inject_Z K < p)%Q -> (inject_Z K < roundPositive p)%Q).
Proof.
  pose proof binade_dividend as Ba. pose proof binade_quotient as Bp.
  pose proof ulp_quotient as Hup. pose proof (ulp_pos a) as Hua.
  pose proof (ulp_pos p) as Hupp.
  pose proof (roundPositive_error p) as [E1 E2].
  destruct (roundPositive_grid p K) as [G1 G2]; [lia |].
  destruct (dividend_gap K) as [A1 A2].
  assert (E : (a == 900 * p)%Q) by (rewrite p_quotient; field).
  repeat split; [exact G1 | exact G2 | |]; intros H.
  - assert (A : (a + ulp a <= 900 * inject_Z K)%Q) by (apply A1; lra). lra.
  - assert (A : (900 * inject_Z K + ulp a <= a)%Q) by (apply A2; lra). lra.
Qed.

End QuotientBy900.

Lemma Qfloor_unique (y : Q) (n : Z) :
  (inject_Z n <= y)%Q -> (y < inject_Z (n + 1))%Q -> Qfloor y = n.
Proof.
  intros H1 H2.
  pose proof (Qfloor_resp_le _ _ H1) as A. rewrite Qfloor_Z in A.
  pose proof (Qfloor_le y) as B.
  assert (C : (inject_Z (Qfloor y) < inject_Z (n + 1))%Q) by lra.
  rewrite <- Zlt_Qlt in C. lia.
Qed.

(** [Math.floor(top / 900)] in the arithmetic of doubles is the floor of
    the exact quotient. *)
Lemma floor_of_double_quotient (top : Q) :
  isDouble top ->
  (top == 0 \/ 2 ^ (-1000) <= top \/ top <= - 2 ^ (-1000))%Q ->
  (- 2 ^ 53 < top < 2 ^ 53)%Q ->
  Qfloor (roundDouble (top / 900)) = Server.pageNum top.
Proof.
  unfold isDouble, Server.pageNum. intros Hd Hr [Hl Hh].
  pose proof (pow2_pos (-1000)) as Hp.
  pose proof (Qfloor_le (top / 900)) as F1.
  pose proof (Qlt_floor (top / 900)) as F2.
  set (n := Qfloor (top / 900)) in *.
  unfold roundDouble in *.
  destruct (top ?= 0)%Q eqn:Hc.
  - apply (proj2 (Qeq_alt _ _)) in Hc.
    assert (E : (top / 900 == 0)%Q) by (rewrite Hc; reflexivity).
    rewrite (proj1 (Qeq_alt _ _) E).
    apply Qfloor_unique; lra.
  - apply (proj2 (Qlt_alt _ _)) in Hc.
    assert (Hq : (top / 900 < 0)%Q).
    { apply Qlt_shift_div_r; lra. }
    rewrite (proj1 (Qlt_alt _ _) Hq).
    assert (Hd' : (roundPositive (- top) == - top)%Q) by lra.
    assert (Hlow : (2 ^ (-1000) <= - top)%Q) by lra.
    assert (Hhigh : (- top < 2 ^ 53)%Q) by lra.
    assert (E : (- (top / 900) == - top / 900)%Q) by field.
    assert (Hpos : (0 < - (top / 900))%Q) by lra.
    pose proof (roundPositive_comp _ _ Hpos E) as R.
    pose proof (quotient_keeps_side (- top) (- top / 900) Hd' Hlow Hhigh
                  (Qeq_refl _)) as K.
    destruct (K (- n)) as (_ & K2 & _ & _).
    destruct (K (- (n + 1))) as (_ & _ & _ & K4).
    rewrite inject_Z_opp in K2, K4.
    apply Qfloor_unique; rewrite R.
    + assert (A : (roundPositive (- top / 900) <= - inject_Z n)%Q)
        by (apply K2; lra).
      lra.
    + assert (A : (- inject_Z (n + 1) < roundPositive (- top / 900))%Q)
        by (apply K4; lra).
      lra.
  - apply (proj2 (Qgt_alt _ _)) in Hc.
    assert (Hq : (0 < top / 900)%Q).
    { apply Qlt_shift_div_l; lra. }
    rewrite (proj1 (Qgt_alt _ _) Hq).
    assert (Hlow : (2 ^ (-1000) <= top)%Q) by lra.
    pose proof (quotient_keeps_side top (top / 900) Hd Hlow Hh (Qeq_refl _))
      as K.
    destruct (K n) as (K1 & _ & _ & _).
    destruct (K (n + 1)) as (_ & _ & K3 & _).
    apply Qfloor_unique; [apply K1; lra | apply K3; lra].
Qed.

(** ** The page locator (C3, C4, C9) *)

Lemma Qfloor_div_mono (a b c : Q) :
  (0 < c)%Q -> (a <= b)%Q -> Qfloor (a / c) <= Qfloor (b / c).
Proof.
  intros Hc Hab. apply Qfloor_resp_le. unfold Qdiv.
  apply Qmult_le_compat_r; [exact Hab |].
  apply Qlt_le_weak, Qinv_lt_0_compat, Hc.
Qed.

Lemma Qfloor_div_nonneg (a c : Q) :
  (0 < c)%Q -> (0 <= a)%Q -> 0 <= Qfloor (a / c).
Proof.
  intros Hc Ha. change 0 with (Qfloor (0 / c)).
  now apply Qfloor_div_mono.
Qed.

Lemma jsAt_in_range {A} (arr : list A) (i : Z) :
  0 <= i < Z.of_nat (length arr) -> is_Some (jsAt arr i).
Proof.
  intros [H0 H1]. unfold jsAt.
  destruct (Z.ltb_spec i 0); [lia |].
  apply lookup_lt_is_Some. lia.
Qed.

Lemma jsAt_negative {A} (arr : list A) (i : Z) : i < 0 -> jsAt arr i = None.
Proof. intros H. unfold jsAt. destruct (Z.ltb_spec i 0); [reflexivity | lia]. Qed.

(** The page number of src/unnamed/part_002 grows with the offset. *)
Lemma part002_pageNum_mono (a b : Q) :
  (a <= b)%Q -> Part002.pageNum a <= Part002.pageNum b.
Proof.
  intros H. apply Qfloor_resp_le, roundDouble_mono.
  apply Qmult_le_compat_r; [exact H |].
  apply Qlt_le_weak, Qinv_lt_0_compat. reflexivity.
Qed.

(** In src/unnamed/part_002 the index stays inside the page array. *)
Lemma part002_index_in_bounds top (pages : list PDFPage) :
  pages <> [] ->
  0 <= Part002.targetPageIdx top pages < Z.of_nat (length pages)
  /\ is_Some (jsAt pages (Part002.targetPageIdx top pages)).
Proof.
  intros Hne.
  assert (Hlen : (0 < length pages)%nat)
    by (destruct pages; simpl; [congruence | lia]).
  assert (H : 0 <= Part002.targetPageIdx top pages < Z.of_nat (length pages))
    by (unfold Part002.targetPageIdx; lia).
  split; [exact H | now apply jsAt_in_range].
Qed.

(** In src/server/md2pdf-converter.js the index stays inside the page
    array for the offsets that are not negative. *)
Lemma server_index_in_bounds top (pages : list PDFPage) :
  pages <> [] -> (0 <= top)%Q ->
  0 <= Server.pageIdx top pages < Z.of_nat (length pages)
  /\ is_Some (jsAt pages (Server.pageIdx top pages)).
Proof.
  intros Hne Htop.
  assert (Hlen : (0 < length pages)%nat)
    by (destruct pages; simpl; [congruence | lia]).
  assert (Hp : 0 <= Server.pageNum top)
    by (apply Qfloor_div_nonneg; [reflexivity | exact Htop]).
  assert (H : 0 <= Server.pageIdx top pages < Z.of_nat (length pages))
    by (unfold Server.pageIdx; lia).
  split; [exact H | now apply jsAt_in_range].
Qed.

(** The two scripts disagree on the page of the same offset: at 850, on
    two A4 pages, the server script selects page 0 and part_002 page 1; no
    page height makes the clamped floor agree with both. *)
Lemma scripts_disagree_on_divisor :
  let pages := [a4Page 1; a4Page 2] in
  Server.pageIdx 850 pages = 0 /\ Part002.targetPageIdx 850 pages = 1
  /\ ~ exists H : Q,
        Server.pageIdx 850 pages = locateSpec 850 H (length pages)
        /\ Part002.targetPageIdx 850 pages = locateSpec 850 H (length pages).
Proof.
  split; [reflexivity |]. split; [reflexivity |].
  intros [H [H1 H2]].
  change (Server.pageIdx 850 [a4Page 1; a4Page 2]) with 0 in H1.
  change (Part002.targetPageIdx 850 [a4Page 1; a4Page 2]) with 1 in H2.
  congruence.
Qed.

(** C3, evaluated on the server script, on A4 pages (841.89 points high).
    For the offset -1 and one page, lines 57-58 give the index -1 where
    the floor of the offset over the page height, clamped to the page
    range, is 0: the lower bound is not applied.  For the offset 850 and
    two pages they give the index 0 where the clamped floor is 1: the
    divisor 900 is not the page height.  src/unnamed/part_002 gives 0 and
    1. *)
Theorem server_locator_not_clamped_floor :
  (Server.pageIdx (-1) [a4Page 1] = -1
   /\ locateSpec (-1) (pg_height (a4Page 1)) 1 = 0
   /\ Part002.targetPageIdx (-1) [a4Page 1] = 0)
  /\ (Server.pageIdx 850 [a4Page 1; a4Page 2] = 0
      /\ locateSpec 850 (pg_height (a4Page 1)) 2 = 1
      /\ Part002.targetPageIdx 850 [a4Page 1; a4Page 2] = 1).
Proof. repeat split. Qed.

(** C4, evaluated on the server script: for the offset -1 and a document
    of one page, line 57 computes page number -1, line 58 keeps it (only
    the upper bound is applied), and [pages[-1]] is [undefined]. *)
Theorem server_index_negative_offset :
  Server.pageNum (-1) = -1
  /\ Server.pageIdx (-1) [a4Page 1] = -1
  /\ jsAt [a4Page 1] (Server.pageIdx (-1) [a4Page 1]) = None
  /\ Part002.targetPageIdx (-1) [a4Page 1] = 0.
Proof. repeat split. Qed.

(** C9: with the page array fixed, a larger offset never selects an
    earlier page, in either script. *)
Theorem locator_monotone (a b : Q) (pages : list PDFPage) :
  (a < b)%Q ->
  Server.pageIdx a pages <= Server.pageIdx b pages
  /\ Part002.targetPageIdx a pages <= Part002.targetPageIdx b pages.
Proof.
  intros Hab. apply Qlt_le_weak in Hab.
  assert (H1 : Server.pageNum a <= Server.pageNum b)
    by (apply Qfloor_div_mono; [reflexivity | exact Hab]).
  assert (H2 : Part002.pageNum a <= Part002.pageNum b)
    by (apply part002_pageNum_mono, Hab).
  unfold Server.pageIdx, Part002.targetPageIdx. lia.
Qed.

Lemma locator_monotone_witness :
  (100 < 2000)%Q
  /\ Server.pageIdx 100 [a4Page 1; a4Page 2; a4Page 3]
     <= Server.pageIdx 2000 [a4Page 1; a4Page 2; a4Page 3]
  /\ Part002.targetPageIdx 100 [a4Page 1; a4Page 2; a4Page 3]
     <= Part002.targetPageIdx 2000 [a4Page 1; a4Page 2; a4Page 3].
Proof.
  split; [reflexivity |].
  apply (locator_monotone 100 2000 [a4Page 1; a4Page 2; a4Page 3]).
  reflexivity.
Defined.

(** The page number of src/unnamed/part_002 against the floor of the exact
    quotient by 841.89: for an offset from 0 to 2^53 it is that floor or
    the next integer; for a negative offset neither is positive. *)
Lemma part002_pageNum_near_floor (top : Q) :
  (top < 2 ^ 53)%Q ->
  ((0 <= top)%Q ->
   Qfloor (top / (84189 # 100)) <= Part002.pageNum top
   <= Qfloor (top / (84189 # 100)) + 1)
  /\ ((top < 0)%Q ->
      Qfloor (top / (84189 # 100)) < 0 /\ Part002.pageNum top <= 0).
Proof.
  intros Hh. change (2 ^ 53)%Q with 9007199254740992%Q in Hh.
  unfold Part002.pageNum.
  change (roundDouble (84189 # 100))
    with (7405342754466693 # 8796093022208)%Q.
  set (x := (top / (84189 # 100))%Q).
  set (y := (top / (7405342754466693 # 8796093022208))%Q).
  assert (Ex : (x == (100 # 84189) * top)%Q) by (unfold x; field).
  assert (Ey : (y == (8796093022208 # 7405342754466693) * top)%Q)
    by (unfold y; field).
  pose proof (Qfloor_le x) as F1. pose proof (Qlt_floor x) as F2.
  rewrite inject_Z_plus in F2. change (inject_Z 1) with 1%Q in F2.
  set (n := Qfloor x) in *.
  split.
  - intros H0.
    assert (Hxy : (x <= y)%Q) by lra.
    assert (Hyx : (y < x + (1 # 4))%Q) by lra.
    destruct (Qlt_le_dec 0 y) as [Hy | Hy].
    + unfold roundDouble. rewrite (proj1 (Qgt_alt _ _) Hy).
      destruct (binade_spec y Hy) as [B1 _].
      assert (Hb : binade y <= 43).
      { assert (H : (2 ^ binade y < 2 ^ 44)%Q).
        { change (2 ^ 44)%Q with 17592186044416%Q. lra. }
        apply pow2_lt_inv in H. lia. }
      destruct (roundPositive_grid y n) as [G1 _]; [lia |].
      pose proof (roundPositive_error y) as [_ E2].
      assert (Hu : (ulp y <= 2 ^ (-9))%Q) by (apply pow2_le; lia).
      change (2 ^ (-9))%Q with (1 # 512)%Q in Hu.
      assert (L : (inject_Z n <= roundPositive y)%Q) by (apply G1; lra).
      assert (U : (roundPositive y < inject_Z (n + 1 + 1))%Q).
      { rewrite !inject_Z_plus. change (inject_Z 1) with 1%Q. lra. }
      apply Qfloor_resp_le in L. rewrite Qfloor_Z in L.
      pose proof (Qfloor_le (roundPositive y)) as F3.
      assert (C : (inject_Z (Qfloor (roundPositive y)) < inject_Z (n + 1 + 1))%Q)
        by lra.
      rewrite <- Zlt_Qlt in C. lia.
    + assert (E0 : (y == 0)%Q) by lra.
      unfold roundDouble. rewrite (proj1 (Qeq_alt _ _) E0).
      assert (En : n = 0).
      { apply Qfloor_unique; [change (inject_Z 0) with 0%Q
                             | change (inject_Z (0 + 1)) with 1%Q]; lra. }
      change (Qfloor 0) with 0. lia.
  - intros H0. split.
    + assert (C : (inject_Z n < inject_Z 0)%Q)
        by (change (inject_Z 0) with 0%Q; lra).
      now rewrite <- Zlt_Qlt in C.
    + assert (Hy : (y < 0)%Q) by lra.
      unfold roundDouble. rewrite (proj1 (Qlt_alt _ _) Hy).
      pose proof (roundPositive_nonneg (- y)) as P.
      assert (C : (- roundPositive (- y) <= inject_Z 0)%Q)
        by (change (inject_Z 0) with 0%Q; lra).
      apply Qfloor_resp_le in C. now rewrite Qfloor_Z in C.
Qed.

(** X7: the index expression of each script against the clamped floor of
    the exact quotient, for an offset that is 0 or a double of a
    magnitude from 2^-1000 to 2^53 and a non-empty page array.  In the
    server script the floor of the quotient of the doubles is the floor of
    the exact quotient by 900; the index is never above pages.length - 1
    and, for an offset that is not negative, it is floor(top / 900)
    clamped to [0 .. pages.length - 1].  In src/unnamed/part_002 the index
    is floor(top / 841.89) clamped to [0 .. pages.length - 1] or the next
    index, and the next index does occur: the literal denotes a double
    below 841.89, and at the offset that is this double, on two pages,
    the script selects index 1 where the clamped floor is 0. *)
Theorem locator_constant_divisor top (pages : list PDFPage) :
  pages <> [] -> isDouble top ->
  (top == 0 \/ 2 ^ (-1000) <= top \/ top <= - 2 ^ (-1000))%Q ->
  (- 2 ^ 53 < top < 2 ^ 53)%Q ->
  (Z.min (Qfloor (roundDouble (top / 900))) (Z.of_nat (length pages) - 1)
   = Server.pageIdx top pages
   /\ Server.pageIdx top pages <= Z.of_nat (length pages) - 1
   /\ ((0 <= top)%Q ->
       Server.pageIdx top pages = locateSpec top 900 (length pages)))
  /\ (locateSpec top (84189 # 100) (length pages)
      <= Part002.targetPageIdx top pages
      <= locateSpec top (84189 # 100) (length pages) + 1)
  /\ (let top := roundDouble (84189 # 100) in
      (top < 84189 # 100)%Q
      /\ Part002.targetPageIdx top [a4Page 1; a4Page 2] = 1
      /\ locateSpec top (84189 # 100) 2 = 0).
Proof.
  intros Hne Hd Hr Hb.
  assert (Hlen : (0 < length pages)%nat)
    by (destruct pages; simpl; [congruence | lia]).
  split; [| split].
  - split; [| split].
    + unfold Server.pageIdx.
      now rewrite (floor_of_double_quotient top Hd Hr Hb).
    + unfold Server.pageIdx. lia.
    + intros Htop.
      assert (Hp : 0 <= Qfloor (top / 900))
        by (apply Qfloor_div_nonneg; [reflexivity | exact Htop]).
      unfold Server.pageIdx, locateSpec, clamp, Server.pageNum.
      destruct (Z.ltb_spec (Qfloor (top / 900)) 0);
        destruct (Z.ltb_spec (Z.of_nat (length pages) - 1)
                    (Qfloor (top / 900))); lia.
  - destruct (part002_pageNum_near_floor top (proj2 Hb)) as [Hpos Hneg].
    unfold Part002.targetPageIdx, locateSpec, clamp.
    destruct (Qlt_le_dec top 0) as [H0 | H0].
    + destruct (Hneg H0) as [N1 N2].
      destruct (Z.ltb_spec (Qfloor (top / (84189 # 100))) 0); lia.
    + specialize (Hpos H0).
      destruct (Z.ltb_spec (Qfloor (top / (84189 # 100))) 0);
        destruct (Z.ltb_spec (Z.of_nat (length pages) - 1)
                    (Qfloor (top / (84189 # 100)))); lia.
  - repeat split.
Qed.

Lemma locator_constant_divisor_witness :
  [a4Page 1; a4Page 2] <> []
  /\ isDouble 1000
  /\ Z.min (Qfloor (roundDouble (1000 / 900))) 1 = 1
  /\ Server.pageIdx 1000 [a4Page 1; a4Page 2] = 1
  /\ Part002.targetPageIdx 1000 [a4Page 1; a4Page 2] = 1.
Proof.
  assert (Hd : isDouble 1000) by (vm_compute; reflexivity).
  assert (Hr : (1000 == 0 \/ 2 ^ (-1000) <= 1000 \/ 1000 <= - 2 ^ (-1000))%Q)
    by (right; left; vm_compute; discriminate).
  assert (Hb : (- 2 ^ 53 < 1000 < 2 ^ 53)%Q)
    by (split; vm_compute; reflexivity).
  split; [discriminate |]. split; [exact Hd |].
  destruct (locator_constant_divisor 1000 [a4Page 1; a4Page 2])
    as ((H1 & _ & H3) & _ & _); [discriminate | exact Hd | exact Hr | exact Hb |].
  split; [reflexivity |].
  split; [rewrite H3; [reflexivity | discriminate] | reflexivity].
Defined.

(** ** The outline synthesizer (C1, C8) *)

Lemma nextRefs_spec n : forall d,
  nextRefs n d =
  (seq (S (largestObjectNumber d)) n,
   mkDoc (n + largestObjectNumber d) (indirectObjects d) (catalog d) (pages d)
     (trailerInfo d)).
Proof.
  induction n as [| n IH]; intros [L objs cat pgs info]; [reflexivity |].
  cbn [nextRefs nextRef]. rewrite IH. cbn.
  do 3 f_equal. lia.
Qed.

(** A loop whose [i]-th turn assigns [o i] to the reference [r i], for
    pairwise distinct references: the result holds every [o i] under
    [r i] and is otherwise the document it started from. *)
Lemma forLoop_assigns body (r : nat -> nat) (o : nat -> PDFObject) n :
  forall start d,
  (forall i d0, (start <= i < start + n)%nat ->
                body i d0 = Ok (assign (r i) (o i) d0)) ->
  (forall i j, (start <= i < start + n)%nat -> (start <= j < start + n)%nat ->
               r i = r j -> i = j) ->
  exists d',
    forLoop n start body d = Ok d'
    /\ catalog d' = catalog d /\ pages d' = pages d
    /\ trailerInfo d' = trailerInfo d
    /\ (forall i, (start <= i < start + n)%nat ->
                  indirectObjects d' !! r i = Some (o i))
    /\ (forall k, (forall i, (start <= i < start + n)%nat -> k <> r i) ->
                  indirectObjects d' !! k = indirectObjects d !! k).
Proof.
  induction n as [| n IH]; intros start d Hbody Hinj.
  - exists d. split; [reflexivity |]. split; [reflexivity |].
    split; [reflexivity |]. split; [reflexivity |].
    split; [intros i Hi; lia | reflexivity].
  - cbn [forLoop]. rewrite Hbody by lia. cbn [bindR].
    destruct (IH (S start) (assign (r start) (o start) d))
      as (d' & Hrun & Hcat & Hpg & Hinfo & Hin & Hout).
    { intros i d0 Hi. apply Hbody. lia. }
    { intros i j Hi Hj. apply Hinj; lia. }
    exists d'. split; [exact Hrun |]. split; [exact Hcat |].
    split; [exact Hpg |]. split; [exact Hinfo |]. split.
    + intros i Hi. destruct (decide (i = start)) as [-> | Hne].
      * rewrite Hout.
        -- cbn. apply lookup_insert_eq.
        -- intros j Hj Heq. apply Hinj in Heq; lia.
      * apply Hin. lia.
    + intros k Hk. rewrite Hout by (intros i Hi; apply Hk; lia).
      cbn. apply lookup_insert_ne. intros Heq. apply (Hk start); [lia | congruence].
Qed.

Lemma itemDict_entries (title parent dest : PDFObject) (prev next : option PDFObject) :
  let m := objDict [("Title", Some title); ("Parent", Some parent);
                    ("Dest", Some dest); ("Prev", prev); ("Next", next)] in
  m !! "Title" = Some title /\ m !! "Parent" = Some parent
  /\ m !! "Dest" = Some dest /\ m !! "Prev" = prev /\ m !! "Next" = next.
Proof.
  destruct prev, next; cbn; repeat split; by simplify_map_eq.
Qed.

Lemma nonempty_length {A} (l : list A) : l <> [] -> (0 < length l)%nat.
Proof. destruct l; simpl; [congruence | lia]. Qed.

(** Whenever every page lookup of the loop succeeds, the synthesizer
    turns the loaded document into one that carries the flat outline of
    the bookmarks: a fresh root, one fresh node per bookmark in input
    order, titled by the name pdf-lib makes of the bookmark's title,
    linked as a doubly linked sibling chain below the root; the catalog
    gets the [Outlines] key, and the pages, the trailer and every other
    object are as they were. *)
Lemma addBookmarks_outline pageIdx (d : PDFDocument) (bookmarks : list Bookmark) :
  pages d <> [] -> bookmarks <> [] ->
  (forall b, b ∈ bookmarks ->
             is_Some (jsAt (pages d) (pageIdx (bm_top b) (pages d)))) ->
  let L := largestObjectNumber d in
  let N := length bookmarks in
  exists d',
    addBookmarks pageIdx d bookmarks = Ok d'
    /\ IsOutline d' (S L) (seq (S (S L)) N)
         (decodeName <$> (bm_title <$> bookmarks))
    /\ pages d' = pages d
    /\ (forall k, (k <= L)%nat \/ (S L + N < k)%nat ->
                  indirectObjects d' !! k = indirectObjects d !! k)
    /\ (forall i b, bookmarks !! i = Some b ->
          exists page page0,
            jsAt (pages d) (pageIdx (bm_top b) (pages d)) = Some page
            /\ pages d !! 0%nat = Some page0
            /\ entry d' (S (S L) + i) "Dest"
               = Some (PDFArray [PDFRef (pg_ref page); PDFName "XYZ"; PDFNull;
                                 PDFNumber (pg_height page0); PDFNull]))
    /\ catalog d' = <["Outlines" := PDFRef (S L)]> (catalog d)
    /\ trailerInfo d' = trailerInfo d.
Proof.
  intros Hpages Hbm Hlook L N.
  pose proof (nonempty_length _ Hbm) as HN. fold N in HN.
  destruct (pages d) as [| page0 pgs] eqn:Epages; [congruence |].
  unfold addBookmarks. rewrite Epages.
  destruct (Nat.eqb_spec (length bookmarks) 0) as [E0 | _]; [fold N in E0; lia |].
  cbn [lookup list_lookup defined bindR].
  cbn [nextRef]. rewrite nextRefs_spec.
  cbn [largestObjectNumber indirectObjects catalog pages trailerInfo]. fold L N.
  set (refs := seq (S (S L)) N).
  set (d2 := mkDoc (N + S L) (indirectObjects d) (catalog d) (pages d)
               (trailerInfo d)).
  set (body := itemBody pageIdx (page0 :: pgs) (pg_height page0) (S L) refs bookmarks).
  set (o := fun i : nat =>
    match bookmarks !! i with
    | Some b =>
        match jsAt (page0 :: pgs) (pageIdx (bm_top b) (page0 :: pgs)) with
        | Some page =>
            PDFDict (objDict
              [ ("Title", Some (PDFName_of (bm_title b)));
                ("Parent", Some (PDFRef (S L)));
                ("Dest", Some (PDFArray [PDFRef (pg_ref page); PDFName "XYZ";
                                         PDFNull; PDFNumber (pg_height page0);
                                         PDFNull]));
                ("Prev", if (0 <? i)%nat then PDFRef <$> refs !! (i - 1)%nat
                         else None);
                ("Next", if (i <? N - 1)%nat then PDFRef <$> refs !! (i + 1)%nat
                         else None) ])
        | None => PDFNull
        end
    | None => PDFNull
    end).
  destruct (forLoop_assigns body (fun i => S (S L) + i)%nat o N 0%nat d2)
    as (d3 & Hrun & Hcat & Hpg & Hinfo & Hin & Hout).
  { intros i d0 Hi. unfold body, itemBody, o.
    destruct (lookup_lt_is_Some_2 bookmarks i) as [b Hb]; [fold N; lia |].
    rewrite Hb. cbn [defined bindR].
    destruct (Hlook b) as [page Hpage]; [eapply list_elem_of_lookup_2, Hb |].
    rewrite Hpage. cbn [defined bindR].
    assert (Hr : refs !! i = Some (S (S L) + i)%nat)
      by (apply lookup_seq_lt; lia).
    rewrite Hr. reflexivity. }
  { intros i j _ _ Hij. lia. }
  rewrite Hrun. cbn [bindR].
  assert (Hfirst : refs !! 0%nat = Some (S (S L)))
    by (unfold refs; rewrite lookup_seq_lt by lia; f_equal; lia).
  assert (Hlen : length refs = N) by apply length_seq.
  assert (Hlast : refs !! (N - 1)%nat = Some (S (S L) + (N - 1))%nat)
    by (apply lookup_seq_lt; lia).
  rewrite Hfirst, Hlen, Hlast. cbn [defined bindR].
  eexists. split; [reflexivity |].
  set (rootDict := <["Count":=_]> _).
  set (d' := catalogSet _ _ _).
  assert (Hroot : dictAt d' (S L) = Some rootDict).
  { unfold dictAt, d'. cbn. now rewrite lookup_insert_eq. }
  assert (Hnode : forall i, (i < N)%nat ->
            indirectObjects d' !! (S (S L) + i)%nat = Some (o i)).
  { intros i Hi. unfold d'. cbn.
    rewrite lookup_insert_ne by lia. apply Hin. lia. }
  assert (Hfields : forall i r, refs !! i = Some r ->
    exists b page,
      bookmarks !! i = Some b
      /\ jsAt (page0 :: pgs) (pageIdx (bm_top b) (page0 :: pgs)) = Some page
      /\ entry d' r "Title" = Some (PDFName (decodeName (bm_title b)))
      /\ entry d' r "Parent" = Some (PDFRef (S L))
      /\ entry d' r "Dest"
         = Some (PDFArray [PDFRef (pg_ref page); PDFName "XYZ"; PDFNull;
                           PDFNumber (pg_height page0); PDFNull])
      /\ entry d' r "Prev"
         = (if (0 <? i)%nat then PDFRef <$> refs !! (i - 1)%nat else None)
      /\ entry d' r "Next"
         = (if (i <? N - 1)%nat then PDFRef <$> refs !! (i + 1)%nat else None)).
  { intros i r Hr. apply lookup_seq in Hr as [-> Hi].
    destruct (lookup_lt_is_Some_2 bookmarks i) as [b Hb]; [fold N; lia |].
    destruct (Hlook b) as [page Hpage]; [eapply list_elem_of_lookup_2, Hb |].
    exists b, page. split; [exact Hb |]. split; [exact Hpage |].
    unfold entry, dictAt. rewrite (Hnode i Hi). unfold o. rewrite Hb, Hpage.
    apply itemDict_entries. }
  split; [| split; [| split; [| split; [| split]]]].
  - constructor.
    + unfold d'. cbn. apply lookup_insert_eq.
    + unfold entry. rewrite Hroot. unfold rootDict. cbn. by simplify_map_eq.
    + unfold entry. rewrite Hroot, Hlen. unfold rootDict. by simplify_map_eq.
    + unfold entry. rewrite Hroot, Hfirst. unfold rootDict. cbn. by simplify_map_eq.
    + unfold entry. rewrite Hroot, Hlen, Hlast. unfold rootDict. cbn.
      by simplify_map_eq.
    + intros i r Hr. destruct (Hfields i r Hr) as (b & page & _ & _ & _ & H & _).
      exact H.
    + intros i r Hr.
      destruct (Hfields i r Hr) as (b & page & _ & _ & _ & _ & _ & H & _).
      rewrite H. destruct i as [| j]; [reflexivity |].
      cbn [Nat.ltb Nat.leb]. now rewrite Nat.sub_1_r.
    + intros i r Hr.
      destruct (Hfields i r Hr) as (b & page & _ & _ & _ & _ & _ & _ & H).
      rewrite H. apply lookup_seq in Hr as [_ Hi].
      destruct (Nat.ltb_spec i (N - 1)).
      * now rewrite Nat.add_1_r.
      * unfold refs. rewrite (lookup_seq_ge _ _ (S i)) by lia. reflexivity.
    + intros i r Hr.
      destruct (Hfields i r Hr) as (b & page & Hb & _ & H & _).
      rewrite H, !list_lookup_fmap, Hb. reflexivity.
    + change (NoDup (seq (S L) (S N))). apply NoDup_seq.
  - unfold d'. cbn. rewrite Hpg. exact Epages.
  - intros k Hk. unfold d'. cbn. rewrite lookup_insert_ne by lia.
    rewrite Hout; [reflexivity |]. intros i Hi. lia.
  - intros i b Hb.
    assert (Hi : (i < N)%nat) by (eapply lookup_lt_Some, Hb).
    destruct (Hfields i (S (S L) + i)%nat) as (b' & page & Hb' & Hpage & _ & _ & H & _);
      [apply lookup_seq_lt; lia |].
    rewrite Hb in Hb'. injection Hb' as <-.
    exists page, page0. split; [exact Hpage |]. split; [reflexivity | exact H].
  - unfold d'. cbn. now rewrite Hcat.
  - unfold d'. cbn. exact Hinfo.
Qed.
(** ** Loading and saving a document *)

Lemma infoSet_withInfo r e d key value :
  infoSet key value (withInfo r e d) = withInfo r (<[key := value]> e) d.
Proof.
  unfold infoSet, getInfoDict, withInfo, dictSet.
  cbn [trailerInfo indirectObjects largestObjectNumber catalog pages].
  rewrite lookup_insert_eq.
  cbn [trailerInfo indirectObjects largestObjectNumber catalog pages].
  rewrite lookup_insert_eq. now rewrite insert_insert_eq.
Qed.

Lemma infoHas_withInfo r e d key :
  infoHas r key (withInfo r e d) = bool_decide (is_Some (e !! key)).
Proof.
  unfold infoHas, withInfo. cbn [indirectObjects].
  now rewrite lookup_insert_eq.
Qed.

Lemma updateInfoDict_withInfo r e d :
  getInfoDict (withInfo r e d) = (r, withInfo r e d)
  /\ updateInfoDict (withInfo r e d) = withInfo r (loadedInfo e) d.
Proof.
  assert (Hget : getInfoDict (withInfo r e d) = (r, withInfo r e d)).
  { unfold getInfoDict, withInfo. cbn [trailerInfo indirectObjects].
    now rewrite lookup_insert_eq. }
  split; [exact Hget |].
  unfold updateInfoDict. rewrite Hget.
  rewrite !infoSet_withInfo, !infoHas_withInfo. unfold loadedInfo.
  rewrite !lookup_insert_ne by discriminate.
  destruct (e !! "Creator") as [c |] eqn:Hc.
  - rewrite bool_decide_eq_true_2 by eauto.
    rewrite infoHas_withInfo, infoSet_withInfo, !lookup_insert_ne by discriminate.
    destruct (e !! "CreationDate") as [t |] eqn:Ht.
    + now rewrite bool_decide_eq_true_2 by eauto.
    + now rewrite bool_decide_eq_false_2 by (intros [x Hx]; discriminate).
  - rewrite bool_decide_eq_false_2 by (intros [x Hx]; discriminate).
    rewrite infoHas_withInfo, infoSet_withInfo, !lookup_insert_ne by discriminate.
    destruct (e !! "CreationDate") as [t |] eqn:Ht.
    + now rewrite bool_decide_eq_true_2 by eauto.
    + now rewrite bool_decide_eq_false_2 by (intros [x Hx]; discriminate).
Qed.

(** A buffer with an information dictionary keeps it, rewritten. *)
Lemma load_existing d r e :
  trailerInfo d = Some r -> indirectObjects d !! r = Some (PDFDict e) ->
  load d = withInfo r (loadedInfo e) d.
Proof.
  intros Ht Ho.
  assert (Hd : d = withInfo r e d).
  { destruct d as [L objs cat pgs info]. cbn in Ht, Ho. subst info.
    unfold withInfo. cbn. now rewrite insert_id. }
  unfold load. rewrite Hd at 1. apply updateInfoDict_withInfo.
Qed.

(** A buffer without one gets a new one, under the next number. *)
Lemma load_fresh d :
  infoDict d = None ->
  load d = withInfo (S (largestObjectNumber d)) (loadedInfo ∅)
             (mkDoc (S (largestObjectNumber d)) (indirectObjects d)
                (catalog d) (pages d) (trailerInfo d)).
Proof.
  intros Hnone.
  assert (Hget : getInfoDict d
                 = (S (largestObjectNumber d),
                    withInfo (S (largestObjectNumber d)) ∅
                      (mkDoc (S (largestObjectNumber d)) (indirectObjects d)
                         (catalog d) (pages d) (trailerInfo d)))).
  { unfold getInfoDict, infoDict, dictAt in *.
    destruct (trailerInfo d) as [r |].
    - destruct (indirectObjects d !! r) as [[] |]; try discriminate;
        unfold register, nextRef, assign, withInfo; cbn;
        now rewrite Nat.max_id.
    - unfold register, nextRef, assign, withInfo; cbn.
      now rewrite Nat.max_id. }
  unfold load, updateInfoDict. rewrite Hget.
  destruct (updateInfoDict_withInfo (S (largestObjectNumber d)) ∅
              (mkDoc (S (largestObjectNumber d)) (indirectObjects d)
                 (catalog d) (pages d) (trailerInfo d))) as [Hg Hu].
  unfold updateInfoDict in Hu. rewrite Hg in Hu. exact Hu.
Qed.

(** What loading keeps and what it changes: the pages and the catalog
    are kept; the trailer refers to the information dictionary, which is
    as [loadedInfo] says; every other object is kept; the counter of the
    context moves by at most one. *)
Lemma load_spec d :
  pages (load d) = pages d
  /\ catalog (load d) = catalog d
  /\ (exists info,
        trailerInfo (load d) = Some info
        /\ dictAt (load d) info = Some (loadedInfo (infoEntries d))
        /\ (forall k, k <> info ->
                      indirectObjects (load d) !! k = indirectObjects d !! k)
        /\ match infoDict d with
           | Some _ => trailerInfo d = Some info
                       /\ largestObjectNumber (load d) = largestObjectNumber d
           | None => info = S (largestObjectNumber d)
                     /\ largestObjectNumber (load d) = S (largestObjectNumber d)
           end).
Proof.
  unfold infoEntries.
  destruct (infoDict d) as [e |] eqn:Hinfo.
  - unfold infoDict, dictAt in Hinfo.
    destruct (trailerInfo d) as [r |] eqn:Ht; [| discriminate].
    destruct (indirectObjects d !! r) as [[] |] eqn:Ho; try discriminate.
    injection Hinfo as ->.
    rewrite (load_existing d r e Ht Ho). unfold withInfo, dictAt. cbn.
    split; [reflexivity |]. split; [reflexivity |].
    exists r. split; [reflexivity |].
    split; [now rewrite lookup_insert_eq |].
    split; [intros k Hk; now rewrite lookup_insert_ne | auto].
  - rewrite (load_fresh d Hinfo). unfold withInfo, dictAt. cbn.
    split; [reflexivity |]. split; [reflexivity |].
    exists (S (largestObjectNumber d)). split; [reflexivity |].
    split; [now rewrite lookup_insert_eq |].
    split; [intros k Hk; now rewrite lookup_insert_ne | auto].
Qed.

Lemma load_pages d : pages (load d) = pages d.
Proof. apply load_spec. Qed.

(** The keys loading writes are the four of the metadata; any other key
    of the information dictionary is as it was. *)
Lemma loadedInfo_lookup e key :
  key <> "Producer" -> key <> "ModDate" -> key <> "Creator" ->
  key <> "CreationDate" ->
  loadedInfo e !! key = e !! key.
Proof.
  intros H1 H2 H3 H4. unfold loadedInfo.
  destruct (e !! "Creator"), (e !! "CreationDate");
    now rewrite !lookup_insert_ne by congruence.
Qed.

Lemma loadedInfo_metadata e :
  loadedInfo e !! "Producer" = Some (PDFString pdfLib)
  /\ loadedInfo e !! "ModDate" = Some PDFDate
  /\ is_Some (loadedInfo e !! "Creator")
  /\ is_Some (loadedInfo e !! "CreationDate").
Proof.
  unfold loadedInfo.
  destruct (e !! "Creator") as [c |] eqn:Hc,
           (e !! "CreationDate") as [t |] eqn:Ht;
    repeat split;
    repeat first [rewrite lookup_insert_eq | rewrite lookup_insert_ne by discriminate];
    eauto.
Qed.

(** Saving a document that has a page writes it as it is. *)
Lemma save_with_pages d : pages d <> [] -> save d = d.
Proof. intros Hp. unfold save. destruct (pages d); [congruence | reflexivity]. Qed.

(** The whole of [addBookmarksToPdf], from what it does between loading
    and saving. *)
Lemma addBookmarksToPdfWith_ok pageIdx d outputPath bookmarks fs d' :
  addBookmarks pageIdx (load d) bookmarks = Ok d' -> pages d' <> [] ->
  addBookmarksToPdfWith pageIdx d outputPath bookmarks fs
  = Ok (<[outputPath := FPdf d']> fs).
Proof.
  intros Hrun Hp. unfold addBookmarksToPdfWith. cbv zeta. rewrite Hrun.
  cbn [bindR]. now rewrite save_with_pages.
Qed.

Lemma addBookmarksToPdfWith_throws pageIdx d outputPath bookmarks fs e :
  addBookmarks pageIdx (load d) bookmarks = Throw e ->
  addBookmarksToPdfWith pageIdx d outputPath bookmarks fs = Throw e.
Proof.
  intros Hrun. unfold addBookmarksToPdfWith. cbv zeta. now rewrite Hrun.
Qed.

(** Loading the sample document allocates nothing: it has an
    information dictionary. *)
Lemma load_onePageDoc : largestObjectNumber (load onePageDoc) = 10%nat.
Proof. vm_compute. reflexivity. Qed.

(** Walking the [Next] links from a node of an outline visits the nodes
    that follow it, in order, and stops at the last one. *)
Lemma chain_from d root nodes titles :
  IsOutline d root nodes titles ->
  forall fuel i r,
    nodes !! i = Some r -> (length nodes <= fuel + i)%nat ->
    chain d fuel r = drop i nodes.
Proof.
  intros Hol. induction fuel as [| fuel IH]; intros i r Hr Hfuel.
  - apply lookup_lt_Some in Hr. lia.
  - cbn [chain]. rewrite (ol_next _ _ _ _ Hol i r Hr).
    rewrite (drop_S _ _ _ Hr). f_equal.
    destruct (nodes !! S i) as [r' |] eqn:Hnext; cbn.
    + apply IH; [exact Hnext | lia].
    + apply lookup_ge_None in Hnext. now rewrite drop_ge by lia.
Qed.

Lemma chain_all d root nodes titles first fuel :
  IsOutline d root nodes titles ->
  nodes !! 0%nat = Some first -> (length nodes <= fuel)%nat ->
  chain d fuel first = nodes.
Proof.
  intros Hol Hfirst Hfuel.
  rewrite (chain_from d root nodes titles Hol fuel 0%nat first Hfirst) by lia.
  reflexivity.
Qed.

(** src/unnamed/part_002: the synthesizer attaches the outline for every
    non-empty list of bookmarks and every loaded document that has a
    page. *)
Lemma part002_addBookmarks_outline (d : PDFDocument) (bookmarks : list Bookmark) :
  pages d <> [] -> bookmarks <> [] ->
  exists d',
    addBookmarks Part002.targetPageIdx d bookmarks = Ok d'
    /\ IsOutline d' (S (largestObjectNumber d))
         (seq (S (S (largestObjectNumber d))) (length bookmarks))
         (decodeName <$> (bm_title <$> bookmarks))
    /\ pages d' = pages d.
Proof.
  intros Hp Hb.
  destruct (addBookmarks_outline Part002.targetPageIdx d bookmarks Hp Hb)
    as (d' & Hrun & Hol & Hpg & _).
  - intros b _. now apply part002_index_in_bounds.
  - exists d'. split; [exact Hrun |]. split; [exact Hol | exact Hpg].
Qed.

(** src/server/md2pdf-converter.js: the same, for the bookmarks whose
    offsets are not negative. *)
Lemma server_addBookmarks_outline (d : PDFDocument) (bookmarks : list Bookmark) :
  pages d <> [] -> bookmarks <> [] ->
  Forall (fun b => (0 <= bm_top b)%Q) bookmarks ->
  exists d',
    addBookmarks Server.pageIdx d bookmarks = Ok d'
    /\ IsOutline d' (S (largestObjectNumber d))
         (seq (S (S (largestObjectNumber d))) (length bookmarks))
         (decodeName <$> (bm_title <$> bookmarks))
    /\ pages d' = pages d.
Proof.
  intros Hp Hb Htop.
  destruct (addBookmarks_outline Server.pageIdx d bookmarks Hp Hb)
    as (d' & Hrun & Hol & Hpg & _).
  - intros b Hin. apply server_index_in_bounds; [exact Hp |].
    rewrite Forall_forall in Htop. now apply Htop.
  - exists d'. split; [exact Hrun |]. split; [exact Hol | exact Hpg].
Qed.

(** A page lookup that fails in the first turn of the loop ends the
    synthesizer with the [TypeError] of [page.ref]. *)
Lemma addBookmarks_first_lookup_fails pageIdx d b rest page0 pgs :
  pages d = page0 :: pgs ->
  jsAt (pages d) (pageIdx (bm_top b) (pages d)) = None ->
  addBookmarks pageIdx d (b :: rest) = Throw TypeError.
Proof.
  intros Hp Hnone. unfold addBookmarks. rewrite Hp in *.
  cbn [length Nat.eqb lookup list_lookup defined bindR nextRef].
  rewrite nextRefs_spec.
  cbn [forLoop]. unfold itemBody at 1.
  cbn [lookup list_lookup defined bindR]. rewrite Hnone. reflexivity.
Qed.

(** C1, evaluated on the server script: given the one bookmark
    [{ title: "Intro", level: 1, top: -1 }] and a document of one page,
    [addBookmarksToPdf] of src/server/md2pdf-converter.js throws at
    [page.ref] and attaches no outline, where the other script attaches
    the outline of one node. *)
Theorem server_outline_throws_on_negative_offset :
  Server.addBookmarksToPdf onePageDoc "out.pdf" [mkBookmark "Intro" 1 (-1)] ∅
    = Throw TypeError
  /\ exists d',
       Part002.addBookmarksToPdf onePageDoc "out.pdf" [mkBookmark "Intro" 1 (-1)] ∅
         = Ok {["out.pdf" := FPdf d']}
       /\ IsOutline d' 11 [12%nat] ["Intro"].
Proof.
  split.
  - apply addBookmarksToPdfWith_throws.
    apply (addBookmarks_first_lookup_fails _ _ _ _ (a4Page 4) []);
      rewrite load_pages; reflexivity.
  - destruct (part002_addBookmarks_outline (load onePageDoc)
                [mkBookmark "Intro" 1 (-1)])
      as (d' & Hrun & Hol & Hpg);
      [rewrite load_pages; discriminate | discriminate |].
    exists d'. rewrite load_onePageDoc in Hol. split; [| exact Hol].
    apply addBookmarksToPdfWith_ok; [exact Hrun |].
    rewrite Hpg, load_pages. discriminate.
Qed.

(** The same for the whole of [addBookmarksToPdf], from the buffer to
    the file: the references of the outline follow the objects of the
    loaded document. *)
Lemma part002_addBookmarksToPdf_outline (d : PDFDocument)
    (bookmarks : list Bookmark) (outputPath : string) (fs : gmap string File) :
  pages d <> [] -> bookmarks <> [] ->
  exists d',
    Part002.addBookmarksToPdf d outputPath bookmarks fs
      = Ok (<[outputPath := FPdf d']> fs)
    /\ IsOutline d' (S (largestObjectNumber (load d)))
         (seq (S (S (largestObjectNumber (load d)))) (length bookmarks))
         (decodeName <$> (bm_title <$> bookmarks))
    /\ pages d' = pages d.
Proof.
  intros Hp Hb.
  destruct (part002_addBookmarks_outline (load d) bookmarks)
    as (d' & Hrun & Hol & Hpg); [now rewrite load_pages | exact Hb |].
  rewrite load_pages in Hpg.
  exists d'. split; [| split; [exact Hol | exact Hpg]].
  apply addBookmarksToPdfWith_ok; [exact Hrun | now rewrite Hpg].
Qed.

Lemma server_addBookmarksToPdf_outline (d : PDFDocument)
    (bookmarks : list Bookmark) (outputPath : string) (fs : gmap string File) :
  pages d <> [] -> bookmarks <> [] ->
  Forall (fun b => (0 <= bm_top b)%Q) bookmarks ->
  exists d',
    Server.addBookmarksToPdf d outputPath bookmarks fs
      = Ok (<[outputPath := FPdf d']> fs)
    /\ IsOutline d' (S (largestObjectNumber (load d)))
         (seq (S (S (largestObjectNumber (load d)))) (length bookmarks))
         (decodeName <$> (bm_title <$> bookmarks))
    /\ pages d' = pages d.
Proof.
  intros Hp Hb Htop.
  destruct (server_addBookmarks_outline (load d) bookmarks)
    as (d' & Hrun & Hol & Hpg); [now rewrite load_pages | exact Hb | exact Htop |].
  rewrite load_pages in Hpg.
  exists d'. split; [| split; [exact Hol | exact Hpg]].
  apply addBookmarksToPdfWith_ok; [exact Hrun | now rewrite Hpg].
Qed.
(** ** The document the synthesizer writes, against the buffer *)

(** For a buffer that has a page and whose page lookups succeed, the
    whole of [addBookmarksToPdf] writes the document of the buffer with
    the outline attached: besides the outline, only the catalog's
    [Outlines] key and the information dictionary differ from the
    buffer. *)
Lemma addBookmarksToPdfWith_attached pageIdx (d : PDFDocument)
    (bookmarks : list Bookmark) (outputPath : string) (fs : gmap string File) :
  wellNumbered d -> pages d <> [] -> bookmarks <> [] ->
  (forall b, b ∈ bookmarks ->
             is_Some (jsAt (pages d) (pageIdx (bm_top b) (pages d)))) ->
  let L := largestObjectNumber (load d) in
  exists d',
    addBookmarksToPdfWith pageIdx d outputPath bookmarks fs
      = Ok (<[outputPath := FPdf d']> fs)
    /\ Attached d d' (S L) (seq (S (S L)) (length bookmarks))
         (decodeName <$> (bm_title <$> bookmarks)).
Proof.
  intros Hwf Hpages Hbm Hlook L.
  destruct (load_spec d) as (Hlp & Hlc & info & Hti & Hdict & Hlframe & Hcase).
  destruct (addBookmarks_outline pageIdx (load d) bookmarks)
    as (d' & Hrun & Hol & Hpg & Hframe & _ & Hcat & Htr);
    [now rewrite Hlp | exact Hbm | now rewrite Hlp |].
  fold L in Hol, Hframe, Hcat.
  assert (HL : (largestObjectNumber d <= L)%nat /\ (info <= L)%nat).
  { unfold L. destruct (infoDict d) as [e |] eqn:Hinfo.
    - destruct Hcase as [Ht ->]. split; [lia |].
      unfold infoDict, dictAt in Hinfo. rewrite Ht in Hinfo.
      destruct (indirectObjects d !! info) as [o |] eqn:Ho; [| discriminate].
      exact (Hwf info o Ho).
    - destruct Hcase as [-> ->]. lia. }
  destruct HL as [HL Hinfo].
  exists d'. split.
  { apply addBookmarksToPdfWith_ok; [exact Hrun | now rewrite Hpg, Hlp]. }
  assert (Hseq : forall k, k ∈ S L :: seq (S (S L)) (length bookmarks)
                           <-> (S L <= k < S L + S (length bookmarks))%nat).
  { intros k. change (S L :: seq (S (S L)) (length bookmarks))
      with (seq (S L) (S (length bookmarks))). apply elem_of_seq. }
  constructor.
  - exact Hol.
  - now rewrite Hpg.
  - now rewrite Hcat, Hlc.
  - apply Forall_forall. intros r Hr. apply Hseq in Hr. lia.
  - exists info. split; [now rewrite Htr |].
    split; [intros Hin; apply Hseq in Hin; lia |].
    unfold dictAt in *. rewrite Hframe by (left; lia). exact Hdict.
  - intros k Hk Hne.
    assert (Hki : k <> info) by (intros ->; apply Hne; now rewrite Htr).
    rewrite Hframe; [now apply Hlframe |].
    destruct (Nat.le_gt_cases k L) as [H | H]; [now left | right].
    destruct (Nat.le_gt_cases k (S L + length bookmarks)) as [H' | H'];
      [| exact H'].
    exfalso. apply Hk, Hseq. lia.
Qed.

(** ** The heading capture (C5, C10) *)

(** Induction over tokens that reaches the children of a container. *)
Lemma Token_nested_ind (P : Token -> Prop) :
  (forall h, P (TokHeading h)) ->
  (forall c l, P (TokCode c l)) ->
  (forall before after ts, Forall P ts -> P (TokContainer before after ts)) ->
  (forall html, P (TokOther html)) ->
  forall t, P t.
Proof.
  intros Hh Hc Hb Ho.
  fix IH 1. intros [h | c l | before after ts | html].
  - apply Hh.
  - apply Hc.
  - apply Hb. induction ts as [| t ts IHts]; constructor; [apply IH | exact IHts].
  - apply Ho.
Qed.

Section Capture.

Variable R : Renderer.

(** Both scripts' [renderer.heading] push one record built from the
    level and the third argument. *)
Hypothesis heading_pushes : forall text level raw hs,
  snd (r_heading R text level raw hs) = hs ++ [mkHeading level raw (anchorId raw)].

Lemma parseToken_container before after ts hs :
  parseToken R (TokContainer before after ts) hs =
  (let '(body, hs') := parse R ts hs in (before +:+ body +:+ after, hs')).
Proof.
  cbn [parseToken].
  match goal with
  | |- (let '(_, _) := ?f ts hs in _) = _ =>
      assert (Hall : forall ts hs, f ts hs = parse R ts hs)
  end.
  { clear ts hs. induction ts as [| t ts IH]; intros hs; [reflexivity |].
    cbn [parse]. destruct (parseToken R t hs) as [o1 h1]. now rewrite IH. }
  now rewrite Hall.
Qed.

Lemma headingTokensOf_container before after ts :
  headingTokensOf (TokContainer before after ts) = headingTokens ts.
Proof.
  cbn [headingTokensOf].
  induction ts as [| t ts IH]; [reflexivity |].
  cbn [headingTokens]. now rewrite IH.
Qed.

Lemma parse_headings_from ts :
  Forall (fun t => forall hs,
            snd (parseToken R t hs) = hs ++ (captured <$> headingTokensOf t)) ts ->
  forall hs, snd (parse R ts hs) = hs ++ (captured <$> headingTokens ts).
Proof.
  induction 1 as [| t ts Ht _ IH]; intros hs.
  - cbn. now rewrite app_nil_r.
  - cbn [parse headingTokens]. specialize (Ht hs).
    destruct (parseToken R t hs) as [o1 h1]. cbn in Ht. subst h1.
    specialize (IH (hs ++ (captured <$> headingTokensOf t))).
    destruct (parse R ts _) as [o2 h2]. cbn in IH |- *.
    rewrite IH, fmap_app. now rewrite app_assoc.
Qed.

Lemma parseToken_headings t : forall hs,
  snd (parseToken R t hs) = hs ++ (captured <$> headingTokensOf t).
Proof.
  induction t as [h | c l | before after ts IHts | html]
    using Token_nested_ind; intros hs.
  - cbn. apply heading_pushes.
  - cbn. now rewrite app_nil_r.
  - rewrite parseToken_container, headingTokensOf_container.
    pose proof (parse_headings_from ts IHts hs) as H.
    destruct (parse R ts hs) as [body hs']. exact H.
  - cbn. now rewrite app_nil_r.
Qed.

Lemma parse_headings ts hs :
  snd (parse R ts hs) = hs ++ (captured <$> headingTokens ts).
Proof.
  apply parse_headings_from, Forall_forall.
  intros t _. apply parseToken_headings.
Qed.

End Capture.

Lemma server_heading_pushes text level raw hs :
  snd (r_heading Server.renderer text level raw hs)
  = hs ++ [mkHeading level raw (anchorId raw)].
Proof. reflexivity. Qed.

Lemma part002_heading_pushes text level raw hs :
  snd (r_heading Part002.renderer text level raw hs)
  = hs ++ [mkHeading level raw (anchorId raw)].
Proof. reflexivity. Qed.

(** ** The bookmark collection (C6) *)

Lemma collectBookmarks_omap dom hs : forall acc,
  collectBookmarks dom hs acc = acc ++ omap (bookmarkOf dom) hs.
Proof.
  induction hs as [| h hs IH]; intros acc; cbn [collectBookmarks omap list_omap].
  - now rewrite app_nil_r.
  - unfold bookmarkOf at 1.
    destruct (getElementById dom (hd_id h)) as [e |].
    + rewrite IH. now rewrite <- app_assoc.
    + apply IH.
Qed.

Lemma omap_lookup_at {A B} (f : A -> option B) (l : list A) k x y :
  l !! k = Some x -> f x = Some y ->
  omap f l !! length (omap f (take k l)) = Some y.
Proof.
  intros Hk Hf.
  transitivity (omap f (take k l ++ x :: drop (S k) l)
                  !! length (omap f (take k l)));
    [now rewrite take_drop_middle |].
  rewrite omap_app. cbn [omap list_omap]. rewrite Hf.
  rewrite lookup_app_r by lia. now rewrite Nat.sub_diag.
Qed.

Lemma omap_prefix_length_lt {A B} (f : A -> option B) (l : list A) i j x y :
  (i < j)%nat -> l !! i = Some x -> f x = Some y ->
  (length (omap f (take i l)) < length (omap f (take j l)))%nat.
Proof.
  intros Hij Hi Hf.
  assert (Hi' : take j l !! i = Some x) by (rewrite lookup_take_lt; auto).
  assert (Hsplit : take j l = take i l ++ x :: drop (S i) (take j l)).
  { rewrite <- (take_drop_middle (take j l) i x Hi') at 1.
    now rewrite take_take, Nat.min_l by lia. }
  rewrite Hsplit, omap_app, length_app. cbn [omap list_omap]. rewrite Hf.
  cbn [length]. lia.
Qed.


(** C6, as stated, fails: for two headings titled Notes, both with the
    anchor id [notes], and a page in which the two heading elements lie
    at the offsets 100 and 900, [getElementById] finds the first element
    for both headings: both get a bookmark, with the offset of the first,
    and the outline written by src/unnamed/part_002 has two nodes titled
    Notes, not one. *)
Lemma duplicate_anchor_two_entries :
  let ts := sampleLexer notesSource in
  let hs := snd (parse Part002.renderer ts []) in
  let dom := [mkElement "notes" 100; mkElement "notes" 900] in
  let bookmarkData := collectBookmarks dom hs [] in
  hd_id <$> hs = ["notes"; "notes"]
  /\ bookmarkData = [mkBookmark "Notes" 1 100; mkBookmark "Notes" 2 100]
  /\ length bookmarkData <> 1%nat
  /\ exists d',
       Part002.addBookmarksToPdf onePageDoc "out.pdf" bookmarkData ∅
         = Ok {["out.pdf" := FPdf d']}
       /\ IsOutline d' 11 [12%nat; 13%nat] ["Notes"; "Notes"].
Proof.
  cbv zeta. split; [reflexivity |]. split; [reflexivity |].
  split; [vm_compute; discriminate |].
  change (collectBookmarks _ _ [])
    with [mkBookmark "Notes" 1 100; mkBookmark "Notes" 2 100].
  destruct (part002_addBookmarksToPdf_outline onePageDoc
              [mkBookmark "Notes" 1 100; mkBookmark "Notes" 2 100] "out.pdf" ∅)
    as (d' & Hrun & Hol & _); [discriminate | discriminate |].
  exists d'. rewrite load_onePageDoc in Hol. split; [exact Hrun | exact Hol].
Qed.

(** C6, amended: when two headings derive the same anchor id and an
    element with that id is in the page, both headings get a bookmark, in
    document order, each with its own title and level and both with the
    offset of the first element that carries the id; and given a document
    with a page, src/unnamed/part_002 writes the outline of all the
    bookmarks collected, one node per bookmark, under the references
    that follow the objects of the loaded document. *)
Theorem duplicate_anchor_both_listed
    (dom : list Element) (hs : list Heading) (i j : nat) (h1 h2 : Heading)
    (position : Element) :
  hs !! i = Some h1 -> hs !! j = Some h2 -> (i < j)%nat ->
  hd_id h1 = hd_id h2 ->
  getElementById dom (hd_id h1) = Some position ->
  let bookmarkData := collectBookmarks dom hs [] in
  (exists i' j', (i' < j')%nat
     /\ bookmarkData !! i'
        = Some (mkBookmark (hd_text h1) (hd_level h1) (el_top position))
     /\ bookmarkData !! j'
        = Some (mkBookmark (hd_text h2) (hd_level h2) (el_top position)))
  /\ forall d outputPath fs, pages d <> [] ->
       exists d',
         Part002.addBookmarksToPdf d outputPath bookmarkData fs
           = Ok (<[outputPath := FPdf d']> fs)
         /\ IsOutline d' (S (largestObjectNumber (load d)))
              (seq (S (S (largestObjectNumber (load d)))) (length bookmarkData))
              (decodeName <$> (bm_title <$> bookmarkData)).
Proof.
  intros Hi Hj Hij Hid Hpos bookmarkData.
  assert (Hb1 : bookmarkOf dom h1
                = Some (mkBookmark (hd_text h1) (hd_level h1) (el_top position)))
    by (unfold bookmarkOf; now rewrite Hpos).
  assert (Hb2 : bookmarkOf dom h2
                = Some (mkBookmark (hd_text h2) (hd_level h2) (el_top position)))
    by (unfold bookmarkOf; now rewrite <- Hid, Hpos).
  assert (Hdata : bookmarkData = omap (bookmarkOf dom) hs)
    by (unfold bookmarkData; now rewrite collectBookmarks_omap).
  assert (Hfound :
    exists i' j', (i' < j')%nat
      /\ bookmarkData !! i'
         = Some (mkBookmark (hd_text h1) (hd_level h1) (el_top position))
      /\ bookmarkData !! j'
         = Some (mkBookmark (hd_text h2) (hd_level h2) (el_top position))).
  { exists (length (omap (bookmarkOf dom) (take i hs))),
           (length (omap (bookmarkOf dom) (take j hs))).
    rewrite Hdata. split; [eapply omap_prefix_length_lt; eauto |].
    split; eapply omap_lookup_at; eauto. }
  split; [exact Hfound |].
  intros d outputPath fs Hpages.
  assert (Hne : bookmarkData <> []).
  { destruct Hfound as (i' & _ & _ & H & _). intros E. now rewrite E in H. }
  destruct (part002_addBookmarksToPdf_outline d bookmarkData outputPath fs
              Hpages Hne) as (d' & Hrun & Hol & _).
  exists d'. split; [exact Hrun | exact Hol].
Qed.

Lemma duplicate_anchor_both_listed_witness :
  let hs := [mkHeading 1 "Notes" "notes"; mkHeading 2 "Notes" "notes"] in
  let dom := [mkElement "notes" 100; mkElement "notes" 900] in
  exists i' j', (i' < j')%nat
    /\ collectBookmarks dom hs [] !! i' = Some (mkBookmark "Notes" 1 100)
    /\ collectBookmarks dom hs [] !! j' = Some (mkBookmark "Notes" 2 100).
Proof.
  exact (proj1 (duplicate_anchor_both_listed
                  [mkElement "notes" 100; mkElement "notes" 900]
                  [mkHeading 1 "Notes" "notes"; mkHeading 2 "Notes" "notes"]
                  0 1 (mkHeading 1 "Notes" "notes") (mkHeading 2 "Notes" "notes")
                  (mkElement "notes" 100)
                  eq_refl eq_refl (le_n 1) eq_refl eq_refl)).
Defined.

(** ** One conversion (C5, C7, C10) *)

Section ConversionFacts.

Variable lexer : string -> list Token.
Variable basename : string -> string -> string.
Variable pdfText : PDFDocument -> string.
Variable template : string -> string -> string.
Variable renderer : Renderer.
Variable timeout : N.
Variable synth :
  PDFDocument -> string -> list Bookmark -> gmap string File ->
  Result (gmap string File).

Hypothesis heading_pushes : forall text level raw hs,
  snd (r_heading renderer text level raw hs)
  = hs ++ [mkHeading level raw (anchorId raw)].

Lemma renderAndWrite_headings browser html outputFile p :
  headings (snd (renderAndWrite timeout synth browser html outputFile p))
  = headings p.
Proof.
  unfold renderAndWrite.
  destruct (pp_launch browser); [| reflexivity].
  destruct (pr_loaded _); [| reflexivity]. cbn [negb].
  destruct (waitFor _ _); [| reflexivity].
  destruct (0 <? _)%nat; [| reflexivity].
  destruct (synth _ _ _ _); reflexivity.
Qed.

(** After a conversion whose input could be read, the shared array
    holds the records of the headings of this input, whatever it held
    before. *)
Lemma mdToPdfWith_headings browser inputFile outputFile title p markdown :
  readFileSync pdfText (files p) inputFile = Ok markdown ->
  headings (snd (mdToPdfWith lexer basename pdfText template renderer timeout
                   synth browser inputFile outputFile title p))
  = captured <$> headingTokens (lexer markdown).
Proof.
  intros Hread. unfold mdToPdfWith. rewrite Hread.
  pose proof (parse_headings renderer heading_pushes (lexer markdown)
                (headings (resetHeadings p))) as Hparse.
  destruct (parse renderer (lexer markdown) (headings (resetHeadings p)))
    as [htmlContent hs].
  rewrite renderAndWrite_headings. cbn in Hparse |- *. exact Hparse.
Qed.

Lemma poll_never cond budget : forall t,
  (forall k, (t <= k <= t + budget)%nat -> cond k = false) ->
  poll cond t budget = Throw TimeoutError.
Proof.
  induction budget as [| b IH]; intros t Hnever; cbn [poll].
  - now rewrite Hnever by lia.
  - rewrite Hnever by lia. apply IH. intros k Hk. apply Hnever. lia.
Qed.

Lemma poll_ready cond budget : forall t k,
  (t <= k <= t + budget)%nat -> cond k = true ->
  poll cond t budget = Ok tt.
Proof.
  induction budget as [| b IH]; intros t k Hk Hc; cbn [poll].
  - replace t with k by lia. now rewrite Hc.
  - destruct (cond t) eqn:E; [reflexivity |].
    apply (IH (S t) k); [| exact Hc].
    destruct (decide (k = t)) as [-> | Hne]; [congruence | lia].
Qed.

(** A conversion during which the awaited condition stays false for the
    whole timeout ends with an exception and writes no file; the
    exception is the [TimeoutError] of the wait when the input was read,
    the browser launched and the page loaded. *)
Lemma mdToPdfWith_timeout browser inputFile outputFile title p :
  (forall html k, (k <= N.to_nat timeout)%nat ->
                  pr_ready (pp_page browser html) k = false) ->
  let r := mdToPdfWith lexer basename pdfText template renderer timeout
             synth browser inputFile outputFile title p in
  (exists e, fst r = Throw e)
  /\ files (snd r) = files p
  /\ (is_Some (files p !! inputFile) -> pp_launch browser = true ->
      (forall html, pr_loaded (pp_page browser html) = true) ->
      fst r = Throw TimeoutError).
Proof.
  intros Hnever. cbv zeta. unfold mdToPdfWith.
  destruct (readFileSync pdfText (files p) inputFile) as [markdown | e] eqn:Hread.
  2:{ split; [eauto |]. split; [reflexivity |].
      intros [f Hf] _ _. unfold readFileSync in Hread. rewrite Hf in Hread.
      destruct f; discriminate. }
  destruct (parse renderer (lexer markdown) (headings (resetHeadings p)))
    as [htmlContent hs].
  unfold renderAndWrite.
  destruct (pp_launch browser); cbn [negb].
  2:{ split; [eauto |]. split; [reflexivity |]. intros _ H; discriminate. }
  destruct (pr_loaded _) eqn:Hl; cbn [negb].
  2:{ split; [eauto |]. split; [reflexivity |]. intros _ _ H.
      rewrite H in Hl. discriminate. }
  unfold waitFor. rewrite poll_never.
  - split; [eauto |]. split; reflexivity.
  - intros k Hk. apply Hnever. lia.
Qed.

End ConversionFacts.
(** ** The text rendering of a heading and marked's [unescape] *)

















(** A text that holds none of the four characters is its own title. *)
Lemma without_none cls (s : string) :
  forallb (fun c => negb (cls c)) (list_ascii_of_string s) = true ->
  without cls s = s.
Proof.
  induction s as [| c s IH]; [reflexivity |]. cbn. intros H.
  apply andb_true_iff in H as [Hc Hs].
  destruct (cls c); [discriminate |]. now rewrite IH.
Qed.

(** [decodeName] changes nothing in a text without number sign. *)
Lemma decodeName_plain (s : string) :
  hasChar "#" s = false -> decodeName s = s.
Proof.
  unfold hasChar.
  induction s as [| c s IH]; [reflexivity |]. intros Hno.
  cbn [list_ascii_of_string existsb] in Hno.
  apply orb_false_iff in Hno as [Hc Hs]. specialize (IH Hs).
  cbn [decodeName].
  assert (Hne : Ascii.eqb c "#" = false)
    by (rewrite Ascii.eqb_sym; exact Hc).
  destruct s as [| a [| b rest]]; rewrite ?Hne; cbn [andb]; now rewrite ?IH.
Qed.

(** C5: a conversion whose input can be read leaves in the shared array
    exactly the records of the headings of that input, one per heading,
    in document order; and so does a second conversion in the same
    process, whatever the first one did and captured: the array is
    emptied before the parser runs. *)
Theorem headings_captured_and_reset
    (lexer : string -> list Token) (basename : string -> string -> string)
    (pdfText : PDFDocument -> string) (template : string -> string -> string)
    (b1 b2 : Puppeteer) (in1 out1 in2 out2 : string) (t1 t2 : option string)
    (p : Process) (md1 md2 : string) :
  let s1 := snd (Server.mdToPdf lexer basename pdfText template b1 in1 out1 t1 p) in
  let q1 := snd (Part002.mdToPdf lexer basename pdfText template b1 in1 out1 t1 p) in
  let s2 := snd (Server.mdToPdf lexer basename pdfText template b2 in2 out2 t2 s1) in
  let q2 := snd (Part002.mdToPdf lexer basename pdfText template b2 in2 out2 t2 q1) in
  (readFileSync pdfText (files p) in1 = Ok md1 ->
   headings s1 = captured <$> headingTokens (lexer md1)
   /\ length (headings s1) = length (headingTokens (lexer md1))
   /\ headings q1 = captured <$> headingTokens (lexer md1)
   /\ length (headings q1) = length (headingTokens (lexer md1)))
  /\ (readFileSync pdfText (files s1) in2 = Ok md2 ->
      headings s2 = captured <$> headingTokens (lexer md2)
      /\ length (headings s2) = length (headingTokens (lexer md2)))
  /\ (readFileSync pdfText (files q1) in2 = Ok md2 ->
      headings q2 = captured <$> headingTokens (lexer md2)
      /\ length (headings q2) = length (headingTokens (lexer md2))).
Proof.
  intros s1 q1 s2 q2.
  split; [| split].
  - intros Hread.
    assert (Hs : headings s1 = captured <$> headingTokens (lexer md1))
      by (apply mdToPdfWith_headings; [apply server_heading_pushes | exact Hread]).
    assert (Hq : headings q1 = captured <$> headingTokens (lexer md1))
      by (apply mdToPdfWith_headings; [apply part002_heading_pushes | exact Hread]).
    rewrite Hs, Hq, length_fmap. auto.
  - intros Hread.
    assert (Hs : headings s2 = captured <$> headingTokens (lexer md2))
      by (apply mdToPdfWith_headings; [apply server_heading_pushes | exact Hread]).
    rewrite Hs, length_fmap. auto.
  - intros Hread.
    assert (Hq : headings q2 = captured <$> headingTokens (lexer md2))
      by (apply mdToPdfWith_headings; [apply part002_heading_pushes | exact Hread]).
    rewrite Hq, length_fmap. auto.
Qed.

Lemma headings_captured_and_reset_witness :
  let s1 := snd (Server.mdToPdf sampleLexer sampleBasename samplePdfText
                   sampleTemplate hungBrowser "notes.md" "notes.pdf" None
                   sampleProcess) in
  let s2 := snd (Server.mdToPdf sampleLexer sampleBasename samplePdfText
                   sampleTemplate hungBrowser "bold.md" "bold.pdf" None s1) in
  readFileSync samplePdfText (files sampleProcess) "notes.md" = Ok notesSource
  /\ headings s1 = [mkHeading 1 "Notes" "notes"; mkHeading 2 "Notes" "notes"]
  /\ headings s2 = [mkHeading 1 "Bold title" "bold-title"].
Proof.
  cbv zeta.
  destruct (headings_captured_and_reset sampleLexer sampleBasename samplePdfText
              sampleTemplate hungBrowser hungBrowser "notes.md" "notes.pdf"
              "bold.md" "bold.pdf" None None sampleProcess notesSource
              "# **Bold** title") as (H1 & H2 & _).
  cbv zeta in H1, H2.
  split; [reflexivity |]. split.
  - destruct (H1 eq_refl) as (H & _). rewrite H. reflexivity.
  - destruct H2 as (H & _); [vm_compute; reflexivity | rewrite H; reflexivity].
Defined.

(** C7: the wait for the render-complete condition has a timeout of 30
    seconds in the server script and of 60 seconds in the other; when the
    condition stays false for that long, the conversion ends with an
    exception, which is the wait's [TimeoutError] once the input was read,
    the browser launched and the page loaded, and it has written no
    file. *)
Theorem render_wait_times_out
    (lexer : string -> list Token) (basename : string -> string -> string)
    (pdfText : PDFDocument -> string) (template : string -> string -> string)
    (browser : Puppeteer) (inputFile outputFile : string)
    (title : option string) (p : Process) :
  ((30000 <= Server.timeout <= 60000)%N /\ (30000 <= Part002.timeout <= 60000)%N)
  /\ ((forall html k, (k <= N.to_nat Server.timeout)%nat ->
                      pr_ready (pp_page browser html) k = false) ->
      let r := Server.mdToPdf lexer basename pdfText template browser
                 inputFile outputFile title p in
      (exists e, fst r = Throw e)
      /\ files (snd r) = files p
      /\ (is_Some (files p !! inputFile) -> pp_launch browser = true ->
          (forall html, pr_loaded (pp_page browser html) = true) ->
          fst r = Throw TimeoutError))
  /\ ((forall html k, (k <= N.to_nat Part002.timeout)%nat ->
                      pr_ready (pp_page browser html) k = false) ->
      let r := Part002.mdToPdf lexer basename pdfText template browser
                 inputFile outputFile title p in
      (exists e, fst r = Throw e)
      /\ files (snd r) = files p
      /\ (is_Some (files p !! inputFile) -> pp_launch browser = true ->
          (forall html, pr_loaded (pp_page browser html) = true) ->
          fst r = Throw TimeoutError)).
Proof.
  split; [| split].
  - unfold Server.timeout, Part002.timeout. lia.
  - intros Hnever. now apply mdToPdfWith_timeout.
  - intros Hnever. now apply mdToPdfWith_timeout.
Qed.

Lemma render_wait_times_out_witness :
  (forall html k, (k <= N.to_nat Part002.timeout)%nat ->
                  pr_ready (pp_page hungBrowser html) k = false)
  /\ fst (Part002.mdToPdf sampleLexer sampleBasename samplePdfText sampleTemplate
            hungBrowser "notes.md" "notes.pdf" None sampleProcess)
     = Throw TimeoutError
  /\ files (snd (Part002.mdToPdf sampleLexer sampleBasename samplePdfText
                   sampleTemplate hungBrowser "notes.md" "notes.pdf" None
                   sampleProcess))
     = files sampleProcess.
Proof.
  split; [reflexivity |].
  destruct (render_wait_times_out sampleLexer sampleBasename samplePdfText
              sampleTemplate hungBrowser "notes.md" "notes.pdf" None
              sampleProcess) as (_ & _ & H).
  destruct (H (fun _ _ _ => eq_refl)) as (_ & Hfiles & Herr).
  split; [| exact Hfiles].
  apply Herr; [eexists; reflexivity | reflexivity | reflexivity].
Defined.




(** ** The server script on negative offsets *)

Lemma Qfloor_div_negative (a c : Q) :
  (0 < c)%Q -> (a < 0)%Q -> Qfloor (a / c) < 0.
Proof.
  intros Hc Ha.
  assert (Hq : (a / c < 0)%Q).
  { apply Qlt_shift_div_r; [exact Hc |].
    destruct a as [an ad], c as [cn cd]. unfold Qlt in *. cbn in *. lia. }
  pose proof (Qfloor_le (a / c)) as Hfl.
  assert (Hz : (inject_Z (Qfloor (a / c)) < inject_Z 0)%Q)
    by (eapply Qle_lt_trans; [exact Hfl | exact Hq]).
  now rewrite <- Zlt_Qlt in Hz.
Qed.

(** For every negative offset the index of line 58 is negative and the
    page read is [undefined]. *)
Lemma server_index_negative top (pages : list PDFPage) :
  (top < 0)%Q ->
  Server.pageIdx top pages < 0 /\ jsAt pages (Server.pageIdx top pages) = None.
Proof.
  intros Htop.
  assert (Hp : Server.pageNum top < 0)
    by (apply Qfloor_div_negative; [reflexivity | exact Htop]).
  assert (H : Server.pageIdx top pages < 0) by (unfold Server.pageIdx; lia).
  split; [exact H | now apply jsAt_negative].
Qed.

(** A loop whose turns either succeed or throw [e], and one of whose
    turns throws [e], throws [e]. *)
Lemma forLoop_throws body e n : forall start d k,
  (start <= k < start + n)%nat ->
  (forall i d0, (start <= i < start + n)%nat ->
                body i d0 = Throw e \/ exists d1, body i d0 = Ok d1) ->
  (forall d0, body k d0 = Throw e) ->
  forLoop n start body d = Throw e.
Proof.
  induction n as [| n IH]; intros start d k Hk Hbody Hfail; [lia |].
  cbn [forLoop].
  destruct (decide (k = start)) as [-> | Hne].
  - now rewrite Hfail.
  - destruct (Hbody start d) as [-> | [d1 ->]]; [lia | reflexivity |].
    cbn [bindR]. apply (IH (S start) d1 k); [lia | | exact Hfail].
    intros i d0 Hi. apply Hbody. lia.
Qed.

(** src/server/md2pdf-converter.js: one bookmark with a negative offset
    anywhere in the list makes the loop throw. *)
Lemma server_addBookmarks_negative (d : PDFDocument) (bookmarks : list Bookmark) :
  pages d <> [] ->
  Exists (fun b => (bm_top b < 0)%Q) bookmarks ->
  addBookmarks Server.pageIdx d bookmarks = Throw TypeError.
Proof.
  intros Hpages Hex.
  apply Exists_exists in Hex as (b & Hin & Hneg).
  apply list_elem_of_lookup in Hin as [k Hk].
  assert (Hlt : (k < length bookmarks)%nat) by (eapply lookup_lt_Some, Hk).
  unfold addBookmarks.
  destruct (pages d) as [| page0 pgs] eqn:Epages; [congruence |].
  destruct (Nat.eqb_spec (length bookmarks) 0) as [E0 | _]; [lia |].
  cbn [lookup list_lookup defined bindR nextRef].
  rewrite nextRefs_spec.
  rewrite (forLoop_throws _ TypeError (length bookmarks) 0%nat _ k);
    [reflexivity | lia | |].
  - intros i d0 Hi. unfold itemBody.
    destruct (bookmarks !! i) as [bi |]; cbn [defined bindR]; [| now left].
    destruct (jsAt _ _); cbn [defined bindR]; [| now left].
    destruct (_ !! i); cbn [defined bindR]; [right; eauto | now left].
  - intros d0. unfold itemBody. rewrite Hk. cbn [defined bindR].
    destruct (server_index_negative (bm_top b) (page0 :: pgs) Hneg) as [_ ->].
    reflexivity.
Qed.

(** And then the synthesizer throws, and nothing is written. *)
Lemma server_addBookmarks_throws (d : PDFDocument) (bookmarks : list Bookmark)
    (outputPath : string) (fs : gmap string File) :
  pages d <> [] ->
  Exists (fun b => (bm_top b < 0)%Q) bookmarks ->
  Server.addBookmarksToPdf d outputPath bookmarks fs = Throw TypeError.
Proof.
  intros Hpages Hex. apply addBookmarksToPdfWith_throws.
  apply server_addBookmarks_negative; [now rewrite load_pages | exact Hex].
Qed.
(** ** A conversion that reaches the write of the output file *)

Section ConversionOutcome.

Variable lexer : string -> list Token.
Variable basename : string -> string -> string.
Variable pdfText : PDFDocument -> string.
Variable template : string -> string -> string.
Variable renderer : Renderer.
Variable timeout : N.
Variable pageIdx : Q -> list PDFPage -> Z.

Hypothesis heading_pushes : forall text level raw hs,
  snd (r_heading renderer text level raw hs)
  = hs ++ [mkHeading level raw (anchorId raw)].

(** When the input is read, the browser launches, the page loads and the
    awaited condition holds at some moment within the timeout, the
    conversion leaves the headings of the input in the shared array and
    ends as its last statement does: the synthesizer when a heading was
    located, the plain write of the printed buffer otherwise. *)
Lemma mdToPdfWith_reaches_write browser inputFile outputFile title p markdown k :
  readFileSync pdfText (files p) inputFile = Ok markdown ->
  pp_launch browser = true ->
  let hs := captured <$> headingTokens (lexer markdown) in
  let html := template (orDefault title (basename inputFile ".md"))
                (fst (parse renderer (lexer markdown) [])) in
  let page := pp_page browser html in
  pr_loaded page = true ->
  (k <= N.to_nat timeout)%nat -> pr_ready page k = true ->
  let bookmarkData := collectBookmarks (pr_dom page) hs [] in
  mdToPdfWith lexer basename pdfText template renderer timeout
    (addBookmarksToPdfWith pageIdx) browser inputFile outputFile title p
  = match bookmarkData with
    | [] => (Ok tt, mkProcess hs (<[outputFile := FPdf (pr_pdf page)]> (files p)))
    | _ :: _ =>
        match addBookmarksToPdfWith pageIdx (pr_pdf page) outputFile
                bookmarkData (files p) with
        | Ok fs => (Ok tt, mkProcess hs fs)
        | Throw e => (Throw e, mkProcess hs (files p))
        end
    end.
Proof.
  intros Hread Hlaunch hs html page Hloaded Hk Hready bookmarkData.
  subst bookmarkData page html hs.
  unfold mdToPdfWith. rewrite Hread.
  pose proof (parse_headings renderer heading_pushes (lexer markdown) [])
    as Hparse.
  cbn [resetHeadings headings].
  destruct (parse renderer (lexer markdown) []) as [htmlContent hs'].
  cbn in Hparse. subst hs'. cbn [fst] in *.
  unfold renderAndWrite. rewrite Hlaunch. cbn [negb].
  rewrite Hloaded. cbn [negb].
  unfold waitFor. rewrite (poll_ready _ _ 0%nat k) by (lia || exact Hready).
  cbn [setHeadings setFiles resetHeadings headings files].
  destruct (collectBookmarks _ _ []) as [| b rest]; [reflexivity |].
  cbn [length Nat.ltb Nat.leb].
  destruct (addBookmarksToPdfWith pageIdx _ outputFile (b :: rest) (files p));
    reflexivity.
Qed.

(** And when moreover the printed document has a page and the page
    lookups of the located headings succeed, it returns, and the output
    file holds the printed document: the buffer itself when no heading
    was located, and otherwise the document of the buffer with the
    outline of the located headings attached. *)
Lemma mdToPdfWith_succeeds browser inputFile outputFile title p markdown k :
  readFileSync pdfText (files p) inputFile = Ok markdown ->
  pp_launch browser = true ->
  let hs := captured <$> headingTokens (lexer markdown) in
  let html := template (orDefault title (basename inputFile ".md"))
                (fst (parse renderer (lexer markdown) [])) in
  let page := pp_page browser html in
  pr_loaded page = true ->
  (k <= N.to_nat timeout)%nat -> pr_ready page k = true ->
  pages (pr_pdf page) <> [] -> wellNumbered (pr_pdf page) ->
  let bookmarkData := collectBookmarks (pr_dom page) hs [] in
  (forall b, b ∈ bookmarkData ->
     is_Some (jsAt (pages (pr_pdf page))
                (pageIdx (bm_top b) (pages (pr_pdf page))))) ->
  let L := largestObjectNumber (load (pr_pdf page)) in
  exists d',
    mdToPdfWith lexer basename pdfText template renderer timeout
      (addBookmarksToPdfWith pageIdx) browser inputFile outputFile title p
    = (Ok tt, mkProcess hs (<[outputFile := FPdf d']> (files p)))
    /\ (bookmarkData = [] -> d' = pr_pdf page)
    /\ (bookmarkData <> [] ->
        Attached (pr_pdf page) d' (S L) (seq (S (S L)) (length bookmarkData))
          (decodeName <$> (bm_title <$> bookmarkData))).
Proof.
  intros Hread Hlaunch hs html page Hloaded Hk Hready Hpages Hwf bookmarkData
    Hlook L.
  rewrite (mdToPdfWith_reaches_write browser inputFile outputFile title p
             markdown k Hread Hlaunch Hloaded Hk Hready).
  fold hs html page bookmarkData.
  destruct bookmarkData as [| b rest] eqn:Ebm.
  - exists (pr_pdf page). split; [reflexivity |]. split; congruence.
  - destruct (addBookmarksToPdfWith_attached pageIdx (pr_pdf page) (b :: rest)
                outputFile (files p) Hwf Hpages) as (d' & Hrun & Hat);
      [discriminate | exact Hlook |].
    rewrite Hrun. exists d'. split; [reflexivity |].
    split; [discriminate | intros _; exact Hat].
Qed.

End ConversionOutcome.
(** ** The synthesizer without bookmarks (C8) *)

(** What saving keeps: everything but the page array of a document
    without pages, which gets one blank A4 page. *)
Lemma save_spec d :
  catalog (save d) = catalog d
  /\ trailerInfo (save d) = trailerInfo d
  /\ indirectObjects (save d) = indirectObjects d
  /\ (pages d <> [] -> pages (save d) = pages d)
  /\ (pages d = [] ->
      pages (save d)
      = [mkPage (S (largestObjectNumber d)) (84189 # 100) EmptyString]).
Proof.
  unfold save, addPage. destruct (pages d) as [| page0 pgs] eqn:Hp; cbn.
  - rewrite Hp. repeat split; congruence.
  - repeat split; congruence.
Qed.

(** C8, as stated, fails.  For the sample document of one page and no
    bookmark, the document the synthesizer writes is not the buffer:
    loading has rewritten the information dictionary, whose [Producer]
    was the printing library and now is pdf-lib.  And for a buffer
    without pages the document written has a page, which saving has
    added: the page content is not that of the buffer. *)
Lemma empty_bookmarks_change_the_document :
  (exists d',
     Server.addBookmarksToPdf onePageDoc "out.pdf" [] ∅
       = Ok {["out.pdf" := FPdf d']}
     /\ d' <> onePageDoc
     /\ entry onePageDoc 2 "Producer" = Some (PDFString "Skia/PDF m120")
     /\ entry d' 2 "Producer" = Some (PDFString pdfLib))
  /\ (let noPage := mkDoc 3 ∅ {["Type" := PDFName "Catalog"]} [] None in
      exists d',
        Server.addBookmarksToPdf noPage "out.pdf" [] ∅
          = Ok {["out.pdf" := FPdf d']}
        /\ pages noPage = []
        /\ pages d' = [mkPage 5 (84189 # 100) EmptyString]).
Proof.
  split.
  - exists (save (load onePageDoc)). split; [reflexivity |].
    assert (Hnew : entry (save (load onePageDoc)) 2 "Producer"
                   = Some (PDFString pdfLib)) by (vm_compute; reflexivity).
    assert (Hold : entry onePageDoc 2 "Producer"
                   = Some (PDFString "Skia/PDF m120")) by (vm_compute; reflexivity).
    split; [| split; [exact Hold | exact Hnew]].
    intros Heq. rewrite Heq, Hold in Hnew. discriminate Hnew.
  - cbv zeta.
    exists (save (load (mkDoc 3 ∅ {["Type" := PDFName "Catalog"]} [] None))).
    split; [reflexivity |]. split; [reflexivity |].
    vm_compute. reflexivity.
Qed.

(** C8, amended: with no bookmarks the synthesizer of either script
    attaches no outline.  The document it writes has the catalog of the
    buffer, so no [Outlines] key when the buffer has none; the pages of
    the buffer, when the buffer has a page; and the objects of the
    buffer, none added and none changed, except the information
    dictionary, which is as loading leaves it: no dictionary of type
    [Outlines] is in it that is not in the buffer.  And a conversion in
    which no heading is located does not call the synthesizer at all: it
    writes the printed buffer itself. *)
Theorem empty_bookmarks_attach_no_outline
    (pdfBuffer : PDFDocument) (outputPath : string) (fs : gmap string File)
    (lexer : string -> list Token) (basename : string -> string -> string)
    (pdfText : PDFDocument -> string) (template : string -> string -> string)
    (browser : Puppeteer) (inputFile outputFile : string)
    (title : option string) (p : Process) (markdown : string) (k : nat) :
  (exists d',
     Server.addBookmarksToPdf pdfBuffer outputPath [] fs
       = Ok (<[outputPath := FPdf d']> fs)
     /\ Part002.addBookmarksToPdf pdfBuffer outputPath [] fs
       = Ok (<[outputPath := FPdf d']> fs)
     /\ catalog d' = catalog pdfBuffer
     /\ (catalog pdfBuffer !! "Outlines" = None ->
         catalog d' !! "Outlines" = None)
     /\ (pages pdfBuffer <> [] -> pages d' = pages pdfBuffer)
     /\ (exists info,
           trailerInfo d' = Some info
           /\ dictAt d' info = Some (loadedInfo (infoEntries pdfBuffer))
           /\ forall k, k <> info ->
                indirectObjects d' !! k = indirectObjects pdfBuffer !! k)
     /\ (forall k e,
           dictAt d' k = Some e -> e !! "Type" = Some (PDFName "Outlines") ->
           exists e0, dictAt pdfBuffer k = Some e0
                      /\ e0 !! "Type" = Some (PDFName "Outlines")))
  /\ (let plainWrite (renderer : Renderer) (timeout : N)
            (mdToPdf : string -> string -> option string -> Process ->
                       Result unit * Process) :=
        let hs := captured <$> headingTokens (lexer markdown) in
        let html := template (orDefault title (basename inputFile ".md"))
                      (fst (parse renderer (lexer markdown) [])) in
        let page := pp_page browser html in
        readFileSync pdfText (files p) inputFile = Ok markdown ->
        pp_launch browser = true -> pr_loaded page = true ->
        (k <= N.to_nat timeout)%nat -> pr_ready page k = true ->
        collectBookmarks (pr_dom page) hs [] = [] ->
        mdToPdf inputFile outputFile title p
        = (Ok tt, mkProcess hs (<[outputFile := FPdf (pr_pdf page)]> (files p)))
      in
      plainWrite Server.renderer Server.timeout
        (Server.mdToPdf lexer basename pdfText template browser)
      /\ plainWrite Part002.renderer Part002.timeout
           (Part002.mdToPdf lexer basename pdfText template browser)).
Proof.
  split.
  - exists (save (load pdfBuffer)).
    destruct (save_spec (load pdfBuffer)) as (Hsc & Hst & Hso & Hsp & _).
    destruct (load_spec pdfBuffer)
      as (Hlp & Hlc & info & Hti & Hdict & Hframe & Hcase).
    assert (Hd : forall k, dictAt (save (load pdfBuffer)) k
                           = dictAt (load pdfBuffer) k)
      by (intros k0; unfold dictAt; now rewrite Hso).
    split; [reflexivity |]. split; [reflexivity |].
    split; [now rewrite Hsc, Hlc |].
    split; [intros Hno; now rewrite Hsc, Hlc |].
    split; [intros Hp; rewrite Hsp, Hlp; [reflexivity | now rewrite Hlp] |].
    split.
    + exists info. split; [now rewrite Hst |].
      split; [now rewrite Hd |].
      intros k0 Hk. rewrite Hso. now apply Hframe.
    + intros k0 e He Htype. rewrite Hd in He.
      destruct (decide (k0 = info)) as [-> | Hne].
      * rewrite Hdict in He. injection He as <-.
        rewrite loadedInfo_lookup in Htype by discriminate.
        unfold infoEntries in Htype.
        destruct (infoDict pdfBuffer) as [e0 |] eqn:Hinfo;
          [| rewrite lookup_empty in Htype; discriminate].
        destruct Hcase as [Ht _]. unfold infoDict in Hinfo.
        rewrite Ht in Hinfo. eauto.
      * unfold dictAt in He |- *. rewrite Hframe in He by exact Hne.
        destruct (indirectObjects pdfBuffer !! k0) as [[] |];
          try discriminate. injection He as <-. eauto.
  - cbv zeta. split.
    + intros Hread Hlaunch Hloaded Hk Hready Hnone.
      unfold Server.mdToPdf, Server.addBookmarksToPdf.
      rewrite (mdToPdfWith_reaches_write lexer basename pdfText template
                 Server.renderer Server.timeout Server.pageIdx
                 server_heading_pushes browser inputFile outputFile title p
                 markdown k Hread Hlaunch Hloaded Hk Hready).
      now rewrite Hnone.
    + intros Hread Hlaunch Hloaded Hk Hready Hnone.
      unfold Part002.mdToPdf, Part002.addBookmarksToPdf.
      rewrite (mdToPdfWith_reaches_write lexer basename pdfText template
                 Part002.renderer Part002.timeout Part002.targetPageIdx
                 part002_heading_pushes browser inputFile outputFile title p
                 markdown k Hread Hlaunch Hloaded Hk Hready).
      now rewrite Hnone.
Qed.

Lemma empty_bookmarks_attach_no_outline_witness :
  catalog onePageDoc !! "Outlines" = None
  /\ (exists d',
        Server.addBookmarksToPdf onePageDoc "out.pdf" [] ∅
          = Ok {["out.pdf" := FPdf d']}
        /\ pages d' = pages onePageDoc
        /\ catalog d' !! "Outlines" = None)
  /\ Part002.mdToPdf sampleLexer sampleBasename samplePdfText sampleTemplate
       readyBrowser "bold.md" "bold.pdf" None sampleProcess
     = (Ok tt,
        mkProcess [mkHeading 1 "Bold title" "bold-title"]
          (<["bold.pdf" := FPdf onePageDoc]> (files sampleProcess))).
Proof.
  split; [reflexivity |].
  destruct (empty_bookmarks_attach_no_outline onePageDoc "out.pdf" ∅
              sampleLexer sampleBasename samplePdfText sampleTemplate
              readyBrowser "bold.md" "bold.pdf" None sampleProcess
              "# **Bold** title" 5)
    as ((d' & Hrun & _ & _ & Hcat & Hpages & _) & _ & Hplain).
  split.
  - exists d'. split; [exact Hrun |].
    split; [apply Hpages; discriminate | apply Hcat; reflexivity].
  - cbv zeta in Hplain. apply Hplain; try reflexivity.
    apply Nat.leb_le. vm_compute. reflexivity.
Defined.

(** ** The anchor id *)

Lemma lowerChar_idempotent c : lowerChar (lowerChar c) = lowerChar c.
Proof. destruct c as [[] [] [] [] [] [] [] []]; reflexivity. Qed.

Lemma toLowerCase_replaceNonWordRuns s : forall inRun,
  toLowerCase (replaceNonWordRuns inRun (toLowerCase s))
  = replaceNonWordRuns inRun (toLowerCase s).
Proof.
  induction s as [| c r IH]; intros inRun; cbn; [reflexivity |].
  destruct (isWordChar (lowerChar c)); [| destruct inRun]; cbn;
    rewrite ?IH, ?lowerChar_idempotent; reflexivity.
Qed.

Lemma replaceNonWordRuns_idempotent s :
  (forall inRun, replaceNonWordRuns inRun (replaceNonWordRuns true s)
                 = replaceNonWordRuns true s)
  /\ replaceNonWordRuns false (replaceNonWordRuns false s)
     = replaceNonWordRuns false s.
Proof.
  induction s as [| c r [IHt IHf]]; [split; [intros [] |]; reflexivity |].
  split.
  - intros inRun. cbn [replaceNonWordRuns]. destruct (isWordChar c) eqn:E.
    + cbn [replaceNonWordRuns]. rewrite E, IHf. reflexivity.
    + apply IHt.
  - cbn [replaceNonWordRuns]. destruct (isWordChar c) eqn:E.
    + cbn [replaceNonWordRuns]. rewrite E, IHf. reflexivity.
    + cbn [replaceNonWordRuns].
      change (isWordChar "-") with false. cbn iota. now rewrite IHt.
Qed.

(** Every character left by the replacement is a word character or a
    dash. *)
Lemma replaceNonWordRuns_chars s : forall inRun,
  Forall (fun c => isWordChar c = true \/ c = "-"%char)
    (list_ascii_of_string (replaceNonWordRuns inRun s)).
Proof.
  induction s as [| c r IH]; intros inRun; cbn; [constructor |].
  destruct (isWordChar c) eqn:E; [| destruct inRun]; cbn;
    try constructor; auto.
Qed.

(** ** Further properties of the two scripts *)

(** The sample document is numbered as a parsed document is. *)
Lemma onePageDoc_wellNumbered : wellNumbered onePageDoc.
Proof.
  intros k o Hk. unfold onePageDoc in Hk. cbn [indirectObjects] in Hk.
  apply lookup_singleton_Some in Hk as [<- _]. cbn. lia.
Qed.

(** The outline of a non-empty list, from the root and the first node. *)
Lemma outline_walk d' (L : nat) (bookmarks : list Bookmark) titles :
  bookmarks <> [] ->
  IsOutline d' (S L) (seq (S (S L)) (length bookmarks)) titles ->
  length (seq (S (S L)) (length bookmarks)) = length bookmarks
  /\ seq (S (S L)) (length bookmarks) !! 0%nat = Some (S (S L))
  /\ (forall fuel, (length bookmarks <= fuel)%nat ->
        chain d' fuel (S (S L)) = seq (S (S L)) (length bookmarks)).
Proof.
  intros Hbm Hol. pose proof (nonempty_length _ Hbm) as HN.
  assert (Hfirst : seq (S (S L)) (length bookmarks) !! 0%nat = Some (S (S L)))
    by (rewrite lookup_seq_lt by lia; f_equal; lia).
  split; [apply length_seq |]. split; [exact Hfirst |].
  intros fuel Hfuel. eapply chain_all; eauto. rewrite length_seq. lia.
Qed.

(** A title without number sign is stored as it is. *)
Lemma decoded_title_plain (bookmarks : list Bookmark) i b :
  bookmarks !! i = Some b -> hasChar "#" (bm_title b) = false ->
  (decodeName <$> (bm_title <$> bookmarks)) !! i = Some (bm_title b).
Proof.
  intros Hb Hno. rewrite !list_lookup_fmap, Hb. cbn.
  now rewrite decodeName_plain.
Qed.

(** X1: src/unnamed/part_002, [addBookmarksToPdf]: for every buffer that
    has at least one page (and is numbered as a parsed document is) and
    every non-empty list of N bookmarks, the file written holds the
    document of the buffer with a flat outline attached: a new root and
    N new nodes, one per bookmark in input order, each titled by the
    name pdf-lib makes of the bookmark's title (the title itself when it
    holds no number sign), each with the root as [Parent], linked by
    [Prev] and [Next] with none at the two ends, the root holding
    [First], [Last] and [Count = N]; walking [Next] from [First] visits
    exactly the N nodes; the pages are those of the buffer, the catalog
    gains the [Outlines] key and nothing else, and every other object is
    as in the buffer except the information dictionary, which loading
    rewrites. *)
Theorem part002_outline_graph
    (d : PDFDocument) (bookmarks : list Bookmark) (outputPath : string)
    (fs : gmap string File) :
  wellNumbered d -> pages d <> [] -> bookmarks <> [] ->
  exists d' root nodes first,
    Part002.addBookmarksToPdf d outputPath bookmarks fs
      = Ok (<[outputPath := FPdf d']> fs)
    /\ length nodes = length bookmarks
    /\ Attached d d' root nodes (decodeName <$> (bm_title <$> bookmarks))
    /\ nodes !! 0%nat = Some first
    /\ (forall fuel, (length bookmarks <= fuel)%nat -> chain d' fuel first = nodes)
    /\ (forall i b, bookmarks !! i = Some b ->
          hasChar "#" (bm_title b) = false ->
          (decodeName <$> (bm_title <$> bookmarks)) !! i = Some (bm_title b)).
Proof.
  intros Hwf Hpages Hbm.
  destruct (addBookmarksToPdfWith_attached Part002.targetPageIdx d bookmarks
              outputPath fs Hwf Hpages Hbm) as (d' & Hrun & Hat).
  { intros b _. now apply part002_index_in_bounds. }
  destruct (outline_walk d' _ bookmarks _ Hbm (at_outline _ _ _ _ _ Hat))
    as (Hlen & Hfirst & Hwalk).
  exists d', (S (largestObjectNumber (load d))),
    (seq (S (S (largestObjectNumber (load d)))) (length bookmarks)),
    (S (S (largestObjectNumber (load d)))).
  split; [exact Hrun |]. split; [exact Hlen |]. split; [exact Hat |].
  split; [exact Hfirst |]. split; [exact Hwalk |].
  apply decoded_title_plain.
Qed.

Lemma part002_outline_graph_witness :
  exists d' root nodes first,
    Part002.addBookmarksToPdf onePageDoc "out.pdf"
      [mkBookmark "Title" 1 0; mkBookmark "Bug #42" 2 950] ∅
      = Ok {["out.pdf" := FPdf d']}
    /\ length nodes = 2%nat
    /\ Attached onePageDoc d' root nodes ["Title"; "Bug B"]
    /\ nodes !! 0%nat = Some first
    /\ (forall fuel, (2 <= fuel)%nat -> chain d' fuel first = nodes).
Proof.
  destruct (part002_outline_graph onePageDoc
              [mkBookmark "Title" 1 0; mkBookmark "Bug #42" 2 950] "out.pdf" ∅)
    as (d' & root & nodes & first & H1 & H2 & H3 & H4 & H5 & _);
    [exact onePageDoc_wellNumbered | discriminate | discriminate |].
  exists d', root, nodes, first. auto.
Defined.

(** X2: src/server/md2pdf-converter.js, [addBookmarksToPdf]: for every
    buffer that has at least one page (and is numbered as a parsed
    document is) and every non-empty list of N bookmarks whose offsets
    are not negative, the file written holds the document of the buffer
    with the same flat outline of N nodes attached, the titles, the
    pages, the catalog, the information dictionary and the other objects
    as for the other script. *)
Theorem server_outline_graph
    (d : PDFDocument) (bookmarks : list Bookmark) (outputPath : string)
    (fs : gmap string File) :
  wellNumbered d -> pages d <> [] -> bookmarks <> [] ->
  Forall (fun b => (0 <= bm_top b)%Q) bookmarks ->
  exists d' root nodes first,
    Server.addBookmarksToPdf d outputPath bookmarks fs
      = Ok (<[outputPath := FPdf d']> fs)
    /\ length nodes = length bookmarks
    /\ Attached d d' root nodes (decodeName <$> (bm_title <$> bookmarks))
    /\ nodes !! 0%nat = Some first
    /\ (forall fuel, (length bookmarks <= fuel)%nat -> chain d' fuel first = nodes)
    /\ (forall i b, bookmarks !! i = Some b ->
          hasChar "#" (bm_title b) = false ->
          (decodeName <$> (bm_title <$> bookmarks)) !! i = Some (bm_title b)).
Proof.
  intros Hwf Hpages Hbm Htop.
  destruct (addBookmarksToPdfWith_attached Server.pageIdx d bookmarks
              outputPath fs Hwf Hpages Hbm) as (d' & Hrun & Hat).
  { intros b Hin. apply server_index_in_bounds; [exact Hpages |].
    rewrite Forall_forall in Htop. now apply Htop. }
  destruct (outline_walk d' _ bookmarks _ Hbm (at_outline _ _ _ _ _ Hat))
    as (Hlen & Hfirst & Hwalk).
  exists d', (S (largestObjectNumber (load d))),
    (seq (S (S (largestObjectNumber (load d)))) (length bookmarks)),
    (S (S (largestObjectNumber (load d)))).
  split; [exact Hrun |]. split; [exact Hlen |]. split; [exact Hat |].
  split; [exact Hfirst |]. split; [exact Hwalk |].
  apply decoded_title_plain.
Qed.

Lemma server_outline_graph_witness :
  exists d' root nodes first,
    Server.addBookmarksToPdf onePageDoc "out.pdf"
      [mkBookmark "Title" 1 0; mkBookmark "Sub" 2 950] ∅
      = Ok {["out.pdf" := FPdf d']}
    /\ length nodes = 2%nat
    /\ Attached onePageDoc d' root nodes ["Title"; "Sub"]
    /\ nodes !! 0%nat = Some first
    /\ (forall fuel, (2 <= fuel)%nat -> chain d' fuel first = nodes).
Proof.
  destruct (server_outline_graph onePageDoc
              [mkBookmark "Title" 1 0; mkBookmark "Sub" 2 950] "out.pdf" ∅)
    as (d' & root & nodes & first & H1 & H2 & H3 & H4 & H5 & _);
    [exact onePageDoc_wellNumbered | discriminate | discriminate
     | repeat constructor; discriminate |].
  exists d', root, nodes, first. auto.
Defined.

(** X3: src/unnamed/part_002, [renderer.code]: the HTML returned embeds
    the code with each of the five characters replaced by its entity and
    every other character kept; decoding the entities once gives the code
    back, so nothing is escaped twice; and no less-than, greater-than,
    double quote or apostrophe is left in the embedded text. *)
Theorem part002_code_escaped_once (code : string) (language : option string) :
  Part002.code code language =
    "<pre><code class=" +:+ dq +:+ "language-"
      +:+ toLowerCase (orDefault language "plaintext") +:+ dq +:+ ">"
      +:+ escapeHtml code +:+ "</code></pre>"
  /\ decodeEntities (String.length (escapeHtml code)) (escapeHtml code) = code
  /\ Forall (fun c => c <> "<"%char /\ c <> ">"%char /\ c <> dquote
                      /\ c <> "'"%char)
       (list_ascii_of_string (escapeHtml code)).
Proof.
  split; [apply part002_code_embeds |]. split.
  - rewrite <- escapeCode_escapeHtml. apply decode_escapeCode.
  - apply Forall_forall. intros c Hc. apply (escapeCode_no_delimiter code).
    rewrite escapeCode_escapeHtml. now apply list_elem_of_In.
Qed.

(** X4: src/unnamed/part_002, line 230: for every offset, negative and
    arbitrarily large ones included, and every page array that is not
    empty, the index lies in [0 .. pages.length - 1] and the page read is
    defined. *)
Theorem part002_locator_in_bounds (top : Q) (pages : list PDFPage) :
  pages <> [] ->
  0 <= Part002.targetPageIdx top pages <= Z.of_nat (length pages) - 1
  /\ is_Some (jsAt pages (Part002.targetPageIdx top pages)).
Proof.
  intros Hne. destruct (part002_index_in_bounds top pages Hne) as [H1 H2].
  split; [lia | exact H2].
Qed.

Lemma part002_locator_in_bounds_witness :
  0 <= Part002.targetPageIdx (-5000) [a4Page 1; a4Page 2] <= 1
  /\ is_Some (jsAt [a4Page 1; a4Page 2]
                (Part002.targetPageIdx (-5000) [a4Page 1; a4Page 2])).
Proof.
  apply (part002_locator_in_bounds (-5000) [a4Page 1; a4Page 2]). discriminate.
Defined.

(** X5: the anchor id of both scripts, [raw.toLowerCase().replace(...)]:
    deriving the id of an id changes nothing, an id is its own lower
    case, and each of its characters is a word character or a dash. *)
Theorem anchorId_idempotent (raw : string) :
  anchorId (anchorId raw) = anchorId raw
  /\ toLowerCase (anchorId raw) = anchorId raw
  /\ Forall (fun c => isWordChar c = true \/ c = "-"%char)
       (list_ascii_of_string (anchorId raw)).
Proof.
  unfold anchorId. split; [| split].
  - rewrite toLowerCase_replaceNonWordRuns.
    apply replaceNonWordRuns_idempotent.
  - apply toLowerCase_replaceNonWordRuns.
  - apply replaceNonWordRuns_chars.
Qed.

(** X6: src/unnamed/part_002, [mdToPdf]: when the input file is read, the
    browser launches, the page loads, the awaited condition holds at some
    moment within the 60 seconds and the printed document has a page,
    the conversion returns without exception, the shared array holds
    the headings of the input and the output file holds the printed
    document: the printed buffer itself when no heading was located,
    and otherwise the document of the printed buffer with the outline of
    the located headings attached (same pages, the catalog with the
    [Outlines] key, the information dictionary as loading leaves it,
    every other object unchanged). *)
Theorem part002_conversion_succeeds
    (lexer : string -> list Token) (basename : string -> string -> string)
    (pdfText : PDFDocument -> string) (template : string -> string -> string)
    (browser : Puppeteer) (inputFile outputFile : string)
    (title : option string) (p : Process) (markdown : string) (k : nat) :
  readFileSync pdfText (files p) inputFile = Ok markdown ->
  pp_launch browser = true ->
  let hs := captured <$> headingTokens (lexer markdown) in
  let html := template (orDefault title (basename inputFile ".md"))
                (fst (parse Part002.renderer (lexer markdown) [])) in
  let page := pp_page browser html in
  pr_loaded page = true ->
  (k <= N.to_nat Part002.timeout)%nat -> pr_ready page k = true ->
  pages (pr_pdf page) <> [] -> wellNumbered (pr_pdf page) ->
  let bookmarkData := collectBookmarks (pr_dom page) hs [] in
  exists d',
    Part002.mdToPdf lexer basename pdfText template browser
      inputFile outputFile title p
    = (Ok tt, mkProcess hs (<[outputFile := FPdf d']> (files p)))
    /\ (bookmarkData = [] -> d' = pr_pdf page)
    /\ (bookmarkData <> [] ->
        exists root nodes,
          length nodes = length bookmarkData
          /\ Attached (pr_pdf page) d' root nodes
               (decodeName <$> (bm_title <$> bookmarkData))).
Proof.
  intros Hread Hlaunch hs html page Hloaded Hk Hready Hpages Hwf bookmarkData.
  destruct (mdToPdfWith_succeeds lexer basename pdfText template
              Part002.renderer Part002.timeout Part002.targetPageIdx
              part002_heading_pushes browser inputFile outputFile title p
              markdown k Hread Hlaunch Hloaded Hk Hready Hpages Hwf)
    as (d' & Hrun & Hnone & Hsome).
  { intros b _. now apply part002_index_in_bounds. }
  exists d'. split; [exact Hrun |]. split; [exact Hnone |].
  intros Hne. eexists _, _. split; [| exact (Hsome Hne)]. apply length_seq.
Qed.

Lemma part002_conversion_succeeds_witness :
  exists d' root nodes,
    Part002.mdToPdf sampleLexer sampleBasename samplePdfText sampleTemplate
      readyBrowser "notes.md" "notes.pdf" None sampleProcess
    = (Ok tt, mkProcess [mkHeading 1 "Notes" "notes"; mkHeading 2 "Notes" "notes"]
                (<["notes.pdf" := FPdf d']> (files sampleProcess)))
    /\ length nodes = 2%nat
    /\ Attached onePageDoc d' root nodes ["Notes"; "Notes"].
Proof.
  destruct (part002_conversion_succeeds sampleLexer sampleBasename samplePdfText
              sampleTemplate readyBrowser "notes.md" "notes.pdf" None
              sampleProcess notesSource 5)
    as (d' & Hrun & _ & Hsome);
    [reflexivity | reflexivity | reflexivity
     | apply Nat.leb_le; vm_compute; reflexivity | reflexivity | discriminate
     | exact onePageDoc_wellNumbered |].
  destruct Hsome as (root & nodes & Hlen & Hat); [vm_compute; discriminate |].
  exists d', root, nodes. split; [exact Hrun |]. split; [exact Hlen | exact Hat].
Defined.

(** ** When the outline synthesizer throws, and where the nodes point *)

Lemma addBookmarks_no_bookmark pageIdx d : addBookmarks pageIdx d [] = Ok d.
Proof. reflexivity. Qed.

Lemma addBookmarks_no_page pageIdx d bookmarks :
  pages d = [] -> bookmarks <> [] ->
  addBookmarks pageIdx d bookmarks = Throw TypeError.
Proof.
  intros Hp Hb. unfold addBookmarks. rewrite Hp.
  destruct bookmarks as [| b rest]; [congruence | reflexivity].
Qed.

Lemma tops_nonnegative_or_not (bookmarks : list Bookmark) :
  Forall (fun b => (0 <= bm_top b)%Q) bookmarks
  \/ Exists (fun b => (bm_top b < 0)%Q) bookmarks.
Proof.
  induction bookmarks as [| b rest [IH | IH]].
  - left. constructor.
  - destruct (Qlt_le_dec (bm_top b) 0) as [H | H].
    + right. now left.
    + left. now constructor.
  - right. now right.
Qed.

(** X21: when [addBookmarksToPdf] throws.  In src/unnamed/part_002 it
    throws exactly when there is a bookmark and the document has no
    page; in src/server/md2pdf-converter.js exactly when there is a
    bookmark and the document has no page or some bookmark has a negative
    offset.  The exception is a TypeError, and in every other case the
    output path is written. *)
Theorem outline_synthesizer_throws_exactly_when
    (d : PDFDocument) (bookmarks : list Bookmark) (outputPath : string)
    (fs : gmap string File) :
  let part002 := Part002.addBookmarksToPdf d outputPath bookmarks fs in
  let server := Server.addBookmarksToPdf d outputPath bookmarks fs in
  (part002 = Throw TypeError <-> bookmarks <> [] /\ pages d = [])
  /\ (server = Throw TypeError
      <-> bookmarks <> []
          /\ (pages d = [] \/ Exists (fun b => (bm_top b < 0)%Q) bookmarks))
  /\ (part002 = Throw TypeError
      \/ exists d', part002 = Ok (<[outputPath := FPdf d']> fs))
  /\ (server = Throw TypeError
      \/ exists d', server = Ok (<[outputPath := FPdf d']> fs)).
Proof.
  cbv zeta.
  destruct bookmarks as [| b rest].
  - assert (Hrun : forall pageIdx,
              addBookmarksToPdfWith pageIdx d outputPath [] fs
              = Ok (<[outputPath := FPdf (save (load d))]> fs))
      by reflexivity.
    unfold Part002.addBookmarksToPdf, Server.addBookmarksToPdf.
    rewrite !Hrun.
    split; [split; [discriminate | intros [H _]; congruence] |].
    split; [split; [discriminate | intros [H _]; congruence] |].
    split; right; eauto.
  - destruct (pages d) as [| page0 pgs] eqn:Hp.
    + assert (Hrun : forall pageIdx,
                addBookmarksToPdfWith pageIdx d outputPath (b :: rest) fs
                = Throw TypeError).
      { intros pageIdx. apply addBookmarksToPdfWith_throws.
        apply addBookmarks_no_page; [now rewrite load_pages | discriminate]. }
      unfold Part002.addBookmarksToPdf, Server.addBookmarksToPdf.
      rewrite !Hrun.
      split; [split; [intros _; split; [discriminate | reflexivity]
                     | reflexivity] |].
      split; [split; [intros _; split; [discriminate | now left]
                     | reflexivity] |].
      split; now left.
    + assert (Hpages : pages d <> []) by (rewrite Hp; discriminate).
      assert (Hbm : b :: rest <> []) by discriminate.
      destruct (part002_addBookmarksToPdf_outline d (b :: rest) outputPath fs
                  Hpages Hbm) as (d2 & Hrun2 & _).
      rewrite Hrun2.
      split; [split; [discriminate | intros [_ H]; congruence] |].
      destruct (tops_nonnegative_or_not (b :: rest)) as [Hall | Hneg].
      * destruct (server_addBookmarksToPdf_outline d (b :: rest) outputPath fs
                    Hpages Hbm Hall) as (d1 & Hrun1 & _).
        rewrite Hrun1.
        split; [| split; right; eauto]. split; [discriminate |].
        intros [_ [H | H]]; [congruence |]. exfalso.
        apply Exists_exists in H as (x & Hin & Hx).
        rewrite Forall_forall in Hall. specialize (Hall x Hin).
        apply (Qlt_not_le _ _ Hx Hall).
      * rewrite (server_addBookmarks_throws d (b :: rest) outputPath fs
                   Hpages Hneg).
        split; [split; [intros _; split; [discriminate | now right]
                       | reflexivity] |].
        split; [right; eauto | now left].
Qed.

(** X22: where the nodes of the outline point.  In both scripts, when
    [addBookmarksToPdf] returns, the destination of the node of bookmark
    number [i] is the array [page.ref /XYZ null H null], where [page] is
    the page at the index computed from the bookmark's offset and [H] is
    the height of the first page of the document, the same for every
    node: the offset of a heading selects the page and nothing else, the
    level of a heading plays no part, and every bookmark leads to the top
    of its page. *)
Theorem bookmark_destination_is_page_top
    (d : PDFDocument) (bookmarks : list Bookmark) (page0 : PDFPage) :
  pages d !! 0%nat = Some page0 -> bookmarks <> [] ->
  let node i := (S (S (largestObjectNumber d)) + i)%nat in
  (exists d',
     addBookmarks Part002.targetPageIdx d bookmarks = Ok d'
     /\ forall i b, bookmarks !! i = Some b ->
          exists page,
            jsAt (pages d) (Part002.targetPageIdx (bm_top b) (pages d))
            = Some page
            /\ entry d' (node i) "Dest"
               = Some (PDFArray [PDFRef (pg_ref page); PDFName "XYZ"; PDFNull;
                                 PDFNumber (pg_height page0); PDFNull]))
  /\ (Forall (fun b => (0 <= bm_top b)%Q) bookmarks ->
      exists d',
        addBookmarks Server.pageIdx d bookmarks = Ok d'
        /\ forall i b, bookmarks !! i = Some b ->
             exists page,
               jsAt (pages d) (Server.pageIdx (bm_top b) (pages d)) = Some page
               /\ entry d' (node i) "Dest"
                  = Some (PDFArray [PDFRef (pg_ref page); PDFName "XYZ";
                                    PDFNull; PDFNumber (pg_height page0);
                                    PDFNull])).
Proof.
  intros Hpage0 Hbm. cbv zeta.
  assert (Hpages : pages d <> [])
    by (intros E; rewrite E in Hpage0; discriminate Hpage0).
  split.
  - destruct (addBookmarks_outline Part002.targetPageIdx d bookmarks Hpages Hbm)
      as (d' & Hrun & _ & _ & _ & Hdest & _).
    { intros b _. now apply part002_index_in_bounds. }
    exists d'. split; [exact Hrun |]. intros i b Hb.
    destruct (Hdest i b Hb) as (page & p0 & Hpage & Hp0 & He).
    exists page. split; [exact Hpage |]. rewrite He. congruence.
  - intros Htops.
    destruct (addBookmarks_outline Server.pageIdx d bookmarks Hpages Hbm)
      as (d' & Hrun & _ & _ & _ & Hdest & _).
    { intros b Hin. apply server_index_in_bounds; [exact Hpages |].
      rewrite Forall_forall in Htops. now apply Htops. }
    exists d'. split; [exact Hrun |]. intros i b Hb.
    destruct (Hdest i b Hb) as (page & p0 & Hpage & Hp0 & He).
    exists page. split; [exact Hpage |]. rewrite He. congruence.
Qed.

Lemma bookmark_destination_is_page_top_witness :
  exists d',
    addBookmarks Part002.targetPageIdx onePageDoc
      [mkBookmark "Title" 1 0; mkBookmark "Sub" 2 950] = Ok d'
    /\ entry d' 12 "Dest"
       = Some (PDFArray [PDFRef 4; PDFName "XYZ"; PDFNull;
                         PDFNumber (pg_height (a4Page 4)); PDFNull])
    /\ entry d' 13 "Dest"
       = Some (PDFArray [PDFRef 4; PDFName "XYZ"; PDFNull;
                         PDFNumber (pg_height (a4Page 4)); PDFNull]).
Proof.
  destruct (bookmark_destination_is_page_top onePageDoc
              [mkBookmark "Title" 1 0; mkBookmark "Sub" 2 950] (a4Page 4)
              eq_refl ltac:(discriminate)) as [(d' & Hrun & Hdest) _].
  exists d'. split; [exact Hrun |].
  destruct (Hdest 0%nat _ eq_refl) as (p0 & Hp0 & H0).
  destruct (Hdest 1%nat _ eq_refl) as (p1 & Hp1 & H1).
  vm_compute in Hp0, Hp1. injection Hp0 as <-. injection Hp1 as <-.
  split; [exact H0 | exact H1].
Defined.
(** ** A conversion of the server script, from end to end *)

(** X25: src/server/md2pdf-converter.js, [mdToPdf]: when the input file
    is read, the browser launches, the page loads, the awaited selector
    appears at some moment within the 30 seconds and the printed document
    has a page, the outcome depends on the offsets of the located
    headings alone: when none is negative the conversion returns and the
    output file holds the printed document, the printed buffer itself
    when no heading was located and otherwise the document of the printed
    buffer with the outline of the located headings attached (same
    pages, the catalog with the [Outlines] key, the information
    dictionary as loading leaves it, every other object unchanged); when
    one is negative the conversion ends with a TypeError and writes
    nothing.  In both cases the shared array holds the headings of the
    input. *)
Theorem server_conversion_outcome
    (lexer : string -> list Token) (basename : string -> string -> string)
    (pdfText : PDFDocument -> string) (template : string -> string -> string)
    (browser : Puppeteer) (inputFile outputFile : string)
    (title : option string) (p : Process) (markdown : string) (k : nat) :
  readFileSync pdfText (files p) inputFile = Ok markdown ->
  pp_launch browser = true ->
  let hs := captured <$> headingTokens (lexer markdown) in
  let html := template (orDefault title (basename inputFile ".md"))
                (fst (parse Server.renderer (lexer markdown) [])) in
  let page := pp_page browser html in
  pr_loaded page = true ->
  (k <= N.to_nat Server.timeout)%nat -> pr_ready page k = true ->
  pages (pr_pdf page) <> [] -> wellNumbered (pr_pdf page) ->
  let bookmarkData := collectBookmarks (pr_dom page) hs [] in
  let r := Server.mdToPdf lexer basename pdfText template browser
             inputFile outputFile title p in
  (Forall (fun b => (0 <= bm_top b)%Q) bookmarkData ->
   exists d',
     r = (Ok tt, mkProcess hs (<[outputFile := FPdf d']> (files p)))
     /\ (bookmarkData = [] -> d' = pr_pdf page)
     /\ (bookmarkData <> [] ->
         exists root nodes,
           length nodes = length bookmarkData
           /\ Attached (pr_pdf page) d' root nodes
                (decodeName <$> (bm_title <$> bookmarkData))))
  /\ (Exists (fun b => (bm_top b < 0)%Q) bookmarkData ->
      r = (Throw TypeError, mkProcess hs (files p))).
Proof.
  intros Hread Hlaunch hs html page Hloaded Hk Hready Hpages Hwf bookmarkData r.
  split.
  - intros Htops.
    destruct (mdToPdfWith_succeeds lexer basename pdfText template
                Server.renderer Server.timeout Server.pageIdx
                server_heading_pushes browser inputFile outputFile title p
                markdown k Hread Hlaunch Hloaded Hk Hready Hpages Hwf)
      as (d' & Hrun & Hnone & Hsome).
    { intros b Hin. apply server_index_in_bounds; [exact Hpages |].
      rewrite Forall_forall in Htops. now apply Htops. }
    exists d'. split; [exact Hrun |]. split; [exact Hnone |].
    intros Hne. eexists _, _. split; [| exact (Hsome Hne)]. apply length_seq.
  - intros Hneg. unfold r, Server.mdToPdf, Server.addBookmarksToPdf.
    rewrite (mdToPdfWith_reaches_write lexer basename pdfText template
               Server.renderer Server.timeout Server.pageIdx
               server_heading_pushes browser inputFile outputFile title p
               markdown k Hread Hlaunch Hloaded Hk Hready).
    fold hs html page bookmarkData.
    destruct bookmarkData as [| b rest] eqn:Ebm; [inversion Hneg |].
    fold Server.addBookmarksToPdf.
    now rewrite (server_addBookmarks_throws (pr_pdf page) (b :: rest)
                   outputFile (files p) Hpages Hneg).
Qed.

Lemma server_conversion_outcome_witness :
  (exists d' root nodes,
     Server.mdToPdf sampleLexer sampleBasename samplePdfText sampleTemplate
       readyBrowser "notes.md" "notes.pdf" None sampleProcess
     = (Ok tt, mkProcess [mkHeading 1 "Notes" "notes"; mkHeading 2 "Notes" "notes"]
                 (<["notes.pdf" := FPdf d']> (files sampleProcess)))
     /\ length nodes = 2%nat
     /\ Attached onePageDoc d' root nodes ["Notes"; "Notes"])
  /\ Server.mdToPdf sampleLexer sampleBasename samplePdfText sampleTemplate
       shiftedBrowser "notes.md" "notes.pdf" None sampleProcess
     = (Throw TypeError,
        mkProcess [mkHeading 1 "Notes" "notes"; mkHeading 2 "Notes" "notes"]
          (files sampleProcess)).
Proof.
  split.
  - destruct (server_conversion_outcome sampleLexer sampleBasename
                samplePdfText sampleTemplate readyBrowser "notes.md"
                "notes.pdf" None sampleProcess notesSource 5)
      as [Hok _];
      [reflexivity | reflexivity | reflexivity
       | apply Nat.leb_le; vm_compute; reflexivity | reflexivity
       | discriminate | exact onePageDoc_wellNumbered |].
    destruct Hok as (d' & Hrun & _ & Hsome).
    + vm_compute. repeat constructor; discriminate.
    + destruct Hsome as (root & nodes & Hlen & Hat); [vm_compute; discriminate |].
      exists d', root, nodes.
      split; [exact Hrun |]. split; [exact Hlen | exact Hat].
  - destruct (server_conversion_outcome sampleLexer sampleBasename
                samplePdfText sampleTemplate shiftedBrowser "notes.md"
                "notes.pdf" None sampleProcess notesSource 5)
      as [_ Hthrow];
      [reflexivity | reflexivity | reflexivity
       | apply Nat.leb_le; vm_compute; reflexivity | reflexivity
       | discriminate | exact onePageDoc_wellNumbered |].
    apply Hthrow. vm_compute. left. reflexivity.
Defined.

(** ** What a conversion writes, and the command line *)

Section ConversionFiles.

Variable lexer : string -> list Token.
Variable basename : string -> string -> string.
Variable pdfText : PDFDocument -> string.
Variable template : string -> string -> string.
Variable renderer : Renderer.
Variable timeout : N.
Variable pageIdx : Q -> list PDFPage -> Z.

(** A conversion that returns has written a PDF document to the output
    path, and that path alone; a conversion that throws has written
    nothing. *)
Lemma mdToPdfWith_files browser inputFile outputFile title p :
  let r := mdToPdfWith lexer basename pdfText template renderer timeout
             (addBookmarksToPdfWith pageIdx) browser inputFile outputFile
             title p in
  match fst r with
  | Ok _ => exists d, files (snd r) = <[outputFile := FPdf d]> (files p)
  | Throw _ => files (snd r) = files p
  end.
Proof.
  cbv zeta. unfold mdToPdfWith.
  destruct (readFileSync pdfText (files p) inputFile) as [markdown | e];
    [| reflexivity].
  destruct (parse renderer (lexer markdown) (headings (resetHeadings p)))
    as [htmlContent hs].
  unfold renderAndWrite.
  destruct (pp_launch browser); [| reflexivity]. cbn [negb].
  destruct (pr_loaded _); [| reflexivity]. cbn [negb].
  destruct (waitFor _ _); [| reflexivity].
  destruct (0 <? _)%nat.
  - unfold addBookmarksToPdfWith.
    destruct (addBookmarks pageIdx _ _) as [d |]; cbn; [eauto | reflexivity].
  - cbn. eauto.
Qed.

(** The exit code of the script: 1 without an input file, and otherwise
    0 exactly when [mdToPdf] returns, in which case the final output path
    holds a PDF document. *)
Lemma main_spec browser argv p :
  let mdToPdf :=
    mdToPdfWith lexer basename pdfText template renderer timeout
      (addBookmarksToPdfWith pageIdx) browser in
  let code := fst (main basename mdToPdf argv p) in
  let p' := snd (main basename mdToPdf argv p) in
  (code = 0 \/ code = 1)
  /\ (argv !! 2%nat = None \/ argv !! 2%nat = Some EmptyString ->
      code = 1 /\ p' = p)
  /\ (forall inputFile,
        argv !! 2%nat = Some inputFile -> inputFile <> EmptyString ->
        let r := mdToPdf inputFile
                   (orDefault (argv !! 3%nat)
                      (basename inputFile ".md" +:+ ".pdf"))
                   (argv !! 4%nat) p in
        (code = 0 <-> fst r = Ok tt) /\ p' = snd r)
  /\ (code = 1 -> files p' = files p)
  /\ (code = 0 ->
      exists inputFile d,
        argv !! 2%nat = Some inputFile /\ inputFile <> EmptyString
        /\ fst (mdToPdf inputFile
                  (orDefault (argv !! 3%nat)
                     (basename inputFile ".md" +:+ ".pdf"))
                  (argv !! 4%nat) p) = Ok tt
        /\ files p'
           = <[orDefault (argv !! 3%nat) (basename inputFile ".md" +:+ ".pdf")
               := FPdf d]> (files p)).
Proof.
  cbv zeta. unfold main.
  destruct (argv !! 2%nat) as [[| c inputFile] |] eqn:E2.
  - cbn. split; [auto |]. split; [auto |].
    split; [intros inputFile [= <-] H; congruence |].
    split; [reflexivity | discriminate].
  - pose proof (mdToPdfWith_files browser (String c inputFile)
                  (orDefault (argv !! 3%nat)
                     (basename (String c inputFile) ".md" +:+ ".pdf"))
                  (argv !! 4%nat) p) as Hfiles.
    cbv zeta in Hfiles.
    destruct (mdToPdfWith _ _ _ _ _ _ _ _ _ _ _ _) as [[[] | e] p'] eqn:Hrun;
      cbn [fst snd] in *.
    + split; [now left |]. split; [intros [H | H]; discriminate H |].
      split; [intros f [= <-] _; rewrite Hrun; cbn; tauto |].
      split; [discriminate |]. intros _.
      destruct Hfiles as [d Hd]. exists (String c inputFile), d.
      rewrite Hrun. repeat split; [discriminate | exact Hd].
    + split; [now right |]. split; [intros [H | H]; discriminate H |].
      split; [intros f [= <-] _; rewrite Hrun; cbn;
              split; [split; discriminate | reflexivity] |].
      split; [now intros _ | discriminate].
  - cbn. split; [auto |]. split; [auto |].
    split; [intros inputFile [=] |].
    split; [reflexivity | discriminate].
Qed.

End ConversionFiles.

(** X11: [mdToPdf] of both scripts, on the file system: whatever the
    input, the browser and the state of the process, a conversion never
    changes a path other than the output path; when it returns, the
    output path holds a PDF document; when it throws (missing input,
    failed launch or load, timeout, failure of the outline synthesizer),
    it has written nothing at all. *)
Theorem conversion_writes_only_output
    (lexer : string -> list Token) (basename : string -> string -> string)
    (pdfText : PDFDocument -> string) (template : string -> string -> string)
    (browser : Puppeteer) (inputFile outputFile : string)
    (title : option string) (p : Process) :
  let touchesOnlyOutput (r : Result unit * Process) :=
    (forall path, path <> outputFile ->
                  files (snd r) !! path = files p !! path)
    /\ (fst r = Ok tt -> exists d, files (snd r) !! outputFile = Some (FPdf d))
    /\ (forall e, fst r = Throw e -> files (snd r) = files p) in
  touchesOnlyOutput
    (Server.mdToPdf lexer basename pdfText template browser
       inputFile outputFile title p)
  /\ touchesOnlyOutput
       (Part002.mdToPdf lexer basename pdfText template browser
          inputFile outputFile title p).
Proof.
  cbv zeta.
  pose proof (mdToPdfWith_files lexer basename pdfText template
                Server.renderer Server.timeout Server.pageIdx browser
                inputFile outputFile title p) as Hs.
  pose proof (mdToPdfWith_files lexer basename pdfText template
                Part002.renderer Part002.timeout Part002.targetPageIdx browser
                inputFile outputFile title p) as Hp.
  cbv zeta in Hs, Hp.
  fold Server.addBookmarksToPdf in Hs. fold Part002.addBookmarksToPdf in Hp.
  fold (Server.mdToPdf lexer basename pdfText template browser) in Hs.
  fold (Part002.mdToPdf lexer basename pdfText template browser) in Hp.
  split.
  - destruct (Server.mdToPdf _ _ _ _ _ _ _ _ _) as [[[] | e] p'];
      cbn [fst snd] in *.
    + destruct Hs as [d Hd]. rewrite Hd.
      split; [intros path Hne; now rewrite lookup_insert_ne |].
      split; [intros _; exists d; apply lookup_insert_eq | discriminate].
    + rewrite Hs. split; [reflexivity |]. split; [discriminate | reflexivity].
  - destruct (Part002.mdToPdf _ _ _ _ _ _ _ _ _) as [[[] | e] p'];
      cbn [fst snd] in *.
    + destruct Hp as [d Hd]. rewrite Hd.
      split; [intros path Hne; now rewrite lookup_insert_ne |].
      split; [intros _; exists d; apply lookup_insert_eq | discriminate].
    + rewrite Hp. split; [reflexivity |]. split; [discriminate | reflexivity].
Qed.

(** X12: the command line of both scripts: the process ends with code 0
    or 1; without an input file argument it ends with 1 and nothing is
    read, reset or written; with one, [mdToPdf] is run on it, on the
    output path (the second argument, or
    [basename(inputFile, '.md') + '.pdf'] when that is missing or empty)
    and on the title, the process ends in the state [mdToPdf] leaves,
    and it ends with 0 exactly when [mdToPdf] returns: with 0 when it
    returns, and then the output path holds a PDF document; with 1 when
    it throws, and then the file system is as it was. *)
Theorem cli_exit_code
    (lexer : string -> list Token) (basename : string -> string -> string)
    (pdfText : PDFDocument -> string) (template : string -> string -> string)
    (browser : Puppeteer) (argv : list string) (p : Process) :
  let spec (mdToPdf : string -> string -> option string -> Process ->
                      Result unit * Process) :=
    let code := fst (main basename mdToPdf argv p) in
    let p' := snd (main basename mdToPdf argv p) in
    (code = 0 \/ code = 1)
    /\ (argv !! 2%nat = None \/ argv !! 2%nat = Some EmptyString ->
        code = 1 /\ p' = p)
    /\ (forall inputFile,
          argv !! 2%nat = Some inputFile -> inputFile <> EmptyString ->
          let r := mdToPdf inputFile
                     (orDefault (argv !! 3%nat)
                        (basename inputFile ".md" +:+ ".pdf"))
                     (argv !! 4%nat) p in
          (code = 0 <-> fst r = Ok tt) /\ p' = snd r)
    /\ (code = 1 -> files p' = files p)
    /\ (code = 0 ->
        exists inputFile d,
          argv !! 2%nat = Some inputFile /\ inputFile <> EmptyString
          /\ fst (mdToPdf inputFile
                    (orDefault (argv !! 3%nat)
                       (basename inputFile ".md" +:+ ".pdf"))
                    (argv !! 4%nat) p) = Ok tt
          /\ files p'
             = <[orDefault (argv !! 3%nat)
                   (basename inputFile ".md" +:+ ".pdf") := FPdf d]> (files p))
  in
  spec (Server.mdToPdf lexer basename pdfText template browser)
  /\ spec (Part002.mdToPdf lexer basename pdfText template browser).
Proof.
  cbv zeta. split.
  - exact (main_spec lexer basename pdfText template Server.renderer
             Server.timeout Server.pageIdx browser argv p).
  - exact (main_spec lexer basename pdfText template Part002.renderer
             Part002.timeout Part002.targetPageIdx browser argv p).
Qed.

Lemma cli_exit_code_witness :
  let run := main sampleBasename
               (Server.mdToPdf sampleLexer sampleBasename samplePdfText
                  sampleTemplate readyBrowser) in
  fst (run ["node"; "md2pdf-converter.js"; "notes.md"] sampleProcess) = 0
  /\ (exists d,
        files (snd (run ["node"; "md2pdf-converter.js"; "notes.md"]
                      sampleProcess))
        = <["notes.md.pdf" := FPdf d]> (files sampleProcess))
  /\ run ["node"; "md2pdf-converter.js"] sampleProcess = (1, sampleProcess).
Proof.
  cbv zeta.
  destruct (cli_exit_code sampleLexer sampleBasename samplePdfText
              sampleTemplate readyBrowser
              ["node"; "md2pdf-converter.js"; "notes.md"] sampleProcess)
    as [(_ & _ & Hiff & _ & H0) _].
  destruct (cli_exit_code sampleLexer sampleBasename samplePdfText
              sampleTemplate readyBrowser
              ["node"; "md2pdf-converter.js"] sampleProcess)
    as [(_ & Hnone & _) _].
  assert (Hcode : fst (main sampleBasename
                         (Server.mdToPdf sampleLexer sampleBasename
                            samplePdfText sampleTemplate readyBrowser)
                         ["node"; "md2pdf-converter.js"; "notes.md"]
                         sampleProcess) = 0).
  { destruct (Hiff "notes.md" eq_refl) as [Hcode _]; [discriminate |].
    apply Hcode. vm_compute. reflexivity. }
  split; [exact Hcode |]. split.
  - destruct (H0 Hcode) as (inputFile & d & Hin & _ & _ & Hfiles).
    injection Hin as <-. exists d. exact Hfiles.
  - destruct (Hnone (or_introl eq_refl)) as [H1 H2].
    apply injective_projections; assumption.
Defined.

(** ** File names *)

Lemma replaceClass_one_cons cls r c s :
  replaceClass cls (fun _ => String r EmptyString) (String c s)
  = String (if cls c then r else c)
      (replaceClass cls (fun _ => String r EmptyString) s).
Proof. cbn [replaceClass]. destruct (cls c); reflexivity. Qed.

Lemma length_replaceClass_one cls r s :
  String.length (replaceClass cls (fun _ => String r EmptyString) s)
  = String.length s.
Proof.
  induction s as [| c s IH]; [reflexivity |].
  rewrite replaceClass_one_cons. cbn. now rewrite IH.
Qed.

Lemma replaceClass_chars cls r (P : ascii -> Prop) s :
  P r -> (forall c, cls c = false -> P c) ->
  Forall P (list_ascii_of_string (replaceClass cls (fun _ => String r EmptyString) s)).
Proof.
  intros Hr Hc. induction s as [| c s IH]; [constructor |].
  rewrite replaceClass_one_cons. cbn. constructor; [| exact IH].
  destruct (cls c) eqn:E; auto.
Qed.

Lemma replaceClass_fixed cls f s :
  Forall (fun c => cls c = false) (list_ascii_of_string s) ->
  replaceClass cls f s = s.
Proof.
  induction s as [| c s IH]; cbn; [reflexivity |].
  intros H. inversion H as [| ? ? Hc Hs]; subst. rewrite Hc. now rewrite IH.
Qed.

Lemma length_replaceRuns cls r s : forall inRun,
  (String.length (replaceRuns cls r inRun s) <= String.length s)%nat.
Proof.
  induction s as [| c s IH]; intros inRun; cbn; [lia |].
  destruct (cls c); [destruct inRun |]; cbn.
  - specialize (IH true). lia.
  - specialize (IH true). lia.
  - specialize (IH false). lia.
Qed.

(** A property of characters that the replacement character has survives
    the replacement of runs. *)
Lemma replaceRuns_chars cls r (P : ascii -> Prop) s : forall inRun,
  P r -> Forall P (list_ascii_of_string s) ->
  Forall P (list_ascii_of_string (replaceRuns cls r inRun s)).
Proof.
  induction s as [| c s IH]; intros inRun Hr H; cbn; [constructor |].
  inversion H as [| ? ? Hc Hs]; subst.
  destruct (cls c); [destruct inRun |]; cbn; try constructor; auto.
Qed.

(** No character of the class is left, when the replacement is outside
    the class. *)
Lemma replaceRuns_clears cls r s : forall inRun,
  cls r = false ->
  Forall (fun c => cls c = false)
    (list_ascii_of_string (replaceRuns cls r inRun s)).
Proof.
  induction s as [| c s IH]; intros inRun Hr; cbn; [constructor |].
  destruct (cls c) eqn:E; [destruct inRun |]; cbn; try constructor; auto.
Qed.

Lemma replaceRuns_fixed cls r s : forall inRun,
  Forall (fun c => cls c = false) (list_ascii_of_string s) ->
  replaceRuns cls r inRun s = s.
Proof.
  induction s as [| c s IH]; intros inRun H; cbn; [reflexivity |].
  inversion H as [| ? ? Hc Hs]; subst. rewrite Hc. now rewrite IH.
Qed.

Lemma isDot_spec c : isDot c = true <-> c = "."%char.
Proof. unfold isDot. apply Ascii.eqb_eq. Qed.

Lemma noDotDot_cons c s :
  noDotDot (String c s) = negb (isDot c && startsWithDot s) && noDotDot s.
Proof.
  destruct (isDot c) eqn:E.
  - apply isDot_spec in E. subst c. destruct s as [| c' s']; [reflexivity |].
    cbn [startsWithDot]. destruct (isDot c') eqn:E'.
    + apply isDot_spec in E'. subst c'. reflexivity.
    + assert (c' <> "."%char) by (intros ->; discriminate).
      cbn [andb negb]. cbn [noDotDot].
      destruct c' as [[] [] [] [] [] [] [] []]; try reflexivity; congruence.
  - cbn [andb negb]. assert (c <> "."%char) by (intros ->; discriminate).
    destruct c as [[] [] [] [] [] [] [] []]; try reflexivity; congruence.
Qed.

(** Collapsing the runs of dots leaves no two dots in a row; when the
    scan starts inside a run, what it emits does not start with a dot. *)
Lemma replaceRuns_noDotDot s : forall inRun,
  noDotDot (replaceRuns isDot "." inRun s) = true
  /\ (inRun = true -> startsWithDot (replaceRuns isDot "." inRun s) = false).
Proof.
  induction s as [| c s IH]; intros inRun; [split; reflexivity |].
  cbn [replaceRuns]. destruct (isDot c) eqn:E.
  - destruct (IH true) as [Hn Hs]. destruct inRun.
    + split; [exact Hn | intros _; now apply Hs].
    + split; [| discriminate].
      rewrite noDotDot_cons, Hn, Hs by reflexivity.
      now rewrite andb_false_r.
  - destruct (IH false) as [Hn _]. split.
    + rewrite noDotDot_cons, E, Hn. reflexivity.
    + intros _. cbn. exact E.
Qed.

Lemma replaceRuns_dots_fixed s : forall inRun,
  noDotDot s = true -> (inRun = true -> startsWithDot s = false) ->
  replaceRuns isDot "." inRun s = s.
Proof.
  induction s as [| c s IH]; intros inRun Hn Hs; [reflexivity |].
  rewrite noDotDot_cons in Hn. apply andb_true_iff in Hn as [Hc Hn].
  cbn [replaceRuns]. destruct (isDot c) eqn:E.
  - cbn in Hc. apply negb_true_iff in Hc.
    destruct inRun; [cbn in Hs; rewrite E in Hs; now specialize (Hs eq_refl) |].
    apply isDot_spec in E. subst c. f_equal. apply IH; [exact Hn | now intros _].
  - f_equal. apply IH; [exact Hn | discriminate].
Qed.

Lemma length_substring_0 n : forall s,
  String.length (substring 0 n s) = Nat.min n (String.length s).
Proof.
  induction n as [| n IH]; intros [| c s]; cbn; try reflexivity.
  now rewrite IH.
Qed.

Lemma substring_0_all n : forall s,
  (String.length s <= n)%nat -> substring 0 n s = s.
Proof.
  induction n as [| n IH]; intros [| c s] H; cbn in *; try reflexivity; [lia |].
  f_equal. apply IH. lia.
Qed.

Lemma substring_0_chars (P : ascii -> Prop) n : forall s,
  Forall P (list_ascii_of_string s) ->
  Forall P (list_ascii_of_string (substring 0 n s)).
Proof.
  induction n as [| n IH]; intros [| c s] H; cbn; try constructor.
  - now inversion H.
  - apply IH. now inversion H.
Qed.

Lemma substring_0_noDotDot n : forall s,
  noDotDot s = true -> noDotDot (substring 0 n s) = true.
Proof.
  induction n as [| n IH]; intros [| c s] H; try reflexivity.
  change (substring 0 (S n) (String c s)) with (String c (substring 0 n s)).
  rewrite noDotDot_cons in H |- *. apply andb_true_iff in H as [Hc Hn].
  rewrite IH by exact Hn. rewrite andb_true_r.
  destruct (isDot c); [| reflexivity]. cbn in Hc |- *.
  destruct s as [| c' s']; [destruct n; reflexivity |].
  destruct n; [reflexivity |]. exact Hc.
Qed.

Lemma trimEnd_fixed s :
  Forall (fun c => isSpace c = false) (list_ascii_of_string s) ->
  trimEnd s = s.
Proof.
  induction s as [| c s IH]; intros H; [reflexivity |].
  inversion H as [| ? ? Hc Hs]; subst. cbn [trimEnd].
  rewrite IH by exact Hs. rewrite Hc. now destruct s.
Qed.

Lemma trim_fixed s :
  Forall (fun c => isSpace c = false) (list_ascii_of_string s) ->
  trim s = s.
Proof.
  intros H. unfold trim.
  assert (Hs : trimStart s = s).
  { destruct s as [| c s]; [reflexivity |]. cbn.
    inversion H as [| ? ? Hc _]; subst. now rewrite Hc. }
  rewrite Hs. now apply trimEnd_fixed.
Qed.

Lemma sanitizedCore_plain filename :
  Forall (fun c => reserved c = false /\ isSpace c = false)
    (list_ascii_of_string (sanitizedCore filename)).
Proof.
  unfold sanitizedCore. apply substring_0_chars.
  apply replaceRuns_chars; [split; reflexivity |].
  apply Forall_and; split.
  - apply replaceRuns_chars; [reflexivity |].
    apply (replaceClass_chars reserved "_"); [reflexivity | auto].
  - apply replaceRuns_clears. reflexivity.
Qed.

Lemma sanitizeFilename_core filename :
  sanitizeFilename filename = sanitizedCore filename.
Proof.
  unfold sanitizeFilename. fold (sanitizedCore filename). apply trim_fixed.
  eapply Forall_impl; [apply sanitizedCore_plain |]. now intros c [_ H].
Qed.

Lemma plainChar_spec c :
  plainChar c = true <-> reserved c = false /\ isSpace c = false.
Proof.
  unfold plainChar. rewrite andb_true_iff, !negb_true_iff. reflexivity.
Qed.

Lemma forallb_Forall {A} (f : A -> bool) (l : list A) :
  forallb f l = true <-> Forall (fun x => f x = true) l.
Proof.
  induction l as [| x l IH]; cbn; [split; [constructor | reflexivity] |].
  rewrite andb_true_iff, IH. split.
  - intros [H1 H2]. now constructor.
  - intros H. now inversion H.
Qed.

Lemma sanitizeFilename_isSanitized filename :
  isSanitized (sanitizeFilename filename) = true.
Proof.
  rewrite sanitizeFilename_core. unfold isSanitized.
  rewrite !andb_true_iff. split; [split |].
  - apply forallb_Forall. eapply Forall_impl; [apply sanitizedCore_plain |].
    intros c H. now apply plainChar_spec.
  - unfold sanitizedCore. apply substring_0_noDotDot.
    apply (replaceRuns_noDotDot _ false).
  - apply Nat.leb_le. unfold sanitizedCore. rewrite length_substring_0. lia.
Qed.

Lemma isSanitized_fixed s : isSanitized s = true -> sanitizeFilename s = s.
Proof.
  unfold isSanitized. rewrite !andb_true_iff.
  intros [[Hc Hd] Hl]. apply Nat.leb_le in Hl.
  apply forallb_Forall in Hc.
  assert (Hres : Forall (fun c => reserved c = false) (list_ascii_of_string s))
    by (eapply Forall_impl; [exact Hc |]; intros c H;
        now apply plainChar_spec in H).
  assert (Hsp : Forall (fun c => isSpace c = false) (list_ascii_of_string s))
    by (eapply Forall_impl; [exact Hc |]; intros c H;
        now apply plainChar_spec in H).
  rewrite sanitizeFilename_core. unfold sanitizedCore.
  rewrite replaceClass_fixed by exact Hres.
  rewrite (replaceRuns_fixed isSpace) by exact Hsp.
  rewrite replaceRuns_dots_fixed by (auto; discriminate).
  now apply substring_0_all.
Qed.

Lemma append_assoc (a b c : string) : (a +:+ b) +:+ c = a +:+ (b +:+ c).
Proof. induction a as [| x a IH]; [reflexivity |]. rewrite !append_cons. now rewrite IH. Qed.

Lemma replaceClass_app cls f a b :
  replaceClass cls f (a +:+ b) = replaceClass cls f a +:+ replaceClass cls f b.
Proof.
  induction a as [| c a IH]; [reflexivity |].
  rewrite append_cons. cbn [replaceClass]. rewrite IH.
  destruct (cls c); [| now rewrite append_cons].
  symmetry. apply append_assoc.
Qed.

(** A character outside the class ends the run that precedes it. *)
Lemma replaceRuns_app_plain cls r c t a : forall inRun,
  cls c = false ->
  replaceRuns cls r inRun (a +:+ String c t)
  = replaceRuns cls r inRun a +:+ String c (replaceRuns cls r false t).
Proof.
  induction a as [| c' a IH]; intros inRun Hc.
  - change (replaceRuns cls r inRun (String c t)
            = String c (replaceRuns cls r false t)).
    cbn [replaceRuns]. now rewrite Hc.
  - rewrite append_cons. cbn [replaceRuns].
    destruct (cls c'); [destruct inRun |]; rewrite ?append_cons, IH by exact Hc;
      reflexivity.
Qed.

(** Collapsing the dots of a name that ends in [.pdf] keeps that ending;
    when the scan starts inside a run of dots and the name holds nothing
    but dots before it, the dot of the ending belongs to that run. *)
Lemma replaceRuns_dot_pdf a :
  (exists z, replaceRuns isDot "." false (a +:+ ".pdf") = z +:+ ".pdf")
  /\ (replaceRuns isDot "." true (a +:+ ".pdf") = "pdf"
      \/ exists z, replaceRuns isDot "." true (a +:+ ".pdf") = z +:+ ".pdf").
Proof.
  induction a as [| c a [[z Hf] Ht]].
  - split; [exists EmptyString; reflexivity | left; reflexivity].
  - rewrite append_cons. cbn [replaceRuns]. destruct (isDot c) eqn:E.
    + split; [| exact Ht].
      destruct Ht as [-> | [z' ->]];
        [exists EmptyString; reflexivity | exists (String "." z'); reflexivity].
    + rewrite Hf. split; [| right]; exists (String c z); reflexivity.
Qed.

Lemma substring_0_app a : forall k b,
  substring 0 (String.length a + k) (a +:+ b) = a +:+ substring 0 k b.
Proof.
  induction a as [| c a IH]; intros k b; [reflexivity |].
  rewrite !append_cons. cbn. now rewrite IH.
Qed.

Lemma list_ascii_of_string_app a b :
  list_ascii_of_string (a +:+ b)
  = list_ascii_of_string a ++ list_ascii_of_string b.
Proof.
  induction a as [| c a IH]; [reflexivity |].
  rewrite append_cons. cbn. now rewrite IH.
Qed.

Lemma isWordChar_plain c :
  isWordChar c = true -> reserved c = false /\ isSpace c = false /\ isDot c = false.
Proof.
  destruct c as [[] [] [] [] [] [] [] []]; cbn; intros H;
    try discriminate H; repeat split.
Qed.

Lemma noDotDot_app_plain a b :
  Forall (fun c => isDot c = false) (list_ascii_of_string a) ->
  noDotDot (a +:+ b) = noDotDot b.
Proof.
  induction a as [| c a IH]; intros H; [reflexivity |].
  inversion H as [| ? ? Hc Ha]; subst.
  rewrite append_cons, noDotDot_cons, Hc. now rewrite IH.
Qed.

(** X8: [sanitizeFilename] of src/server/server.js: whatever the name,
    the result has at most 255 characters and no more than the name, holds
    none of the reserved characters (less-than, greater-than, colon, double
    quote, slash, backslash, bar, question mark, star), no white space and
    no two dots in a row; in particular it holds no path separator and no
    [..] segment. *)
Theorem sanitizeFilename_safe (filename : string) :
  let name := sanitizeFilename filename in
  (String.length name <= 255)%nat
  /\ (String.length name <= String.length filename)%nat
  /\ Forall (fun c => reserved c = false /\ isSpace c = false)
       (list_ascii_of_string name)
  /\ noDotDot name = true
  /\ name <> "..".
Proof.
  cbv zeta. rewrite sanitizeFilename_core.
  split; [unfold sanitizedCore; rewrite length_substring_0; lia |].
  split.
  { unfold sanitizedCore. rewrite length_substring_0.
    pose proof (length_replaceRuns isDot "."
                  (replaceRuns isSpace "_" false
                     (replaceClass reserved (fun _ => "_") filename)) false).
    pose proof (length_replaceRuns isSpace "_"
                  (replaceClass reserved (fun _ => "_") filename) false).
    pose proof (length_replaceClass_one reserved "_" filename) as Hlen.
    change (fun _ : ascii => String "_" EmptyString) with (fun _ : ascii => "_") in Hlen.
    lia. }
  split; [apply sanitizedCore_plain |].
  assert (Hn : noDotDot (sanitizedCore filename) = true).
  { unfold sanitizedCore. apply substring_0_noDotDot.
    apply (replaceRuns_noDotDot _ false). }
  split; [exact Hn |]. intros E. rewrite E in Hn. discriminate Hn.
Qed.

(** X9: [sanitizeFilename] is idempotent, and the names it leaves as
    they are are exactly the names of at most 255 characters without
    reserved character, white space or two dots in a row. *)
Theorem sanitizeFilename_fixpoints (filename : string) :
  sanitizeFilename (sanitizeFilename filename) = sanitizeFilename filename
  /\ (sanitizeFilename filename = filename <-> isSanitized filename = true).
Proof.
  split; [apply isSanitized_fixed, sanitizeFilename_isSanitized |].
  split; [| apply isSanitized_fixed].
  intros E. rewrite <- E. apply sanitizeFilename_isSanitized.
Qed.

(** X10: the name of the converted file, [sanitizeFilename] of
    [`${originalName}.pdf`] (server.js, lines 91-95): for an original name
    of at most 251 characters it ends in [.pdf]; for an original name of
    252 word characters the cut at 255 characters takes the last letter
    of the extension away. *)
Theorem sanitized_output_name_extension (originalName : string) :
  ((String.length originalName <= 251)%nat ->
   exists stem, sanitizeFilename (originalName +:+ ".pdf") = stem +:+ ".pdf")
  /\ (String.length originalName = 252%nat ->
      Forall (fun c => isWordChar c = true) (list_ascii_of_string originalName) ->
      sanitizeFilename (originalName +:+ ".pdf") = originalName +:+ ".pd").
Proof.
  split.
  - intros Hlen. rewrite sanitizeFilename_core. unfold sanitizedCore.
    rewrite replaceClass_app.
    change (replaceClass reserved (fun _ => "_") ".pdf") with ".pdf".
    rewrite (replaceRuns_app_plain isSpace "_" "." "pdf") by reflexivity.
    change (String "." (replaceRuns isSpace "_" false "pdf")) with ".pdf".
    destruct (replaceRuns_dot_pdf
                (replaceRuns isSpace "_" false
                   (replaceClass reserved (fun _ => "_") originalName)))
      as [[z Hz] _].
    exists z. rewrite <- Hz. apply substring_0_all.
    pose proof (length_replaceRuns isDot "."
                  (replaceRuns isSpace "_" false
                     (replaceClass reserved (fun _ => "_") originalName)
                   +:+ ".pdf") false) as H1.
    rewrite length_append in H1.
    pose proof (length_replaceRuns isSpace "_"
                  (replaceClass reserved (fun _ => "_") originalName) false) as H2.
    pose proof (length_replaceClass_one reserved "_" originalName) as H3.
    change (fun _ : ascii => String "_" EmptyString) with (fun _ : ascii => "_") in H3.
    cbn [String.length] in H1. lia.
  - intros Hlen Hword. rewrite sanitizeFilename_core. unfold sanitizedCore.
    assert (Hall : Forall (fun c => reserved c = false /\ isSpace c = false
                                    /\ isDot c = false)
                     (list_ascii_of_string originalName))
      by (eapply Forall_impl; [exact Hword | apply isWordChar_plain]).
    assert (Hfull : Forall (fun c => reserved c = false /\ isSpace c = false)
                      (list_ascii_of_string (originalName +:+ ".pdf"))).
    { rewrite list_ascii_of_string_app. apply Forall_app. split.
      - eapply Forall_impl; [exact Hall |]. now intros c (? & ? & _).
      - repeat constructor. }
    rewrite replaceClass_fixed
      by (eapply Forall_impl; [exact Hfull |]; now intros c [? _]).
    rewrite (replaceRuns_fixed isSpace)
      by (eapply Forall_impl; [exact Hfull |]; now intros c [_ ?]).
    rewrite replaceRuns_dots_fixed; [| | discriminate].
    + replace 255%nat with (String.length originalName + 3)%nat by lia.
      rewrite substring_0_app. reflexivity.
    + rewrite noDotDot_app_plain; [reflexivity |].
      eapply Forall_impl; [exact Hall |]. now intros c (_ & _ & ?).
Qed.

(** A 252-character original name. *)
Lemma sanitized_output_name_extension_witness :
  (exists stem, sanitizeFilename ("my notes..pdf") = stem +:+ ".pdf")
  /\ sanitizeFilename (String.concat "" (replicate 252 "a") +:+ ".pdf")
     = String.concat "" (replicate 252 "a") +:+ ".pd".
Proof.
  split.
  - apply (proj1 (sanitized_output_name_extension "my notes.")).
    vm_compute. lia.
  - apply (proj2 (sanitized_output_name_extension
                    (String.concat "" (replicate 252 "a")))).
    + vm_compute. reflexivity.
    + apply forallb_Forall. vm_compute. reflexivity.
Defined.

(** ** The convert route of the web server *)

Lemma foldl_delete_lookup (l : list string) : forall (fs : gmap string File) path,
  foldl (fun fs file => delete file fs) fs l !! path
  = if decide (path ∈ l) then None else fs !! path.
Proof.
  induction l as [| x l IH]; intros fs path; cbn [foldl].
  - destruct (decide (path ∈ [])) as [H | _]; [| reflexivity].
    now apply not_elem_of_nil in H.
  - rewrite IH. destruct (decide (path ∈ l)) as [Hl | Hl].
    + destruct (decide (path ∈ x :: l)) as [_ | H]; [reflexivity |].
      exfalso. apply H. now right.
    + destruct (decide (path = x)) as [-> | Hne].
      * rewrite lookup_delete_eq.
        destruct (decide (x ∈ x :: l)) as [_ | H]; [reflexivity |].
        exfalso. apply H. now left.
      * rewrite lookup_delete_ne by congruence.
        destruct (decide (path ∈ x :: l)) as [H | _]; [| reflexivity].
        apply elem_of_cons in H as [H | H]; contradiction.
Qed.

(** After [cleanupFiles], a path is gone when it is listed and not the
    empty string, and is as it was otherwise. *)
Lemma cleanupFiles_lookup files (fs : gmap string File) path :
  cleanupFiles files fs !! path
  = if decide (Some path ∈ files /\ path <> EmptyString) then None
    else fs !! path.
Proof.
  unfold cleanupFiles. rewrite foldl_delete_lookup.
  match goal with |- context [omap ?f files] => set (keep := f) end.
  assert (Hin : path ∈ omap keep files
                <-> Some path ∈ files /\ path <> EmptyString
                    /\ is_Some (fs !! path)).
  { rewrite list_elem_of_omap. split.
    - intros ([file |] & Hfile & Hkeep); [| discriminate Hkeep].
      unfold keep in Hkeep.
      destruct (String.eqb_spec file EmptyString) as [E | E];
        [discriminate Hkeep |].
      cbn [negb andb] in Hkeep. unfold existsSync in Hkeep.
      destruct (bool_decide (is_Some (fs !! file))) eqn:Ex;
        [| discriminate Hkeep].
      injection Hkeep as <-. apply bool_decide_eq_true in Ex. auto.
    - intros (Hfile & Hne & Hex). exists (Some path). split; [exact Hfile |].
      unfold keep. destruct (String.eqb_spec path EmptyString) as [E | _];
        [contradiction |].
      cbn [negb andb]. unfold existsSync.
      now rewrite bool_decide_eq_true_2. }
  destruct (decide (path ∈ omap keep files)) as [H | H];
    destruct (decide (Some path ∈ files /\ path <> EmptyString)) as [H' | H'];
    try reflexivity.
  - exfalso. apply H'. apply Hin in H. tauto.
  - destruct (fs !! path) eqn:E; [| reflexivity].
    exfalso. apply H, Hin. destruct H'. repeat split; eauto.
Qed.

(** X13: [cleanupFiles] of src/server/server.js: every listed path other
    than the empty string is gone afterwards, whether it existed or not;
    every path that is not listed is as it was; undefined elements and
    paths listed twice are harmless; and a second call changes nothing. *)
Theorem cleanupFiles_removes_listed
    (files : list (option string)) (fs : gmap string File) :
  (forall path, Some path ∈ files -> path <> EmptyString ->
                cleanupFiles files fs !! path = None)
  /\ (forall path, Some path ∉ files ->
                   cleanupFiles files fs !! path = fs !! path)
  /\ cleanupFiles (None :: files ++ files) fs = cleanupFiles files fs
  /\ cleanupFiles files (cleanupFiles files fs) = cleanupFiles files fs.
Proof.
  split; [| split; [| split]].
  - intros path Hin Hne. rewrite cleanupFiles_lookup.
    destruct (decide _) as [_ | H]; [reflexivity | exfalso; auto].
  - intros path Hin. rewrite cleanupFiles_lookup.
    destruct (decide _) as [[H _] | _]; [contradiction | reflexivity].
  - apply map_eq. intros path. rewrite !cleanupFiles_lookup.
    destruct (decide (Some path ∈ files /\ path <> EmptyString)) as [[H1 H2] | H];
      destruct (decide (Some path ∈ None :: files ++ files /\ path <> EmptyString))
        as [[H1' H2'] | H']; try reflexivity.
    + exfalso. apply H'. split; [| exact H2].
      right. apply elem_of_app. now left.
    + exfalso. apply H. split; [| exact H2'].
      apply elem_of_cons in H1' as [E | H1']; [discriminate E |].
      apply elem_of_app in H1' as [? | ?]; assumption.
  - apply map_eq. intros path. rewrite !cleanupFiles_lookup.
    destruct (decide _); reflexivity.
Qed.

Section ServerAppFacts.

Variable lexer : string -> list Token.
Variable basename : string -> string -> string.
Variable pdfText : PDFDocument -> string.
Variable template : string -> string -> string.
Variable parseName : string -> string.
Variable join : string -> string -> string.

(** [path.join] never returns the empty string (it returns a dot for an
    empty path). *)
Hypothesis join_nonempty : forall a b, join a b <> EmptyString.

Lemma runMdToPdf_spec child inputFile outputFile title fs :
  outputFile <> EmptyString ->
  let r := runMdToPdf lexer basename pdfText template child inputFile
             outputFile title fs in
  match fst r with
  | None => inputFile <> EmptyString
            /\ exists d, snd r = <[outputFile := FPdf d]> fs
  | Some e => snd r = fs /\ forall n, e <> GenerationFailed n
  end.
Proof.
  intros Hout. cbv zeta. unfold runMdToPdf.
  destruct child as [browser | |]; [| cbn; split; [reflexivity | discriminate] ..].
  pose proof (main_spec lexer basename pdfText template Server.renderer
                Server.timeout Server.pageIdx browser
                ["node"; "md2pdf-converter.js"; inputFile; outputFile; title]
                (mkProcess [] fs)) as Hmain.
  cbv zeta in Hmain. fold Server.addBookmarksToPdf in Hmain.
  fold (Server.mdToPdf lexer basename pdfText template browser) in Hmain.
  destruct (main basename _ _ _) as [code p'] eqn:Hrun. cbn [fst snd] in Hmain.
  destruct Hmain as (Hcode & _ & _ & H1 & H0).
  destruct Hcode as [-> | ->]; cbn [Z.eqb fst snd].
  - destruct (H0 eq_refl) as (input & d & Hin & Hne & _ & Hfiles).
    cbn [lookup list_lookup] in Hin. injection Hin as ->.
    split; [exact Hne |].
    exists d. rewrite Hfiles. cbn [lookup list_lookup files].
    destruct outputFile; [contradiction | reflexivity].
  - split; [now apply H1 | discriminate].
Qed.

(** The conversion loop: the files are converted in order until one is
    rejected; each converted file adds its upload path and its output
    file to the two arrays and writes its output path, and nothing else
    is written. *)
Lemma convertAll_spec (files : list Upload) :
  forall env i inputFiles outputFiles fs,
  let r := convertAll lexer basename pdfText template parseName join env i
             files inputFiles outputFiles fs in
  exists k newOutputs,
    snd (fst r) = (inputFiles ++ (up_path <$> take k files),
                   outputFiles ++ newOutputs)
    /\ length newOutputs = k /\ (k <= length files)%nat
    /\ (fst (fst r) = None -> k = length files)
    /\ (forall e, fst (fst r) = Some e ->
                  (k < length files)%nat /\ forall n, e <> GenerationFailed n)
    /\ (forall path, path ∉ (out_path <$> newOutputs) ->
                     snd r !! path = fs !! path)
    /\ Forall (fun file => up_path file <> EmptyString) (take k files)
    /\ (forall j o, newOutputs !! j = Some o ->
          exists file,
            files !! j = Some file
            /\ out_name o
               = sanitizeFilename (parseName (up_originalname file) +:+ ".pdf")
            /\ out_path o
               = join OUTPUT_DIR
                   (pretty (now (env (i + j)%nat)) +:+ "-" +:+ out_name o)).
Proof.
  induction files as [| file rest IH]; intros env i inputFiles outputFiles fs;
    cbv zeta.
  - exists 0%nat, []. cbn [convertAll fst snd take fmap list_fmap length].
    rewrite !app_nil_r.
    split; [reflexivity |]. split; [reflexivity |]. split; [lia |].
    split; [reflexivity |]. split; [discriminate |].
    split; [reflexivity |]. split; [constructor |].
    intros j o Ho. discriminate Ho.
  - cbn [convertAll].
    set (outputName := sanitizeFilename (parseName (up_originalname file) +:+ ".pdf")).
    set (outputFile := join OUTPUT_DIR (pretty (now (env i)) +:+ "-" +:+ outputName)).
    pose proof (runMdToPdf_spec (child (env i)) (up_path file) outputFile
                  (parseName (up_originalname file)) fs
                  (join_nonempty _ _)) as Hrun.
    cbv zeta in Hrun.
    destruct (runMdToPdf _ _ _ _ _ _ _ _ _) as [[e |] fs1]; cbn [fst snd] in Hrun.
    + destruct Hrun as [-> Hne]. exists 0%nat, [].
      cbn [fst snd take fmap list_fmap length]. rewrite !app_nil_r.
      split; [reflexivity |]. split; [reflexivity |]. split; [lia |].
      split; [discriminate |].
      split; [intros e' [= <-]; split; [lia | exact Hne] |].
      split; [reflexivity |]. split; [constructor |].
      intros j o Ho. discriminate Ho.
    + destruct Hrun as [Hinput [d ->]]. unfold existsSync.
      rewrite bool_decide_eq_true_2 by (rewrite lookup_insert_eq; eauto).
      cbn [negb].
      destruct (IH env (S i) (inputFiles ++ [up_path file])
                  (outputFiles ++ [mkOutputFile outputFile outputName])
                  (<[outputFile := FPdf d]> fs))
        as (k & newOutputs & Hst & Hlen & Hk & Hnone & Hsome & Hframe & Hin
            & Hout).
      exists (S k), (mkOutputFile outputFile outputName :: newOutputs).
      split.
      { rewrite Hst. cbn [take fmap list_fmap].
        rewrite <- !app_assoc. reflexivity. }
      split; [cbn; lia |]. split; [cbn; lia |].
      split; [intros H; cbn; f_equal; now apply Hnone |].
      split; [intros e H; destruct (Hsome e H); split; [cbn; lia | assumption] |].
      split.
      { intros path Hpath. rewrite fmap_cons in Hpath.
        apply not_elem_of_cons in Hpath as [Hne Hpath].
        rewrite Hframe by exact Hpath. cbn in Hne.
        now rewrite lookup_insert_ne. }
      split; [cbn [take]; now constructor |].
      intros [| j] o Ho.
      * injection Ho as <-. exists file. rewrite Nat.add_0_r. auto.
      * destruct (Hout j o Ho) as (f & Hf & Hn & Hp). exists f.
        split; [exact Hf |]. split; [exact Hn |].
        replace (i + S j)%nat with (S i + j)%nat by lia. exact Hp.
Qed.

End ServerAppFacts.

(** The list that the handlers pass to [cleanupFiles], against the paths
    it is made of. *)
Lemma listed_paths (ins outs : list string) (last : option string) path :
  Some path ∈ (Some <$> ins) ++ (Some <$> outs) ++ [last]
  <-> path ∈ ins ++ outs \/ last = Some path.
Proof.
  rewrite !elem_of_app, !list_elem_of_fmap, list_elem_of_singleton. split.
  - intros [(x & [= <-] & Hx) | [(x & [= <-] & Hx) | Hx]]; auto.
  - intros [[Hx | Hx] | Hx]; eauto.
Qed.

(** X14: the convert route when a conversion fails (the child exits
    with a code other than 0, is killed by the spawn timeout or cannot be
    started): the response is 500 CONVERSION_FAILED; what failed is the
    child, never the check that the output exists; the files converted
    before the failure are the first ones in order, and their uploads and
    PDFs are deleted; no path is left changed; but the upload of the file
    whose conversion failed and the uploads of the files after it are not
    in the list that is cleaned up and stay on the disk. *)
Theorem failed_request_keeps_later_uploads
    (lexer : string -> list Token) (basename : string -> string -> string)
    (pdfText : PDFDocument -> string) (template : string -> string -> string)
    (parseName : string -> string) (join : string -> string -> string)
    (req : Request) (files : list Upload) (env : nat -> Turn)
    (fs : gmap string File)
    (e : Rejection) (inputFiles : list string) (outputFiles : list OutputFile)
    (fs' : gmap string File) :
  (forall a b, join a b <> EmptyString) ->
  req_files req = Some files ->
  convertAll lexer basename pdfText template parseName join env 0 files [] [] fs
    = (Some e, (inputFiles, outputFiles), fs') ->
  let k := length inputFiles in
  let reply := fst (convertRoute lexer basename pdfText template parseName join
                      req env fs) in
  let final := snd (convertRoute lexer basename pdfText template parseName join
                      req env fs) in
  reply = Json 500 "CONVERSION_FAILED"
  /\ (forall n, e <> GenerationFailed n)
  /\ (k < length files)%nat
  /\ inputFiles = up_path <$> take k files
  /\ length outputFiles = k
  /\ (forall path, path ∈ inputFiles ++ (out_path <$> outputFiles) ->
                   final !! path = None)
  /\ (forall path, final !! path = None \/ final !! path = fs !! path)
  /\ (forall j file, (k <= j)%nat -> files !! j = Some file ->
        up_path file ∉ inputFiles ++ (out_path <$> outputFiles) ->
        final !! up_path file = fs !! up_path file).
Proof.
  intros Hjoin Hfiles Hrun. cbv zeta.
  pose proof (convertAll_spec lexer basename pdfText template parseName join
                Hjoin files env 0%nat [] [] fs) as Hspec.
  cbv zeta in Hspec. rewrite Hrun in Hspec. cbn [fst snd] in Hspec.
  destruct Hspec
    as (k & newOutputs & Hst & Hlen & Hk & _ & Hsome & Hframe & Hin & Hout).
  cbn [app] in Hst. injection Hst as -> ->.
  destruct (Hsome e eq_refl) as [Hlt Hne].
  assert (Hki : length (up_path <$> take k files) = k)
    by (rewrite length_fmap, length_take; lia).
  rewrite Hki.
  assert (Hroute : convertRoute lexer basename pdfText template parseName join
                     req env fs
                   = (Json 500 "CONVERSION_FAILED",
                      cleanupFiles
                        ((Some <$> (up_path <$> take k files))
                           ++ (Some <$> (out_path <$> newOutputs)) ++ [None])
                        fs')).
  { unfold convertRoute. rewrite Hfiles.
    destruct files as [| f fl]; [cbn in Hlt; lia |]. now rewrite Hrun. }
  rewrite Hroute. cbn [fst snd].
  assert (Hnonempty : forall path,
             path ∈ (up_path <$> take k files) ++ (out_path <$> newOutputs) ->
             path <> EmptyString).
  { intros path Hp. apply elem_of_app in Hp as [Hp | Hp];
      apply list_elem_of_fmap in Hp as (x & -> & Hx).
    - rewrite Forall_forall in Hin. now apply Hin.
    - apply list_elem_of_lookup in Hx as [j Hj].
      destruct (Hout j x Hj) as (f & _ & _ & ->). apply Hjoin. }
  assert (Hfinal : forall path,
             cleanupFiles
               ((Some <$> (up_path <$> take k files))
                  ++ (Some <$> (out_path <$> newOutputs)) ++ [None]) fs' !! path
             = if decide (path ∈ (up_path <$> take k files)
                                   ++ (out_path <$> newOutputs))
               then None else fs !! path).
  { intros path. rewrite cleanupFiles_lookup.
    destruct (decide (path ∈ _ ++ _)) as [Hp | Hp];
      destruct (decide (_ /\ _)) as [Hl | Hl]; try reflexivity.
    - exfalso. apply Hl. split; [| now apply Hnonempty].
      apply listed_paths. now left.
    - exfalso. destruct Hl as [Hl _]. apply listed_paths in Hl as [Hl | Hl];
        [contradiction | discriminate Hl].
    - apply Hframe. intros Ho. apply Hp. apply elem_of_app. now right. }
  split; [reflexivity |]. split; [exact Hne |]. split; [exact Hlt |].
  split; [reflexivity |]. split; [exact Hlen |].
  split; [| split].
  - intros path Hp. rewrite Hfinal. now rewrite decide_True.
  - intros path. rewrite Hfinal. destruct (decide _); auto.
  - intros j file Hj Hfile Hnot. rewrite Hfinal. now rewrite decide_False.
Qed.

Lemma failed_request_keeps_later_uploads_witness :
  let reply := fst (convertRoute sampleLexer sampleBasename samplePdfText
                      sampleTemplate sampleParseName sampleJoin
                      (mkRequest (Some [uploadA; uploadB]) None)
                      secondKilled serverDisk) in
  let final := snd (convertRoute sampleLexer sampleBasename samplePdfText
                      sampleTemplate sampleParseName sampleJoin
                      (mkRequest (Some [uploadA; uploadB]) None)
                      secondKilled serverDisk) in
  reply = Json 500 "CONVERSION_FAILED"
  /\ final !! up_path uploadA = None
  /\ final !! "outputs/1700000000000-notes.pdf" = None
  /\ final !! up_path uploadB = Some (FText "# **Bold** title").
Proof.
  cbv zeta.
  destruct (failed_request_keeps_later_uploads sampleLexer sampleBasename
              samplePdfText sampleTemplate sampleParseName sampleJoin
              (mkRequest (Some [uploadA; uploadB]) None) [uploadA; uploadB]
              secondKilled serverDisk (ExitedWith None)
              [up_path uploadA]
              [mkOutputFile "outputs/1700000000000-notes.pdf" "notes.pdf"]
              (snd (convertAll sampleLexer sampleBasename samplePdfText
                      sampleTemplate sampleParseName sampleJoin secondKilled 0
                      [uploadA; uploadB] [] [] serverDisk)))
    as (Hreply & _ & _ & _ & _ & Hgone & _ & Hkept).
  - intros a b. destruct a; discriminate.
  - reflexivity.
  - vm_compute. reflexivity.
  - cbv zeta in Hgone, Hkept.
    split; [exact Hreply |].
    split; [apply Hgone; vm_compute; apply list_elem_of_In; simpl; tauto |].
    split; [apply Hgone; vm_compute; apply list_elem_of_In; simpl; tauto |].
    rewrite (Hkept 1%nat uploadB);
      [vm_compute; reflexivity | cbn; lia | reflexivity |].
    vm_compute. intros H. apply list_elem_of_In in H. simpl in H.
    intuition discriminate.
Defined.



(** ** Extensions and output names of the client *)

Lemma toLowerCase_app a b :
  toLowerCase (a +:+ b) = toLowerCase a +:+ toLowerCase b.
Proof.
  induction a as [| c a IH]; [reflexivity |].
  rewrite append_cons. cbn [toLowerCase]. rewrite IH. now rewrite append_cons.
Qed.

Lemma length_toLowerCase s : String.length (toLowerCase s) = String.length s.
Proof. induction s as [| c s IH]; cbn; [reflexivity | now rewrite IH]. Qed.

Lemma substring_skip a : forall m b,
  substring (String.length a) m (a +:+ b) = substring 0 m b.
Proof.
  induction a as [| c a IH]; intros m b; [reflexivity |].
  rewrite append_cons. cbn [String.length substring]. apply IH.
Qed.

Lemma substring_split n : forall m s,
  substring 0 n s +:+ substring n m s = substring 0 (n + m) s.
Proof.
  induction n as [| n IH]; intros m s.
  - cbn [Nat.add]. destruct m, s; reflexivity.
  - destruct s as [| c s]; [reflexivity |].
    cbn [Nat.add substring]. rewrite append_cons. now rewrite IH.
Qed.

(** [endsWith] holds exactly of the texts that are some text followed by
    the suffix. *)
Lemma endsWith_spec suffix s :
  endsWith suffix s = true <-> exists stem, s = stem +:+ suffix.
Proof.
  unfold endsWith. rewrite andb_true_iff, Nat.leb_le, String.eqb_eq. split.
  - intros [Hlen Heq].
    exists (substring 0 (String.length s - String.length suffix) s).
    pose proof (substring_split (String.length s - String.length suffix)
                  (String.length suffix) s) as H.
    rewrite Heq in H. rewrite H. symmetry. apply substring_0_all. lia.
  - intros [stem ->]. rewrite length_append. split; [lia |].
    replace (String.length stem + String.length suffix - String.length suffix)%nat
      with (String.length stem) by lia.
    rewrite substring_skip. now apply substring_0_all.
Qed.

Lemma endsWith_app stem suffix : endsWith suffix (stem +:+ suffix) = true.
Proof. apply endsWith_spec. now exists stem. Qed.

(** Without a match the replacement changes nothing. *)
Lemma removeMatch_no_match alts s : test alts s = false -> removeMatch alts s = s.
Proof.
  induction s as [| c s IH]; cbn [test removeMatch]; intros H;
    apply orb_false_iff in H as [H1 H2]; rewrite H1; [reflexivity |].
  now rewrite IH.
Qed.

(** With a match, the text is a stem followed by the match, and the
    replacement leaves the stem. *)
Lemma removeMatch_match alts s :
  test alts s = true ->
  exists ext, matchesHere alts ext = true /\ s = removeMatch alts s +:+ ext.
Proof.
  induction s as [| c s IH]; cbn [test removeMatch]; intros H.
  - rewrite orb_false_r in H. rewrite H. now exists EmptyString.
  - destruct (matchesHere alts (String c s)) eqn:E.
    + now exists (String c s).
    + cbn [orb] in H. destruct (IH H) as (ext & Hext & Hs).
      exists ext. split; [exact Hext |]. rewrite append_cons. now f_equal.
Qed.

(** The two regular expressions of the client, by what they match. *)
Lemma matchesHere_markdown ext :
  matchesHere ["md"; "markdown"] ext = true
  <-> toLowerCase ext = ".md" \/ toLowerCase ext = ".markdown".
Proof.
  unfold matchesHere, eqbIgnoreCase. cbn [existsb].
  rewrite orb_false_r, orb_true_iff, !String.eqb_eq. reflexivity.
Qed.

Lemma matchesHere_archive ext :
  matchesHere ["zip"; "pdf"] ext = true
  <-> toLowerCase ext = ".zip" \/ toLowerCase ext = ".pdf".
Proof.
  unfold matchesHere, eqbIgnoreCase. cbn [existsb].
  rewrite orb_false_r, orb_true_iff, !String.eqb_eq. reflexivity.
Qed.

Lemma string_length_0 s : String.length s = 0%nat -> s = EmptyString.
Proof. destruct s; [reflexivity | discriminate]. Qed.

(** A match of either expression cannot be continued to the left into
    another match. *)
Lemma markdown_match_leftmost c stem ext :
  matchesHere ["md"; "markdown"] ext = true ->
  matchesHere ["md"; "markdown"] (String c (stem +:+ ext)) = false.
Proof.
  intros Hext. apply matchesHere_markdown in Hext.
  destruct (matchesHere _ (String c _)) eqn:E; [| reflexivity]. exfalso.
  apply matchesHere_markdown in E.
  change (String c (stem +:+ ext)) with (String c stem +:+ ext) in E.
  rewrite toLowerCase_app in E.
  assert (Hl : forall x : string, toLowerCase (String c stem) +:+ toLowerCase ext = x ->
                 (S (String.length stem) + String.length (toLowerCase ext)
                  = String.length x)%nat).
  { intros x <-.
    rewrite length_append, (length_toLowerCase (String c stem)). reflexivity. }
  destruct Hext as [Hext | Hext], E as [E | E]; rewrite Hext in *;
    pose proof (Hl _ E) as Hlen; cbn [String.length] in Hlen; try lia.
  assert (H5 : String.length stem = 5%nat) by lia.
  cbn [toLowerCase] in E.
  destruct stem as [| c1 [| c2 [| c3 [| c4 [| c5 [| c6 stem]]]]]];
    try discriminate H5.
  cbn in E. discriminate E.
Qed.

Lemma archive_match_leftmost c stem ext :
  matchesHere ["zip"; "pdf"] ext = true ->
  matchesHere ["zip"; "pdf"] (String c (stem +:+ ext)) = false.
Proof.
  intros Hext. apply matchesHere_archive in Hext.
  destruct (matchesHere _ (String c _)) eqn:E; [| reflexivity]. exfalso.
  apply matchesHere_archive in E.
  change (String c (stem +:+ ext)) with (String c stem +:+ ext) in E.
  rewrite toLowerCase_app in E.
  assert (Hl : forall x : string, toLowerCase (String c stem) +:+ toLowerCase ext = x ->
                 (S (String.length stem) + String.length (toLowerCase ext)
                  = String.length x)%nat).
  { intros x <-.
    rewrite length_append, (length_toLowerCase (String c stem)). reflexivity. }
  destruct Hext as [Hext | Hext], E as [E | E]; rewrite Hext in *;
    pose proof (Hl _ E) as Hlen; cbn [String.length] in Hlen; lia.
Qed.

(** Hence the replacement removes the extension, and only it. *)
Lemma removeMatch_ext alts stem ext :
  (forall c stem', matchesHere alts ext = true ->
                   matchesHere alts (String c (stem' +:+ ext)) = false) ->
  matchesHere alts ext = true ->
  removeMatch alts (stem +:+ ext) = stem.
Proof.
  intros Hleft Hext. induction stem as [| c stem IH].
  - change (EmptyString +:+ ext) with ext.
    destruct ext; cbn [removeMatch]; now rewrite Hext.
  - rewrite append_cons. cbn [removeMatch]. rewrite Hleft by exact Hext.
    now rewrite IH.
Qed.

Lemma test_ext alts stem ext :
  matchesHere alts ext = true -> test alts (stem +:+ ext) = true.
Proof.
  intros Hext. induction stem as [| c stem IH].
  - change (EmptyString +:+ ext) with ext.
    destruct ext; cbn [test]; now rewrite Hext.
  - rewrite append_cons. cbn [test]. rewrite IH. apply orb_true_r.
Qed.

(** X16: [FileHandler] of the client: a file name passes
    [isValidExtension] exactly when it is a stem followed by [.md] or
    [.markdown] in any mix of upper and lower case; for such a name
    [defaultOutputName] is the stem followed by [.pdf]; for any other
    name it is the whole name followed by [.pdf]. *)
Theorem defaultOutputName_replaces_extension (name : string) (size : N) :
  (FileHandler.isValidExtension (mkBrowserFile name size) = true
   <-> exists stem ext,
         name = stem +:+ ext
         /\ (toLowerCase ext = ".md" \/ toLowerCase ext = ".markdown"))
  /\ (forall stem ext,
        name = stem +:+ ext ->
        toLowerCase ext = ".md" \/ toLowerCase ext = ".markdown" ->
        FileHandler.defaultOutputName name = stem +:+ ".pdf")
  /\ (FileHandler.isValidExtension (mkBrowserFile name size) = false ->
      FileHandler.defaultOutputName name = name +:+ ".pdf").
Proof.
  unfold FileHandler.isValidExtension, FileHandler.defaultOutputName,
    FileHandler.VALID_EXTENSIONS. cbn [bf_name].
  assert (Hempty : test ["md"; "markdown"] EmptyString = false) by reflexivity.
  split; [| split].
  - rewrite andb_true_iff, negb_true_iff. split.
    + intros [_ Ht]. destruct (removeMatch_match _ _ Ht) as (ext & Hext & Hs).
      exists (removeMatch ["md"; "markdown"] name), ext.
      split; [exact Hs | now apply matchesHere_markdown].
    + intros (stem & ext & -> & Hext). apply matchesHere_markdown in Hext.
      split; [| now apply test_ext].
      apply String.eqb_neq. intros E.
      pose proof (test_ext ["md"; "markdown"] stem ext Hext) as Ht.
      rewrite E in Ht. discriminate Ht.
  - intros stem ext -> Hext. apply matchesHere_markdown in Hext.
    rewrite (removeMatch_ext _ stem ext); [reflexivity | | exact Hext].
    intros c stem' _. now apply markdown_match_leftmost.
  - intros H. apply andb_false_iff in H as [H | H].
    + apply negb_false_iff, String.eqb_eq in H. subst name. reflexivity.
    + now rewrite removeMatch_no_match.
Qed.

Lemma append_inj_suffix (a c b d : string) :
  a +:+ b = c +:+ d -> String.length b = String.length d -> a = c /\ b = d.
Proof.
  revert c. induction a as [| x a IH]; intros [| y c] H Hlen.
  - now split.
  - exfalso. change (EmptyString +:+ b) with b in H. subst b.
    rewrite append_cons in Hlen. cbn [String.length] in Hlen.
    rewrite length_append in Hlen. lia.
  - exfalso. change (EmptyString +:+ d) with d in H. subst d.
    rewrite append_cons in Hlen. cbn [String.length] in Hlen.
    rewrite length_append in Hlen. lia.
  - rewrite !append_cons in H. injection H as -> H.
    destruct (IH c H Hlen) as [-> ->]. now split.
Qed.

Lemma orDefault_some s dflt :
  s <> EmptyString -> orDefault (Some s) dflt = s.
Proof. destruct s; [congruence | reflexivity]. Qed.

Lemma append_nonempty (a b : string) : b <> EmptyString -> a +:+ b <> EmptyString.
Proof.
  intros Hb E. apply (f_equal String.length) in E.
  rewrite length_append in E. cbn in E.
  destruct b; [congruence | cbn in E; lia].
Qed.

(** The requested name is never empty and carries the extension that
    goes with the number of selected files. *)
Lemma outputNameOf_extension (app : App) (name : string) :
  outputNameOf app = Some name ->
  name <> EmptyString
  /\ (length (selectedFiles app) = 1%nat -> endsWith ".pdf" name = true)
  /\ ((2 <= length (selectedFiles app))%nat -> endsWith ".zip" name = true).
Proof.
  unfold outputNameOf.
  set (typed := trim (outputNameValue (ui app))).
  assert (Hshape : forall suffix (x : string),
             suffix <> EmptyString ->
             (if negb (endsWith suffix x)
              then removeMatch ["zip"; "pdf"] x +:+ suffix else x)
             <> EmptyString
             /\ endsWith suffix
                  (if negb (endsWith suffix x)
                   then removeMatch ["zip"; "pdf"] x +:+ suffix else x) = true).
  { intros suffix x Hs.
    destruct (endsWith suffix x) eqn:E; cbn [negb].
    - split; [| exact E]. apply endsWith_spec in E as [stem ->].
      now apply append_nonempty.
    - split; [now apply append_nonempty | apply endsWith_app]. }
  destruct (selectedFiles app) as [| file [| file2 rest]]; [discriminate | |].
  - intros [= <-].
    destruct (Hshape ".pdf"
                (orDefault (Some typed)
                   (removeMatch ["md"; "markdown"] (bf_name file) +:+ ".pdf"))
                ltac:(discriminate)) as [H1 H2].
    split; [exact H1 |]. split; [intros _; exact H2 | cbn; lia].
  - intros [= <-].
    destruct (Hshape ".zip" (orDefault (Some typed) "converted_files.zip")
                ltac:(discriminate)) as [H1 H2].
    split; [exact H1 |]. split; [cbn; lia | intros _; exact H2].
Qed.

(** X17: the name [handleConvert] of the client requests and saves the
    result under: there is one exactly when a file is selected; it is
    never empty; with one file selected it ends in [.pdf] and with
    several in [.zip], whatever was typed; a typed name that already
    ends in [.pdf] (one file) is kept as it is, trimmed; a typed name
    with another spelling of [.pdf] or with [.zip] has that extension
    replaced, not extended; and without a typed name, the name of the
    one Markdown file gets [.pdf] in place of its extension. *)
Theorem output_name_has_the_extension (app : App) :
  let typed := trim (outputNameValue (ui app)) in
  (outputNameOf app = None <-> selectedFiles app = [])
  /\ (forall name, outputNameOf app = Some name ->
        name <> EmptyString
        /\ (length (selectedFiles app) = 1%nat -> endsWith ".pdf" name = true)
        /\ ((2 <= length (selectedFiles app))%nat ->
            endsWith ".zip" name = true))
  /\ (forall file, selectedFiles app = [file] ->
        (endsWith ".pdf" typed = true -> outputNameOf app = Some typed)
        /\ (forall stem ext,
              typed = stem +:+ ext ->
              toLowerCase ext = ".zip" \/ toLowerCase ext = ".pdf" ->
              ext <> ".pdf" ->
              outputNameOf app = Some (stem +:+ ".pdf"))
        /\ (forall stem ext,
              typed = EmptyString -> bf_name file = stem +:+ ext ->
              toLowerCase ext = ".md" \/ toLowerCase ext = ".markdown" ->
              outputNameOf app = Some (stem +:+ ".pdf"))).
Proof.
  cbv zeta. split; [| split; [apply outputNameOf_extension |]].
  { unfold outputNameOf.
    destruct (selectedFiles app) as [| file [| file2 rest]];
      split; (reflexivity || discriminate). }
  unfold outputNameOf.
  set (typed := trim (outputNameValue (ui app))).
  intros file ->. split; [| split].
  - intros Hends.
    assert (Hne : typed <> EmptyString)
      by (intros E; rewrite E in Hends; discriminate Hends).
    rewrite orDefault_some by exact Hne. now rewrite Hends.
  - intros stem ext Htyped Hext Hnot.
    assert (Hm : matchesHere ["zip"; "pdf"] ext = true)
      by now apply matchesHere_archive.
    assert (Hlen : String.length ext = 4%nat).
    { rewrite <- (length_toLowerCase ext).
      destruct Hext as [-> | ->]; reflexivity. }
    assert (Hne : typed <> EmptyString).
    { rewrite Htyped. apply append_nonempty. intros E. rewrite E in Hlen.
      discriminate Hlen. }
    rewrite orDefault_some by exact Hne.
    assert (Hends : endsWith ".pdf" typed = false).
    { destruct (endsWith ".pdf" typed) eqn:E; [| reflexivity]. exfalso.
      apply endsWith_spec in E as [stem' E]. rewrite Htyped in E.
      apply append_inj_suffix in E as [_ E]; [contradiction | exact Hlen]. }
    rewrite Hends. cbn [negb]. rewrite Htyped.
    rewrite (removeMatch_ext _ stem ext); [reflexivity | | exact Hm].
    intros c stem' _. now apply archive_match_leftmost.
  - intros stem ext Htyped Hname Hext. rewrite Htyped. cbn [orDefault].
    rewrite Hname.
    rewrite (removeMatch_ext _ stem ext);
      [| intros c stem' _; apply markdown_match_leftmost;
         now apply matchesHere_markdown
       | now apply matchesHere_markdown].
    now rewrite endsWith_app.
Qed.

(** ** The upload filter against the names the client accepts *)

(** Characters other than dots and slashes, after the end is marked and
    before any dot is seen, leave the scan as it is. *)
Lemma extnameLoop_plain (E : list ascii) :
  Forall (fun c => c <> "."%char /\ c <> "/"%char) E ->
  forall rest i st,
    startDot st = -1 -> endPos st <> -1 ->
    extnameLoop (E ++ rest) i st
    = extnameLoop rest (i - Z.of_nat (length E)) st.
Proof.
  induction 1 as [| c E [Hdot Hslash] _ IH]; intros rest i st Hs He.
  - cbn. f_equal. lia.
  - cbn [app extnameLoop]. unfold extnameTurn.
    rewrite (proj2 (Ascii.eqb_neq c "/") Hslash).
    rewrite (proj2 (Z.eqb_neq (endPos st) (-1)) He).
    rewrite (proj2 (Ascii.eqb_neq c ".") Hdot).
    rewrite Hs. cbn [Z.eqb negb Pos.eqb]. rewrite IH by assumption.
    f_equal. cbn [length]. lia.
Qed.

(** Once a dot is found and something precedes it, the rest of the scan
    keeps the dot, the end and the fact that something precedes. *)
Lemma extnameLoop_keeps (a b : Z) (rest : list ascii) :
  a <> -1 -> b <> -1 ->
  forall i st,
    startDot st = a -> endPos st = b ->
    preDotState st = 1 \/ preDotState st = -1 ->
    let st' := extnameLoop rest i st in
    startDot st' = a /\ endPos st' = b
    /\ (preDotState st' = 1 \/ preDotState st' = -1).
Proof.
  intros Ha Hb. induction rest as [| c rest IH]; intros i st Hs He Hp;
    cbv zeta; [auto |].
  cbn [extnameLoop]. unfold extnameTurn.
  destruct (Ascii.eqb c "/").
  - destruct (matchedSlash st); cbn [negb]; [now apply IH | cbn; auto].
  - rewrite He. rewrite (proj2 (Z.eqb_neq b (-1)) Hb).
    destruct (Ascii.eqb c ".").
    + rewrite Hs, (proj2 (Z.eqb_neq a (-1)) Ha).
      destruct (preDotState st =? 1); cbn [negb]; apply IH; cbn; auto.
    + rewrite Hs, (proj2 (Z.eqb_neq a (-1)) Ha). cbn [negb].
      apply IH; cbn; auto.
Qed.

Lemma string_snoc (s : string) :
  s <> EmptyString -> exists s' c, s = s' +:+ String c EmptyString.
Proof.
  induction s as [| x s IH]; [congruence |]. intros _.
  destruct s as [| y s].
  - now exists EmptyString, x.
  - destruct IH as (s' & c & Hs); [discriminate |].
    exists (String x s'), c. rewrite append_cons. now rewrite <- Hs.
Qed.

Lemma length_list_ascii s :
  length (list_ascii_of_string s) = String.length s.
Proof. induction s as [| c s IH]; cbn; [reflexivity | now rewrite IH]. Qed.

(** The scan of a stem that is followed by a character other than a
    slash, a dot, and an extension without dot or slash: the dot found is
    the one before the extension, the end is the end of the name, and
    something precedes the dot. *)
Lemma extnameLoop_stem_ext (S E : list ascii) (c : ascii) :
  c <> "/"%char -> E <> [] ->
  Forall (fun x => x <> "."%char /\ x <> "/"%char) E ->
  let st := extnameLoop (rev (S ++ [c] ++ "."%char :: E))
              (Z.of_nat (length (S ++ [c] ++ "."%char :: E)) - 1)
              (mkExtScan (-1) 0 (-1) true 0) in
  startDot st = Z.of_nat (length S) + 1
  /\ endPos st = Z.of_nat (length S) + 2 + Z.of_nat (length E)
  /\ (preDotState st = 1 \/ preDotState st = -1).
Proof.
  intros Hc HE Hplain. cbv zeta.
  assert (Hrev : rev (S ++ [c] ++ "."%char :: E)
                 = rev E ++ "."%char :: c :: rev S).
  { cbn [app]. rewrite rev_app_distr. cbn [rev].
    rewrite <- !app_assoc. reflexivity. }
  rewrite Hrev.
  assert (Hlen : Z.of_nat (length (S ++ [c] ++ "."%char :: E))
                 = Z.of_nat (length S) + 2 + Z.of_nat (length E)).
  { rewrite !length_app. cbn [length]. lia. }
  rewrite Hlen.
  destruct (rev E) as [| e1 E'] eqn:HrevE.
  { apply (f_equal (@rev ascii)) in HrevE. rewrite rev_involutive in HrevE.
    contradiction. }
  assert (HplainR : Forall (fun x => x <> "."%char /\ x <> "/"%char) (e1 :: E')).
  { rewrite <- HrevE. apply Forall_forall. intros x Hx.
    rewrite Forall_forall in Hplain. apply Hplain.
    apply list_elem_of_In. apply list_elem_of_In in Hx.
    now apply in_rev. }
  assert (HlenE : length E = Datatypes.S (length E')).
  { rewrite <- (length_rev E), HrevE. reflexivity. }
  inversion HplainR as [| ? ? [Hd1 Hs1] HplainE']; subst.
  set (fin := Z.of_nat (length S) + 2 + Z.of_nat (length E)).
  set (dot := Z.of_nat (length S) + 1).
  assert (Hscan :
    extnameLoop ((e1 :: E') ++ "."%char :: c :: rev S) (fin - 1)
      (mkExtScan (-1) 0 (-1) true 0)
    = extnameLoop (rev S) (dot - 1 - 1)
        (mkExtScan dot 0 fin false (if Ascii.eqb c "." then 1 else -1))).
  { (* the last character of the extension marks the end *)
    cbn [app extnameLoop]. unfold extnameTurn at 1.
    rewrite (proj2 (Ascii.eqb_neq e1 "/") Hs1),
      (proj2 (Ascii.eqb_neq e1 ".") Hd1).
    cbn [endPos startDot startPart preDotState Z.eqb negb Pos.eqb].
    replace (fin - 1 + 1) with fin by lia.
    (* the other characters of the extension *)
    rewrite extnameLoop_plain
      by (assumption || reflexivity || (cbn [endPos]; unfold fin; lia)).
    replace (fin - 1 - 1 - Z.of_nat (length E')) with dot
      by (unfold fin, dot; lia).
    (* the dot, and the character before it *)
    cbn [extnameLoop]. unfold extnameTurn.
    cbn [Ascii.eqb Bool.eqb endPos startDot startPart preDotState matchedSlash
           Z.eqb negb Pos.eqb andb].
    replace (fin =? -1) with false
      by (symmetry; apply Z.eqb_neq; unfold fin; lia).
    cbn [endPos startDot startPart preDotState matchedSlash Z.eqb negb Pos.eqb].
    rewrite (proj2 (Ascii.eqb_neq c "/") Hc).
    cbn [endPos startDot startPart preDotState matchedSlash].
    replace (fin =? -1) with false
      by (symmetry; apply Z.eqb_neq; unfold fin; lia).
    replace (dot =? -1) with false
      by (symmetry; apply Z.eqb_neq; unfold dot; lia).
    cbn [endPos startDot startPart preDotState matchedSlash Z.eqb negb].
    assert (Hd : (dot =? -1) = false) by (apply Z.eqb_neq; unfold dot; lia).
    destruct (Ascii.eqb c "."); rewrite ?Hd; reflexivity. }
  rewrite Hscan.
  apply (extnameLoop_keeps dot fin (rev S)); try reflexivity.
  - unfold dot. lia.
  - unfold fin. lia.
  - cbn. destruct (Ascii.eqb c "."); auto.
Qed.

(** [path.extname] of a name made of a stem that is not empty and does
    not end in a slash, a dot, and an extension without dot or slash. *)
Lemma extname_stem_ext (stem e : string) (c : ascii) :
  c <> "/"%char -> e <> EmptyString ->
  Forall (fun x => x <> "."%char /\ x <> "/"%char) (list_ascii_of_string e) ->
  extname ((stem +:+ String c EmptyString) +:+ String "." e) = String "." e.
Proof.
  intros Hc He Hplain. unfold extname.
  set (path := (stem +:+ String c EmptyString) +:+ String "." e).
  set (S := list_ascii_of_string stem).
  set (E := list_ascii_of_string e).
  assert (Hcodes : list_ascii_of_string path = S ++ [c] ++ "."%char :: E).
  { unfold path. rewrite !list_ascii_of_string_app. cbn.
    now rewrite <- app_assoc. }
  rewrite Hcodes.
  assert (HE : E <> []) by (unfold E; destruct e; [congruence | discriminate]).
  pose proof (extnameLoop_stem_ext S E c Hc HE Hplain) as Hloop.
  cbv zeta in Hloop.
  set (st := extnameLoop _ _ _) in *.
  destruct Hloop as (H1 & H2 & H3). cbv zeta. rewrite H1, H2.
  replace (Z.of_nat (length S) + 1 =? -1) with false
    by (symmetry; apply Z.eqb_neq; lia).
  replace (Z.of_nat (length S) + 2 + Z.of_nat (length E) =? -1) with false
    by (symmetry; apply Z.eqb_neq; lia).
  replace (Z.of_nat (length S) + 1
           =? Z.of_nat (length S) + 2 + Z.of_nat (length E) - 1) with false.
  2:{ symmetry. apply Z.eqb_neq. destruct E; [congruence | cbn [length]; lia]. }
  replace (preDotState st =? 0) with false by (symmetry; apply Z.eqb_neq; lia).
  rewrite andb_false_r. cbn [orb andb].
  replace (Z.to_nat (Z.of_nat (length S) + 1))
    with (String.length (stem +:+ String c EmptyString)).
  2:{ rewrite length_append. cbn [String.length]. unfold S.
      rewrite length_list_ascii. lia. }
  unfold path. rewrite substring_skip. apply substring_0_all.
  rewrite length_append. cbn [String.length]. unfold S, E.
  rewrite !length_list_ascii. lia.
Qed.

Lemma lowerChar_is_dot d : lowerChar d = "."%char -> d = "."%char.
Proof.
  destruct d as [[] [] [] [] [] [] [] []]; cbn; intros H;
    try discriminate H; reflexivity.
Qed.

Lemma lowerChar_letter (x l : ascii) :
  lowerChar x = l -> l <> "."%char -> l <> "/"%char ->
  x <> "."%char /\ x <> "/"%char.
Proof. intros H Hd Hs. split; intros ->; vm_compute in H; congruence. Qed.

(** An extension that is [.md] or [.markdown] up to case is a dot
    followed by letters. *)
Lemma markdown_ext_shape ext :
  toLowerCase ext = ".md" \/ toLowerCase ext = ".markdown" ->
  exists e, ext = String "." e /\ e <> EmptyString
    /\ Forall (fun x => x <> "."%char /\ x <> "/"%char) (list_ascii_of_string e).
Proof.
  intros [H | H].
  - destruct ext as [| d [| x1 [| x2 [| x3 r]]]]; try discriminate H.
    cbn in H. injection H as Hd H1 H2. apply lowerChar_is_dot in Hd. subst d.
    eexists. split; [reflexivity |]. split; [discriminate |].
    repeat constructor;
      first [ apply (lowerChar_letter _ _ H1) | apply (lowerChar_letter _ _ H2) ];
      discriminate.
  - destruct ext
      as [| d [| x1 [| x2 [| x3 [| x4 [| x5 [| x6 [| x7 [| x8 [| x9 r]]]]]]]]]];
      try discriminate H.
    cbn in H. injection H as Hd H1 H2 H3 H4 H5 H6 H7 H8.
    apply lowerChar_is_dot in Hd. subst d.
    eexists. split; [reflexivity |]. split; [discriminate |].
    repeat constructor;
      first [ apply (lowerChar_letter _ _ H1) | apply (lowerChar_letter _ _ H2)
            | apply (lowerChar_letter _ _ H3) | apply (lowerChar_letter _ _ H4)
            | apply (lowerChar_letter _ _ H5) | apply (lowerChar_letter _ _ H6)
            | apply (lowerChar_letter _ _ H7) | apply (lowerChar_letter _ _ H8) ];
      discriminate.
Qed.

(** X24: [fileFilter] of the server against the check of the client.
    Every name the client accepts (a stem followed by [.md] or
    [.markdown] in any case) passes the filter of the server whatever
    MIME type the browser sends, provided the stem is not empty and does
    not end in a slash, because [path.extname] of such a name is its
    extension; the filter also passes every file without MIME type or
    with one of its three text types, whatever its name. *)
Theorem server_filter_accepts_client_names
    (stem ext mimetype path : string) (size : N) :
  stem <> EmptyString -> endsWith "/" stem = false ->
  toLowerCase ext = ".md" \/ toLowerCase ext = ".markdown" ->
  FileHandler.isValidExtension (mkBrowserFile (stem +:+ ext) size) = true
  /\ extname (stem +:+ ext) = ext
  /\ fileFilter (mkUpload (stem +:+ ext) mimetype path) = true
  /\ (forall name,
        fileFilter (mkUpload name "" path) = true
        /\ fileFilter (mkUpload name "text/markdown" path) = true
        /\ fileFilter (mkUpload name "text/x-markdown" path) = true
        /\ fileFilter (mkUpload name "text/plain" path) = true).
Proof.
  intros Hstem Hslash Hext.
  assert (Hname : extname (stem +:+ ext) = ext).
  { destruct (markdown_ext_shape ext Hext) as (e & -> & He & Hplain).
    destruct (string_snoc stem Hstem) as (stem' & c & ->).
    apply extname_stem_ext; [| exact He | exact Hplain].
    intros ->. rewrite endsWith_app in Hslash. discriminate Hslash. }
  split; [| split; [exact Hname | split]].
  - unfold FileHandler.isValidExtension, FileHandler.VALID_EXTENSIONS.
    cbn [bf_name]. apply andb_true_iff.
    assert (Hm : matchesHere ["md"; "markdown"] ext = true)
      by now apply matchesHere_markdown.
    split; [| now apply test_ext].
    apply negb_true_iff, String.eqb_neq. intros E.
    pose proof (test_ext ["md"; "markdown"] stem ext Hm) as Ht.
    rewrite E in Ht. discriminate Ht.
  - unfold fileFilter. cbn [up_originalname up_mimetype]. rewrite Hname.
    apply orb_true_iff. left. apply bool_decide_eq_true.
    unfold ALLOWED_EXTENSIONS.
    destruct Hext as [-> | ->]; [now left | right; now left].
  - intros name. unfold fileFilter. cbn [up_originalname up_mimetype].
    repeat split; apply orb_true_iff; right; reflexivity.
Qed.

Lemma server_filter_accepts_client_names_witness :
  FileHandler.isValidExtension (mkBrowserFile "Notes.MD" 10) = true
  /\ extname "Notes.MD" = ".MD"
  /\ fileFilter (mkUpload "Notes.MD" "application/octet-stream" "uploads/x")
     = true.
Proof.
  destruct (server_filter_accepts_client_names "Notes" ".MD"
              "application/octet-stream" "uploads/x" 10)
    as (H1 & H2 & H3 & _).
  - discriminate.
  - reflexivity.
  - now left.
  - split; [exact H1 |]. split; [exact H2 | exact H3].
Defined.

(** ** The selection and the progress bar of the client *)




Section AppFacts.

Variable formatSize : N -> string.









End AppFacts.



(** What holds of the interval [handle] after callbacks that add up to
    [c] of them: it is stored and live with a value between [5 c] and
    [20 c] that is no more than 80, which is the width of the bar; or it
    is cleared, after more than four callbacks, and the bar is at 80. *)
Lemma ticks_progress handle (randoms : list Q) : forall (app : App) (c : Q),
  Forall (fun r => 0 <= r /\ r < 1)%Q randoms ->
  (progressInterval app = Some handle
   /\ exists p, intervals app !! handle = Some p
        /\ (5 * c <= p /\ p <= 20 * c /\ p <= 80)%Q
        /\ ((0 < c)%Q -> barWidth (progress (ui app)) = p))
  \/ ((4 < c)%Q /\ progressInterval app = None
      /\ intervals app !! handle = None
      /\ barWidth (progress (ui app)) = 80%Q) ->
  let app' := ticks handle randoms app in
  let c' := (c + inject_Z (Z.of_nat (length randoms)))%Q in
  selectedFiles app' = selectedFiles app
  /\ ((progressInterval app' = Some handle
       /\ exists p, intervals app' !! handle = Some p
            /\ (5 * c' <= p /\ p <= 20 * c' /\ p <= 80)%Q
            /\ ((0 < c')%Q -> barWidth (progress (ui app')) = p))
      \/ ((4 < c')%Q /\ progressInterval app' = None
          /\ intervals app' !! handle = None
          /\ barWidth (progress (ui app')) = 80%Q)).
Proof.
  induction randoms as [| r randoms IH]; intros app c Hr Hst; cbv zeta.
  - cbn [ticks foldl].
    change (inject_Z (Z.of_nat (length (@nil Q)))) with 0%Q.
    split; [reflexivity |].
    destruct Hst as [(Hh & p & Hp & (Hb1 & Hb2 & Hb3) & Hw) | (Hc & H)];
      [left | right].
    + split; [exact Hh |]. exists p. split; [exact Hp |].
      split; [repeat split; lra |].
      intros H. apply Hw. lra.
    + split; [lra | exact H].
  - inversion Hr as [| ? ? [Hr0 Hr1] Hrest]; subst.
    assert (Hc' : (c + inject_Z (Z.of_nat (length (r :: randoms)))
                   == (c + 1) + inject_Z (Z.of_nat (length randoms)))%Q).
    { cbn [length]. rewrite Nat2Z.inj_succ, <- Z.add_1_l, inject_Z_plus.
      unfold inject_Z at 1. lra. }
    change (ticks handle (r :: randoms) app)
      with (ticks handle randoms (progressTick handle r app)).
    assert (Hstep : selectedFiles (progressTick handle r app) = selectedFiles app
              /\ ((progressInterval (progressTick handle r app) = Some handle
                   /\ exists p, intervals (progressTick handle r app) !! handle
                                = Some p
                        /\ (5 * (c + 1) <= p /\ p <= 20 * (c + 1) /\ p <= 80)%Q
                        /\ ((0 < c + 1)%Q ->
                            barWidth (progress (ui (progressTick handle r app)))
                            = p))
                  \/ ((4 < c + 1)%Q
                      /\ progressInterval (progressTick handle r app) = None
                      /\ intervals (progressTick handle r app) !! handle = None
                      /\ barWidth (progress (ui (progressTick handle r app)))
                         = 80%Q))).
    { unfold progressTick.
      destruct Hst as [(Hh & p & Hp & (Hb1 & Hb2 & Hb3) & Hw) | (Hc & Hh & Hp & Hw)].
      - rewrite Hp.
        destruct (Qlt_le_dec 80 (p + (r * (20 - 5) + 5))) as [Hgt | Hle].
        + split; [reflexivity |]. right. unfold stopProgress. cbn.
          rewrite Hh. split; [lra |]. split; [reflexivity |].
          split; [| reflexivity].
          rewrite lookup_delete_eq. reflexivity.
        + split; [reflexivity |]. left. cbn. split; [exact Hh |].
          exists (p + (r * (20 - 5) + 5))%Q.
          split; [apply lookup_insert_eq |].
          split; [repeat split; lra |]. intros _.
          unfold mathMin.
          assert (Hq : Qle_bool (p + (r * (20 - 5) + 5)) 100 = true)
            by (apply Qle_bool_iff; lra).
          now rewrite Hq.
      - rewrite Hp. split; [reflexivity |]. right.
        split; [lra |]. auto. }
    destruct Hstep as [Hsel Hst'].
    destruct (IH (progressTick handle r app) (c + 1)%Q Hrest Hst')
      as [Hsel' Hfinal].
    split; [congruence |].
    destruct Hfinal as [(Hh & p & Hp & (Hb1 & Hb2 & Hb3) & Hw) | (Hc & H)];
      [left | right].
    + split; [exact Hh |]. exists p. split; [exact Hp |].
      split; [rewrite Hc'; auto |]. intros H0. apply Hw.
      now rewrite <- Hc'.
    + split; [now rewrite Hc' | exact H].
Qed.

(** X20: [simulateProgress] of the client, for the values that
    [Math.random()] returns: the width of the bar never passes [80%];
    the interval is still running after four callbacks, whatever the
    values, and after seventeen callbacks (8.5 s) at the latest it has
    cleared itself, the stored handle is [null] and the bar stands at
    [80%]; the selection is not touched. *)
Theorem simulated_progress_stops_at_80 (app : App) (randoms : list Q) :
  Forall (fun r => 0 <= r /\ r < 1)%Q randoms ->
  let handle := nextHandle app in
  let app' := ticks handle randoms (simulateProgress app) in
  selectedFiles app' = selectedFiles app
  /\ (randoms <> [] -> (barWidth (progress (ui app')) <= 80)%Q)
  /\ ((length randoms <= 4)%nat ->
      progressInterval app' = Some handle
      /\ is_Some (intervals app' !! handle))
  /\ ((17 <= length randoms)%nat ->
      progressInterval app' = None /\ intervals app' !! handle = None
      /\ barWidth (progress (ui app')) = 80%Q).
Proof.
  intros Hr. cbv zeta.
  destruct (ticks_progress (nextHandle app) randoms (simulateProgress app) 0 Hr)
    as [Hsel Hfinal].
  { left. cbn. split; [reflexivity |]. exists 0%Q.
    split; [apply lookup_insert_eq |]. split; [repeat split; lra |].
    intros H. lra. }
  set (n := length randoms) in *.
  assert (Hn : (0 + inject_Z (Z.of_nat n) == inject_Z (Z.of_nat n))%Q) by lra.
  assert (Hpos : randoms <> [] -> (1 <= inject_Z (Z.of_nat n))%Q).
  { intros Hne. rewrite <- (Zle_Qle 1). subst n.
    destruct randoms; [congruence | cbn [length]; lia]. }
  split; [exact Hsel |]. split; [| split].
  - intros Hne. specialize (Hpos Hne).
    destruct Hfinal as [(_ & p & _ & (_ & _ & Hb) & Hw) | (_ & _ & _ & ->)];
      [| lra].
    rewrite Hw; [exact Hb | lra].
  - intros Hle.
    assert (Hq : (inject_Z (Z.of_nat n) <= 4)%Q)
      by (rewrite <- (Zle_Qle _ 4); lia).
    destruct Hfinal as [(Hh & p & Hp & _) | (Hc & _)]; [| lra].
    split; [exact Hh | eauto].
  - intros Hge.
    assert (Hq : (17 <= inject_Z (Z.of_nat n))%Q)
      by (rewrite <- (Zle_Qle 17); lia).
    destruct Hfinal as [(_ & p & _ & (Hb1 & _ & Hb3) & _) | (_ & H)];
      [lra | exact H].
Qed.

Lemma simulated_progress_stops_at_80_witness :
  let app' := ticks 1 seventeenDraws (simulateProgress loadedPage) in
  progressInterval app' = None /\ intervals app' !! 1%nat = None
  /\ barWidth (progress (ui app')) = 80%Q.
Proof.
  cbv zeta.
  apply (simulated_progress_stops_at_80 loadedPage seventeenDraws).
  - unfold seventeenDraws.
    repeat (constructor; [split; [discriminate | reflexivity] |]).
    constructor.
  - cbn. lia.
Defined.

(** ** The client and the server together *)

(** X23: a request of the client that the server converts.  The client
    sends one part per selected file and the name it computed; the
    server then never falls back on its own name.  When the name is a
    valid header value, for one selected file the response is the PDF
    under exactly the client's name, which ends in [.pdf], and for
    several it is the archive under exactly the client's name, which
    ends in [.zip]: the name on the response, the name the client saves
    the download under and the kind of content agree.  When the name
    holds a character that [res.setHeader] refuses (a control
    character), one file is answered by 500 CONVERSION_FAILED and
    several files get no response. *)
Theorem download_name_agrees
    (lexer : string -> list Token) (basename : string -> string -> string)
    (pdfText : PDFDocument -> string) (template : string -> string -> string)
    (parseName : string -> string) (join : string -> string -> string)
    (client : App) (name : string) (uploads : list Upload) (env : nat -> Turn)
    (fs : gmap string File)
    (inputFiles : list string) (outputFiles : list OutputFile)
    (fs' : gmap string File) :
  (forall a b, join a b <> EmptyString) ->
  outputNameOf client = Some name ->
  up_originalname <$> uploads = bf_name <$> selectedFiles client ->
  convertAll lexer basename pdfText template parseName join env 0 uploads [] []
    fs = (None, (inputFiles, outputFiles), fs') ->
  let reply := fst (convertRoute lexer basename pdfText template parseName join
                      (mkRequest (Some uploads) (Some name)) env fs) in
  let invalid := checkInvalidHeaderChar (contentDisposition name) in
  (length (selectedFiles client) = 1%nat ->
   endsWith ".pdf" name = true
   /\ (invalid = false -> exists file onClose, reply = Pdf name file onClose)
   /\ (invalid = true -> reply = Json 500 "CONVERSION_FAILED"))
  /\ ((2 <= length (selectedFiles client))%nat ->
      endsWith ".zip" name = true
      /\ (invalid = false ->
          exists zipFile onClose, reply = Zip name zipFile outputFiles onClose)
      /\ (invalid = true ->
          exists zipFile, reply = Uncaught zipFile outputFiles)).
Proof.
  intros Hjoin Hname Hparts Hrun. cbv zeta.
  destruct (outputNameOf_extension client name Hname) as (Hne & Hpdf & Hzip).
  assert (Hcount : length uploads = length (selectedFiles client)).
  { apply (f_equal length) in Hparts. now rewrite !length_fmap in Hparts. }
  pose proof (convertAll_spec lexer basename pdfText template parseName join
                Hjoin uploads env 0%nat [] [] fs) as Hspec.
  cbv zeta in Hspec. rewrite Hrun in Hspec. cbn [fst snd] in Hspec.
  destruct Hspec as (k & newOutputs & Hst & Hlen & _ & Hnone & _).
  cbn [app] in Hst. injection Hst as -> ->.
  specialize (Hnone eq_refl). subst k. rewrite Hcount in Hnone.
  unfold convertRoute. cbn [req_files req_outputName]. rewrite Hrun.
  split.
  - intros H1. split; [now apply Hpdf |].
    destruct uploads as [| u [| u2 us]]; cbn in Hcount; try lia.
    destruct newOutputs as [| o [| o2 os]]; cbn in Hnone; try lia.
    cbv zeta. rewrite !orDefault_some by exact Hne.
    split; intros Hinv; rewrite Hinv; cbn [fst]; eauto.
  - intros H2. split; [now apply Hzip |].
    destruct uploads as [| u [| u2 us]]; cbn in Hcount; try lia.
    destruct newOutputs as [| o [| o2 os]]; cbn in Hnone; try lia.
    cbv zeta. rewrite !orDefault_some by exact Hne.
    split; intros Hinv; rewrite Hinv; cbn [fst]; eauto.
Qed.

Lemma download_name_agrees_witness :
  let app := mkApp (UIController.withOutputNameValue " lecture.PDF "
                      (ui loadedPage))
               [mkBrowserFile "notes.md" 120] None ∅ 1 in
  outputNameOf app = Some "lecture.pdf"
  /\ checkInvalidHeaderChar (contentDisposition "lecture.pdf") = false
  /\ exists file onClose,
       fst (convertRoute sampleLexer sampleBasename samplePdfText
              sampleTemplate sampleParseName sampleJoin
              (mkRequest (Some [uploadA]) (Some "lecture.pdf")) goodTurns
              serverDisk)
       = Pdf "lecture.pdf" file onClose.
Proof.
  cbv zeta. split; [reflexivity |]. split; [reflexivity |].
  destruct (download_name_agrees sampleLexer sampleBasename samplePdfText
              sampleTemplate sampleParseName sampleJoin
              (mkApp (UIController.withOutputNameValue " lecture.PDF "
                        (ui loadedPage))
                 [mkBrowserFile "notes.md" 120] None ∅ 1)
              "lecture.pdf" [uploadA] goodTurns serverDisk
              [up_path uploadA]
              [mkOutputFile "outputs/1700000000000-notes.pdf" "notes.pdf"]
              (snd (convertAll sampleLexer sampleBasename samplePdfText
                      sampleTemplate sampleParseName sampleJoin goodTurns 0
                      [uploadA] [] [] serverDisk)))
    as [Hone _].
  - intros a b. destruct a; discriminate.
  - reflexivity.
  - reflexivity.
  - vm_compute. reflexivity.
  - destruct (Hone eq_refl) as (_ & Hvalid & _). apply Hvalid. reflexivity.
Defined.

(** ** The server and the client on a few inputs *)

Example sanitizeFilename_examples :
  sanitizeFilename "my report: v2?.pdf" = "my_report__v2_.pdf"
  /\ sanitizeFilename "../../etc/passwd" = "._._etc_passwd"
  /\ sanitizeFilename "  a  b  " = "_a_b_"
  /\ sanitizeFilename "notes...md.pdf" = "notes.md.pdf".
Proof. repeat split; reflexivity. Qed.

(** The examples of the documentation of [path.extname]. *)
Example extname_examples :
  extname "index.html" = ".html" /\ extname "index.coffee.md" = ".md"
  /\ extname "index." = "." /\ extname "index" = EmptyString
  /\ extname ".index" = EmptyString /\ extname ".index.md" = ".md".
Proof. repeat split; reflexivity. Qed.

(** A name that is nothing but the extension: the client accepts it, the
    extension check of the server does not. *)
Example bare_extension_name :
  FileHandler.isValidExtension (mkBrowserFile ".md" 10) = true
  /\ extname ".md" = EmptyString
  /\ fileFilter (mkUpload ".md" "application/octet-stream" "uploads/x") = false
  /\ fileFilter (mkUpload "photo.png" "text/plain" "uploads/y") = true.
Proof. repeat split; reflexivity. Qed.

(** A drop of three files, of which one has another extension and one
    is too large, then a click on the remove button of the first entry. *)
Example selection_example :
  let batch := [mkBrowserFile "notes.md" 120; mkBrowserFile "photo.png" 300;
                mkBrowserFile "thesis.MARKDOWN" 52428801;
                mkBrowserFile "todo.markdown" 52428800] in
  let app := run sampleFormatSize [Drop batch] loadedPage in
  selectedFiles app
  = [mkBrowserFile "notes.md" 120; mkBrowserFile "todo.markdown" 52428800]
  /\ fileInfo (ui app)
     = mkFilePanel false [mkFileItem "notes.md" "120 Bytes" 0;
                          mkFileItem "todo.markdown" "52428800 Bytes" 1]
  /\ statusHidden (statusMessage (ui app)) = true
  /\ statusText (statusMessage (ui app)) = "File too large: thesis.MARKDOWN"
  /\ selectedFiles (step sampleFormatSize (ClickRemove 0) app)
     = [mkBrowserFile "todo.markdown" 52428800]
  /\ outputNameOf (step sampleFormatSize (ClickRemove 0) app)
     = Some "todo.pdf"
  /\ outputNameOf app = Some "converted_files.zip".
Proof. vm_compute. repeat split; reflexivity. Qed.
